(** * Session and turn orchestration of the Telegram relay

    The development follows [src/session.ts] (session state machine and
    the two streaming turn runners), [src/security.ts] (command and
    path policy), [src/config.ts] (constants and the allowed
    directories) and the handlers of [src/handlers/streaming.ts] that
    the turn runner and its status callback rely on.

    - Strings are Rocq [string]s read as ASCII text: a character is one
      JavaScript code unit below 128, so [length], [slice],
      [startsWith], [includes] and the case mappings agree with the
      JavaScript ones on that range.  Characters from 128 on are left
      uninterpreted (never white space, never case-mapped).
    - The session object is a record that every method takes and
      returns; the session file is the list of its saved entries.
    - A turn is a function of the stream the backend sends: the events
      in order, the exceptions the stream raises, and the stop requests
      that arrive while the runner waits for the next event.  It returns
      the new session, the new session file, the status events in the
      order of the calls to the status callback, and either the final
      text or the error raised to the caller.
    - The settings read from the environment and the functions of
      [node:path] and [node:fs] are parameters.
    - A handler is a function of what Telegram and the file system
      answer: whether a message is accepted, whether a file can be
      written. *)

From Stdlib Require Import ZArith Lia Bool Ascii String.
From stdpp Require Import base list strings.
From Equations Require Import Equations.
From Stdlib Require Import DecimalString DecimalNat DecimalFacts.

Local Open Scope string_scope.
Local Open Scope Z_scope.

(* ===================================================================== *)
(** ** JavaScript string primitives used by the source                    *)
(* ===================================================================== *)

Module Js.

Definition code (c : ascii) : N := N_of_ascii c.

(** [\s] on the ASCII range: TAB, LF, VT, FF, CR and SPACE. *)
Definition is_space (c : ascii) : bool :=
  let n := code c in
  ((9 <=? n) && (n <=? 13))%N || (n =? 32)%N.

(** [\w]: letters, digits and underscore. *)
Definition is_word (c : ascii) : bool :=
  let n := code c in
  (((48 <=? n) && (n <=? 57)) || ((65 <=? n) && (n <=? 90))
   || ((97 <=? n) && (n <=? 122)) || (n =? 95))%N.

Definition lower (c : ascii) : ascii :=
  let n := code c in
  if ((65 <=? n) && (n <=? 90))%N then ascii_of_N (n + 32) else c.

Definition upper (c : ascii) : ascii :=
  let n := code c in
  if ((97 <=? n) && (n <=? 122))%N then ascii_of_N (n - 32) else c.

Fixpoint smap (f : ascii -> ascii) (s : string) : string :=
  match s with
  | EmptyString => EmptyString
  | String c r => String (f c) (smap f r)
  end.

Definition toLowerCase : string -> string := smap lower.
Definition toUpperCase : string -> string := smap upper.

Fixpoint sfilter (p : ascii -> bool) (s : string) : string :=
  match s with
  | EmptyString => EmptyString
  | String c r => if p c then String c (sfilter p r) else sfilter p r
  end.

Fixpoint sall (p : ascii -> bool) (s : string) : bool :=
  match s with
  | EmptyString => true
  | String c r => p c && sall p r
  end.

Fixpoint srev_onto (s acc : string) : string :=
  match s with
  | EmptyString => acc
  | String c r => srev_onto r (String c acc)
  end.

Definition srev (s : string) : string := srev_onto s EmptyString.

Fixpoint drop_while (p : ascii -> bool) (s : string) : string :=
  match s with
  | EmptyString => EmptyString
  | String c r => if p c then drop_while p r else s
  end.

(** [s.trim()] *)
Definition trim (s : string) : string :=
  srev (drop_while is_space (srev (drop_while is_space s))).

Definition len (s : string) : Z := Z.of_nat (String.length s).

(** The truthiness of a string: only the empty string is falsy. *)
Definition truthy (s : string) : bool :=
  match s with EmptyString => false | _ => true end.

Definition eqs (a b : string) : bool := String.eqb a b.

Definition startsWith (s p : string) : bool := String.prefix p s.

Definition endsWith (s p : string) : bool := String.prefix (srev p) (srev s).

(** [s.includes(p)] *)
Fixpoint includes (s p : string) : bool :=
  String.prefix p s ||
  match s with
  | EmptyString => false
  | String _ r => includes r p
  end.

(** [s.slice(0, n)] for an integer [n]; a negative [n] counts from the
    end of the string, as in JavaScript. *)
Definition slice0 (s : string) (n : Z) : string :=
  let m := if n <? 0 then Z.max 0 (len s + n) else n in
  String.substring 0 (Z.to_nat m) s.

(** [s.slice(1, -1)] *)
Definition slice_1_m1 (s : string) : string :=
  match s with
  | EmptyString => EmptyString
  | String _ r => srev (match srev r with
                        | EmptyString => EmptyString
                        | String _ r' => r'
                        end)
  end.

(** [a || b] on strings. *)
Definition or_else (a b : string) : string := if truthy a then a else b.

End Js.

(* ===================================================================== *)
(** ** Configuration ([src/config.ts])                                    *)
(* ===================================================================== *)

Inductive AssistantMode := claude | codex.

Inductive ClaudeReasoningEffort := c_low | c_medium | c_high.

Inductive CodexReasoningEffort := minimal | low | medium | high | xhigh.

#[global] Instance AssistantMode_eq_dec : EqDecision AssistantMode.
Proof. solve_decision. Defined.
#[global] Instance ClaudeEffort_eq_dec : EqDecision ClaudeReasoningEffort.
Proof. solve_decision. Defined.
#[global] Instance CodexEffort_eq_dec : EqDecision CodexReasoningEffort.
Proof. solve_decision. Defined.

(** The values [config.ts] reads from the process environment.  Integer
    settings come from [parseInt] and are not range-checked by the
    source, so they are arbitrary integers here. *)
Record Config := {
  HOME : string;
  WORKING_DIR : string;
  RUNTIME_DIR : string;
  ALLOWED_PATHS : list string;
  AI_ASSISTANT : AssistantMode;
  CLAUDE_MODEL : string;
  CLAUDE_REASONING_EFFORT : ClaudeReasoningEffort;
  CODEX_MODEL : string;
  CODEX_REASONING_EFFORT : CodexReasoningEffort;
  STREAMING_THROTTLE_MS : Z;
  STREAMING_SYNTHETIC_FALLBACK_MIN_CHARS : Z;
  STREAMING_SYNTHETIC_STEP_CHARS : Z
}.

(** Dangerous command patterns to block. *)
Definition BLOCKED_PATTERNS : list string :=
  [ "rm -rf /"; "rm -rf ~"; "rm -rf $HOME"; "sudo rm"; ":(){ :|:& };:";
    "> /dev/sd"; "mkfs."; "dd if=" ].

(** Temp paths that are always allowed for bot operations. *)
Definition TEMP_PATHS (cfg : Config) : list string :=
  [ RUNTIME_DIR cfg ++ "/"; "/tmp/"; "/private/tmp/"; "/var/folders/" ].

Definition MAX_SESSIONS : nat := 5.

(** The functions of [node:path] and [node:fs] the policy calls.  They
    are library code outside the repository; [realpathSync] answers
    [None] where the real one throws. *)
Record PathLib := {
  normalize : string -> string;
  isAbsolute : string -> bool;
  resolve : string -> string;
  resolve2 : string -> string -> string;
  realpathSync : string -> option string
}.

(** [array.findIndex(p)]: the first index whose element satisfies [p]
    ([None] for JavaScript's [-1]). *)
Fixpoint findIndex {A} (p : A -> bool) (l : list A) : option nat :=
  match l with
  | [] => None
  | x :: r => if p x then Some 0%nat else option_map S (findIndex p r)
  end.

(* ===================================================================== *)
(** ** Safety policy ([src/security.ts])                                  *)
(* ===================================================================== *)

Module Security.

Definition dquote : ascii := ascii_of_N 34.
Definition squote : ascii := ascii_of_N 39.
Definition str1 (c : ascii) : string := String c EmptyString.

Definition stripWrappingQuotes (value : string) : string :=
  if (Js.startsWith value (str1 dquote) && Js.endsWith value (str1 dquote))
     || (Js.startsWith value (str1 squote) && Js.endsWith value (str1 squote))
  then Js.slice_1_m1 value
  else value.

Fixpoint strip_prefix (p s : string) : option string :=
  match p, s with
  | EmptyString, _ => Some s
  | String a p', String b s' => if Ascii.eqb a b then strip_prefix p' s' else None
  | String _ _, EmptyString => None
  end.

(** [s.replace(/^pat(?=\/|$)/, by)] for a literal [pat]; the replacement
    is a home directory and is inserted as it is. *)
Definition replace_head (pat by_ s : string) : string :=
  match strip_prefix pat s with
  | Some rest =>
      if Js.eqs rest "" || Js.startsWith rest "/" then by_ ++ rest else s
  | None => s
  end.

(** [/\brm\b/i.test(s)]; [prevWord] tells whether the character before
    [s] is a word character. *)
Fixpoint test_rm_word (prevWord : bool) (s : string) : bool :=
  match s with
  | String a (String b r as t) =>
      (negb prevWord
       && Ascii.eqb (Js.lower a) "r" && Ascii.eqb (Js.lower b) "m"
       && match r with
          | EmptyString => true
          | String c _ => negb (Js.is_word c)
          end)
      || test_rm_word (Js.is_word a) t
  | _ => false
  end.

(** [s.split(/&&|\|\||;|\|/)]; [cur] is the segment read so far. *)
Fixpoint split_ops (cur s : string) : list string :=
  match s with
  | EmptyString => [cur]
  | String a r =>
      match r with
      | String b r' =>
          if (Ascii.eqb a "&" && Ascii.eqb b "&") || (Ascii.eqb a "|" && Ascii.eqb b "|")
          then cur :: split_ops "" r'
          else if Ascii.eqb a ";" || Ascii.eqb a "|"
          then cur :: split_ops "" r
          else split_ops (cur ++ str1 a) r
      | EmptyString =>
          if Ascii.eqb a ";" || Ascii.eqb a "|"
          then cur :: split_ops "" r
          else split_ops (cur ++ str1 a) r
      end
  end.

Fixpoint has_char (q : ascii) (s : string) : bool :=
  match s with
  | EmptyString => false
  | String c r => Ascii.eqb c q || has_char q r
  end.

(** The scanner behind the token pattern of [checkCommandSafety] (a
    double-quoted string, else a single-quoted string, else a run of
    non-space characters, matched globally): outside a token, inside
    a quoted token whose closing quote is known to exist, or inside a
    run of non-space characters. *)
Inductive tok_state :=
| Idle
| InQuote (q : ascii) (acc : string)
| InWord (acc : string).

Fixpoint tokens_from (st : tok_state) (s : string) : list string :=
  match s with
  | EmptyString =>
      match st with
      | InWord acc => [acc]
      | _ => []
      end
  | String c r =>
      match st with
      | Idle =>
          if (Ascii.eqb c dquote || Ascii.eqb c squote) && has_char c r
          then tokens_from (InQuote c (str1 c)) r
          else if Js.is_space c then tokens_from Idle r
          else tokens_from (InWord (str1 c)) r
      | InQuote q acc =>
          if Ascii.eqb c q then (acc ++ str1 c) :: tokens_from Idle r
          else tokens_from (InQuote q (acc ++ str1 c)) r
      | InWord acc =>
          if Js.is_space c then acc :: tokens_from Idle r
          else tokens_from (InWord (acc ++ str1 c)) r
      end
  end.

Definition tokenize (segment : string) : list string := tokens_from Idle segment.

(** [/^(?:\S*\/)?rm$/i.test(t)] *)
Definition is_rm_token (t : string) : bool :=
  match Js.srev t with
  | String m (String r p) =>
      Ascii.eqb (Js.lower m) "m" && Ascii.eqb (Js.lower r) "r"
      && match p with
         | EmptyString => true
         | String c _ => Ascii.eqb c "/" && Js.sall (fun x => negb (Js.is_space x)) p
         end
  | _ => false
  end.

(** Skip flags and separators. *)
Definition is_skipped_arg (arg : string) : bool :=
  negb (Js.truthy arg) || Js.startsWith arg "-" || Js.eqs arg "--".

(** The raw arguments that follow the [rm] token of a segment. *)
Definition rm_raw_args (segment : string) : list string :=
  let tokens := tokenize segment in
  match findIndex (fun token => is_rm_token (stripWrappingQuotes token)) tokens with
  | None => []
  | Some rmIndex => drop (S rmIndex) tokens
  end.

Section Policy.
Context (cfg : Config) (fs : PathLib).

Definition expandUserPath (rawPath : string) : string :=
  let home := HOME cfg in
  let dequoted := stripWrappingQuotes (Js.trim rawPath) in
  replace_head "$HOME" home (replace_head "~" home dequoted).

(** The value of [resolved] in [isPathAllowed]. *)
Definition resolvedPath (path : string) : string :=
  let expanded := expandUserPath path in
  let normalizedPath := normalize fs expanded in
  let candidate :=
    if isAbsolute fs normalizedPath then normalizedPath
    else resolve2 fs (WORKING_DIR cfg) normalizedPath in
  match realpathSync fs candidate with
  | Some r => r
  | None =>
      if isAbsolute fs normalizedPath then resolve fs normalizedPath
      else resolve2 fs (WORKING_DIR cfg) normalizedPath
  end.

Definition in_temp (resolved : string) : bool :=
  existsb (fun tempPath => Js.startsWith resolved tempPath) (TEMP_PATHS cfg).

Definition in_allowed (resolved : string) : bool :=
  existsb (fun allowed =>
             let allowedResolved := resolve fs allowed in
             Js.eqs resolved allowedResolved
             || Js.startsWith resolved (allowedResolved ++ "/"))
          (ALLOWED_PATHS cfg).

(** [isPathAllowed]: always allow temp paths, then check against the
    allowed paths using containment. *)
Definition isPathAllowed (path : string) : bool :=
  let resolved := resolvedPath path in
  if in_temp resolved then true
  else if in_allowed resolved then true
  else false.

(** The inner loop over the arguments of one [rm]; the answer is the
    raw argument that was refused, if any. *)
Fixpoint check_rm_args (args : list string) : option string :=
  match args with
  | [] => None
  | rawArg :: rest =>
      let arg := stripWrappingQuotes rawArg in
      if is_skipped_arg arg then check_rm_args rest
      else if negb (isPathAllowed arg) then Some rawArg
      else check_rm_args rest
  end.

Fixpoint check_segments (segments : list string) : option string :=
  match segments with
  | [] => None
  | segment :: rest =>
      match check_rm_args (rm_raw_args segment) with
      | Some rawArg => Some rawArg
      | None => check_segments rest
      end
  end.

Definition blocked_pattern (command : string) : option string :=
  let lowerCommand := Js.toLowerCase command in
  List.find (fun pattern => Js.includes lowerCommand (Js.toLowerCase pattern))
            BLOCKED_PATTERNS.

(** [checkCommandSafety]: blocked patterns first, then the targets of
    [rm], segment by segment.  The [try] around the second part has
    nothing to catch, since none of the calls inside it throws. *)
Definition checkCommandSafety (command : string) : bool * string :=
  match blocked_pattern command with
  | Some pattern => (false, "Blocked pattern: " ++ pattern)
  | None =>
      if test_rm_word false command then
        match check_segments (split_ops "" command) with
        | Some rawArg => (false, "rm target outside allowed paths: " ++ rawArg)
        | None => (true, "")
        end
      else (true, "")
  end.

(** The paths an [rm] command is asked to delete: per shell segment,
    the unquoted arguments after [rm] that are not flags. *)
Definition rmTargets (command : string) : list string :=
  flat_map (fun segment =>
              filter (fun arg => negb (is_skipped_arg arg))
                     (map stripWrappingQuotes (rm_raw_args segment)))
           (split_ops "" command).

End Policy.

(** The same configuration with another allowed-paths list. *)
Definition with_allowed (cfg : Config) (allowed : list string) : Config :=
  {| HOME := HOME cfg; WORKING_DIR := WORKING_DIR cfg;
     RUNTIME_DIR := RUNTIME_DIR cfg; ALLOWED_PATHS := allowed;
     AI_ASSISTANT := AI_ASSISTANT cfg; CLAUDE_MODEL := CLAUDE_MODEL cfg;
     CLAUDE_REASONING_EFFORT := CLAUDE_REASONING_EFFORT cfg;
     CODEX_MODEL := CODEX_MODEL cfg;
     CODEX_REASONING_EFFORT := CODEX_REASONING_EFFORT cfg;
     STREAMING_THROTTLE_MS := STREAMING_THROTTLE_MS cfg;
     STREAMING_SYNTHETIC_FALLBACK_MIN_CHARS := STREAMING_SYNTHETIC_FALLBACK_MIN_CHARS cfg;
     STREAMING_SYNTHETIC_STEP_CHARS := STREAMING_SYNTHETIC_STEP_CHARS cfg |}.

End Security.

(** A sample deployment: the defaults of [config.ts] for a user whose
    home is [/home/bot], and a file system on which the paths below are
    already normal and do not exist yet (so [realpathSync] throws). *)
Definition sample_cfg : Config :=
  {| HOME := "/home/bot"; WORKING_DIR := "/home/bot";
     RUNTIME_DIR := "/home/bot/sessions";
     ALLOWED_PATHS := [ "/home/bot"; "/home/bot/Programming_Projects";
                        "/home/bot/.claude"; "/home/bot/.codex" ];
     AI_ASSISTANT := claude; CLAUDE_MODEL := "claude-opus-4-6";
     CLAUDE_REASONING_EFFORT := c_high; CODEX_MODEL := "gpt-5.3-codex";
     CODEX_REASONING_EFFORT := medium;
     STREAMING_THROTTLE_MS := 250;
     STREAMING_SYNTHETIC_FALLBACK_MIN_CHARS := 280;
     STREAMING_SYNTHETIC_STEP_CHARS := 220 |}.

(** The same deployment with small streaming settings (snapshot threshold
    4, synthetic step 3), which keeps examples short. *)
Definition compact_cfg : Config :=
  {| HOME := "/home/bot"; WORKING_DIR := "/home/bot";
     RUNTIME_DIR := "/home/bot/sessions";
     ALLOWED_PATHS := [ "/home/bot" ];
     AI_ASSISTANT := claude; CLAUDE_MODEL := "claude-opus-4-6";
     CLAUDE_REASONING_EFFORT := c_high; CODEX_MODEL := "gpt-5.3-codex";
     CODEX_REASONING_EFFORT := medium;
     STREAMING_THROTTLE_MS := 250;
     STREAMING_SYNTHETIC_FALLBACK_MIN_CHARS := 4;
     STREAMING_SYNTHETIC_STEP_CHARS := 3 |}.

(** A deployment whose snapshot threshold is set to zero. *)
Definition zero_threshold_cfg : Config :=
  {| HOME := "/home/bot"; WORKING_DIR := "/home/bot";
     RUNTIME_DIR := "/home/bot/sessions";
     ALLOWED_PATHS := [ "/home/bot" ];
     AI_ASSISTANT := claude; CLAUDE_MODEL := "claude-opus-4-6";
     CLAUDE_REASONING_EFFORT := c_high; CODEX_MODEL := "gpt-5.3-codex";
     CODEX_REASONING_EFFORT := medium;
     STREAMING_THROTTLE_MS := 250;
     STREAMING_SYNTHETIC_FALLBACK_MIN_CHARS := 0;
     STREAMING_SYNTHETIC_STEP_CHARS := 220 |}.

Definition sample_fs : PathLib :=
  {| normalize := fun p => p;
     isAbsolute := fun p => Js.startsWith p "/";
     resolve := fun p => p;
     resolve2 := fun base p => base ++ "/" ++ p;
     realpathSync := fun _ => None |}.


(* ===================================================================== *)
(** ** Session state ([class ClaudeSession] in [src/session.ts])          *)
(* ===================================================================== *)

(** An instant, as [new Date()] or [Date.now()] reads it (milliseconds). *)
Definition Date := Z.

Record TokenUsage := {
  input_tokens : Z;
  output_tokens : Z;
  cache_read_input_tokens : Z;
  cache_creation_input_tokens : Z
}.

(** The fields of the class; [null] is [None], and [abortController] only
    records whether a controller is installed. *)
Record Session := {
  sessionId : option string;
  lastActivity : option Date;
  queryStarted : option Date;
  currentTool : option string;
  lastTool : option string;
  lastError : option string;
  lastErrorTime : option Date;
  lastUsage : option TokenUsage;
  lastMessage : option string;
  conversationTitle : option string;
  assistantMode : AssistantMode;
  claudeModel : string;
  claudeEffort : ClaudeReasoningEffort;
  codexModel : string;
  codexEffort : CodexReasoningEffort;
  abortController : bool;
  isQueryRunning : bool;
  stopRequested : bool;
  _isProcessing : bool;
  _wasInterruptedByNewMessage : bool
}.

(** Field assignments [this.f = v]. *)
Definition set_sessionId (v : option string) (s : Session) : Session :=
  {| sessionId := v; lastActivity := lastActivity s; queryStarted :=
     queryStarted s; currentTool := currentTool s; lastTool := lastTool s;
     lastError := lastError s; lastErrorTime := lastErrorTime s; lastUsage :=
     lastUsage s; lastMessage := lastMessage s; conversationTitle :=
     conversationTitle s; assistantMode := assistantMode s; claudeModel :=
     claudeModel s; claudeEffort := claudeEffort s; codexModel := codexModel
     s; codexEffort := codexEffort s; abortController := abortController s;
     isQueryRunning := isQueryRunning s; stopRequested := stopRequested s;
     _isProcessing := _isProcessing s; _wasInterruptedByNewMessage :=
     _wasInterruptedByNewMessage s |}.

Definition set_lastActivity (v : option Date) (s : Session) : Session :=
  {| sessionId := sessionId s; lastActivity := v; queryStarted := queryStarted
     s; currentTool := currentTool s; lastTool := lastTool s; lastError :=
     lastError s; lastErrorTime := lastErrorTime s; lastUsage := lastUsage s;
     lastMessage := lastMessage s; conversationTitle := conversationTitle s;
     assistantMode := assistantMode s; claudeModel := claudeModel s;
     claudeEffort := claudeEffort s; codexModel := codexModel s; codexEffort
     := codexEffort s; abortController := abortController s; isQueryRunning :=
     isQueryRunning s; stopRequested := stopRequested s; _isProcessing :=
     _isProcessing s; _wasInterruptedByNewMessage :=
     _wasInterruptedByNewMessage s |}.

Definition set_queryStarted (v : option Date) (s : Session) : Session :=
  {| sessionId := sessionId s; lastActivity := lastActivity s; queryStarted :=
     v; currentTool := currentTool s; lastTool := lastTool s; lastError :=
     lastError s; lastErrorTime := lastErrorTime s; lastUsage := lastUsage s;
     lastMessage := lastMessage s; conversationTitle := conversationTitle s;
     assistantMode := assistantMode s; claudeModel := claudeModel s;
     claudeEffort := claudeEffort s; codexModel := codexModel s; codexEffort
     := codexEffort s; abortController := abortController s; isQueryRunning :=
     isQueryRunning s; stopRequested := stopRequested s; _isProcessing :=
     _isProcessing s; _wasInterruptedByNewMessage :=
     _wasInterruptedByNewMessage s |}.

Definition set_currentTool (v : option string) (s : Session) : Session :=
  {| sessionId := sessionId s; lastActivity := lastActivity s; queryStarted :=
     queryStarted s; currentTool := v; lastTool := lastTool s; lastError :=
     lastError s; lastErrorTime := lastErrorTime s; lastUsage := lastUsage s;
     lastMessage := lastMessage s; conversationTitle := conversationTitle s;
     assistantMode := assistantMode s; claudeModel := claudeModel s;
     claudeEffort := claudeEffort s; codexModel := codexModel s; codexEffort
     := codexEffort s; abortController := abortController s; isQueryRunning :=
     isQueryRunning s; stopRequested := stopRequested s; _isProcessing :=
     _isProcessing s; _wasInterruptedByNewMessage :=
     _wasInterruptedByNewMessage s |}.

Definition set_lastTool (v : option string) (s : Session) : Session :=
  {| sessionId := sessionId s; lastActivity := lastActivity s; queryStarted :=
     queryStarted s; currentTool := currentTool s; lastTool := v; lastError :=
     lastError s; lastErrorTime := lastErrorTime s; lastUsage := lastUsage s;
     lastMessage := lastMessage s; conversationTitle := conversationTitle s;
     assistantMode := assistantMode s; claudeModel := claudeModel s;
     claudeEffort := claudeEffort s; codexModel := codexModel s; codexEffort
     := codexEffort s; abortController := abortController s; isQueryRunning :=
     isQueryRunning s; stopRequested := stopRequested s; _isProcessing :=
     _isProcessing s; _wasInterruptedByNewMessage :=
     _wasInterruptedByNewMessage s |}.

Definition set_lastError (v : option string) (s : Session) : Session :=
  {| sessionId := sessionId s; lastActivity := lastActivity s; queryStarted :=
     queryStarted s; currentTool := currentTool s; lastTool := lastTool s;
     lastError := v; lastErrorTime := lastErrorTime s; lastUsage := lastUsage
     s; lastMessage := lastMessage s; conversationTitle := conversationTitle
     s; assistantMode := assistantMode s; claudeModel := claudeModel s;
     claudeEffort := claudeEffort s; codexModel := codexModel s; codexEffort
     := codexEffort s; abortController := abortController s; isQueryRunning :=
     isQueryRunning s; stopRequested := stopRequested s; _isProcessing :=
     _isProcessing s; _wasInterruptedByNewMessage :=
     _wasInterruptedByNewMessage s |}.

Definition set_lastErrorTime (v : option Date) (s : Session) : Session :=
  {| sessionId := sessionId s; lastActivity := lastActivity s; queryStarted :=
     queryStarted s; currentTool := currentTool s; lastTool := lastTool s;
     lastError := lastError s; lastErrorTime := v; lastUsage := lastUsage s;
     lastMessage := lastMessage s; conversationTitle := conversationTitle s;
     assistantMode := assistantMode s; claudeModel := claudeModel s;
     claudeEffort := claudeEffort s; codexModel := codexModel s; codexEffort
     := codexEffort s; abortController := abortController s; isQueryRunning :=
     isQueryRunning s; stopRequested := stopRequested s; _isProcessing :=
     _isProcessing s; _wasInterruptedByNewMessage :=
     _wasInterruptedByNewMessage s |}.

Definition set_lastUsage (v : option TokenUsage) (s : Session) : Session :=
  {| sessionId := sessionId s; lastActivity := lastActivity s; queryStarted :=
     queryStarted s; currentTool := currentTool s; lastTool := lastTool s;
     lastError := lastError s; lastErrorTime := lastErrorTime s; lastUsage :=
     v; lastMessage := lastMessage s; conversationTitle := conversationTitle
     s; assistantMode := assistantMode s; claudeModel := claudeModel s;
     claudeEffort := claudeEffort s; codexModel := codexModel s; codexEffort
     := codexEffort s; abortController := abortController s; isQueryRunning :=
     isQueryRunning s; stopRequested := stopRequested s; _isProcessing :=
     _isProcessing s; _wasInterruptedByNewMessage :=
     _wasInterruptedByNewMessage s |}.

Definition set_conversationTitle (v : option string) (s : Session) : Session :=
  {| sessionId := sessionId s; lastActivity := lastActivity s; queryStarted :=
     queryStarted s; currentTool := currentTool s; lastTool := lastTool s;
     lastError := lastError s; lastErrorTime := lastErrorTime s; lastUsage :=
     lastUsage s; lastMessage := lastMessage s; conversationTitle := v;
     assistantMode := assistantMode s; claudeModel := claudeModel s;
     claudeEffort := claudeEffort s; codexModel := codexModel s; codexEffort
     := codexEffort s; abortController := abortController s; isQueryRunning :=
     isQueryRunning s; stopRequested := stopRequested s; _isProcessing :=
     _isProcessing s; _wasInterruptedByNewMessage :=
     _wasInterruptedByNewMessage s |}.

Definition set_assistantMode (v : AssistantMode) (s : Session) : Session :=
  {| sessionId := sessionId s; lastActivity := lastActivity s; queryStarted :=
     queryStarted s; currentTool := currentTool s; lastTool := lastTool s;
     lastError := lastError s; lastErrorTime := lastErrorTime s; lastUsage :=
     lastUsage s; lastMessage := lastMessage s; conversationTitle :=
     conversationTitle s; assistantMode := v; claudeModel := claudeModel s;
     claudeEffort := claudeEffort s; codexModel := codexModel s; codexEffort
     := codexEffort s; abortController := abortController s; isQueryRunning :=
     isQueryRunning s; stopRequested := stopRequested s; _isProcessing :=
     _isProcessing s; _wasInterruptedByNewMessage :=
     _wasInterruptedByNewMessage s |}.

Definition set_claudeModel (v : string) (s : Session) : Session :=
  {| sessionId := sessionId s; lastActivity := lastActivity s; queryStarted :=
     queryStarted s; currentTool := currentTool s; lastTool := lastTool s;
     lastError := lastError s; lastErrorTime := lastErrorTime s; lastUsage :=
     lastUsage s; lastMessage := lastMessage s; conversationTitle :=
     conversationTitle s; assistantMode := assistantMode s; claudeModel := v;
     claudeEffort := claudeEffort s; codexModel := codexModel s; codexEffort
     := codexEffort s; abortController := abortController s; isQueryRunning :=
     isQueryRunning s; stopRequested := stopRequested s; _isProcessing :=
     _isProcessing s; _wasInterruptedByNewMessage :=
     _wasInterruptedByNewMessage s |}.

Definition set_codexModel (v : string) (s : Session) : Session :=
  {| sessionId := sessionId s; lastActivity := lastActivity s; queryStarted :=
     queryStarted s; currentTool := currentTool s; lastTool := lastTool s;
     lastError := lastError s; lastErrorTime := lastErrorTime s; lastUsage :=
     lastUsage s; lastMessage := lastMessage s; conversationTitle :=
     conversationTitle s; assistantMode := assistantMode s; claudeModel :=
     claudeModel s; claudeEffort := claudeEffort s; codexModel := v;
     codexEffort := codexEffort s; abortController := abortController s;
     isQueryRunning := isQueryRunning s; stopRequested := stopRequested s;
     _isProcessing := _isProcessing s; _wasInterruptedByNewMessage :=
     _wasInterruptedByNewMessage s |}.

Definition set_codexEffort (v : CodexReasoningEffort) (s : Session) : Session :=
  {| sessionId := sessionId s; lastActivity := lastActivity s; queryStarted :=
     queryStarted s; currentTool := currentTool s; lastTool := lastTool s;
     lastError := lastError s; lastErrorTime := lastErrorTime s; lastUsage :=
     lastUsage s; lastMessage := lastMessage s; conversationTitle :=
     conversationTitle s; assistantMode := assistantMode s; claudeModel :=
     claudeModel s; claudeEffort := claudeEffort s; codexModel := codexModel
     s; codexEffort := v; abortController := abortController s; isQueryRunning
     := isQueryRunning s; stopRequested := stopRequested s; _isProcessing :=
     _isProcessing s; _wasInterruptedByNewMessage :=
     _wasInterruptedByNewMessage s |}.

Definition set_abortController (v : bool) (s : Session) : Session :=
  {| sessionId := sessionId s; lastActivity := lastActivity s; queryStarted :=
     queryStarted s; currentTool := currentTool s; lastTool := lastTool s;
     lastError := lastError s; lastErrorTime := lastErrorTime s; lastUsage :=
     lastUsage s; lastMessage := lastMessage s; conversationTitle :=
     conversationTitle s; assistantMode := assistantMode s; claudeModel :=
     claudeModel s; claudeEffort := claudeEffort s; codexModel := codexModel
     s; codexEffort := codexEffort s; abortController := v; isQueryRunning :=
     isQueryRunning s; stopRequested := stopRequested s; _isProcessing :=
     _isProcessing s; _wasInterruptedByNewMessage :=
     _wasInterruptedByNewMessage s |}.

Definition set_isQueryRunning (v : bool) (s : Session) : Session :=
  {| sessionId := sessionId s; lastActivity := lastActivity s; queryStarted :=
     queryStarted s; currentTool := currentTool s; lastTool := lastTool s;
     lastError := lastError s; lastErrorTime := lastErrorTime s; lastUsage :=
     lastUsage s; lastMessage := lastMessage s; conversationTitle :=
     conversationTitle s; assistantMode := assistantMode s; claudeModel :=
     claudeModel s; claudeEffort := claudeEffort s; codexModel := codexModel
     s; codexEffort := codexEffort s; abortController := abortController s;
     isQueryRunning := v; stopRequested := stopRequested s; _isProcessing :=
     _isProcessing s; _wasInterruptedByNewMessage :=
     _wasInterruptedByNewMessage s |}.

Definition set_stopRequested (v : bool) (s : Session) : Session :=
  {| sessionId := sessionId s; lastActivity := lastActivity s; queryStarted :=
     queryStarted s; currentTool := currentTool s; lastTool := lastTool s;
     lastError := lastError s; lastErrorTime := lastErrorTime s; lastUsage :=
     lastUsage s; lastMessage := lastMessage s; conversationTitle :=
     conversationTitle s; assistantMode := assistantMode s; claudeModel :=
     claudeModel s; claudeEffort := claudeEffort s; codexModel := codexModel
     s; codexEffort := codexEffort s; abortController := abortController s;
     isQueryRunning := isQueryRunning s; stopRequested := v; _isProcessing :=
     _isProcessing s; _wasInterruptedByNewMessage :=
     _wasInterruptedByNewMessage s |}.

Definition set_isProcessing (v : bool) (s : Session) : Session :=
  {| sessionId := sessionId s; lastActivity := lastActivity s; queryStarted :=
     queryStarted s; currentTool := currentTool s; lastTool := lastTool s;
     lastError := lastError s; lastErrorTime := lastErrorTime s; lastUsage :=
     lastUsage s; lastMessage := lastMessage s; conversationTitle :=
     conversationTitle s; assistantMode := assistantMode s; claudeModel :=
     claudeModel s; claudeEffort := claudeEffort s; codexModel := codexModel
     s; codexEffort := codexEffort s; abortController := abortController s;
     isQueryRunning := isQueryRunning s; stopRequested := stopRequested s;
     _isProcessing := v; _wasInterruptedByNewMessage :=
     _wasInterruptedByNewMessage s |}.

Definition set_wasInterruptedByNewMessage (v : bool) (s : Session) : Session :=
  {| sessionId := sessionId s; lastActivity := lastActivity s; queryStarted :=
     queryStarted s; currentTool := currentTool s; lastTool := lastTool s;
     lastError := lastError s; lastErrorTime := lastErrorTime s; lastUsage :=
     lastUsage s; lastMessage := lastMessage s; conversationTitle :=
     conversationTitle s; assistantMode := assistantMode s; claudeModel :=
     claudeModel s; claudeEffort := claudeEffort s; codexModel := codexModel
     s; codexEffort := codexEffort s; abortController := abortController s;
     isQueryRunning := isQueryRunning s; stopRequested := stopRequested s;
     _isProcessing := _isProcessing s; _wasInterruptedByNewMessage := v |}.

(** The persisted projection of a session ([SavedSession] in
    [src/types.ts]); a field the code tests before use is optional. *)
Record SavedSession := {
  session_id : string;
  saved_at : Date;
  working_dir : option string;
  title : string;
  assistant : option AssistantMode;
  model : option string;
  codex_reasoning_effort : option CodexReasoningEffort
}.

(** Truthiness of an optional string: absent and empty are both falsy. *)
Definition truthy_opt (o : option string) : bool :=
  match o with
  | Some s => Js.truthy s
  | None => false
  end.

Definition effort_name (e : CodexReasoningEffort) : string :=
  match e with
  | minimal => "minimal"
  | low => "low"
  | medium => "medium"
  | high => "high"
  | xhigh => "xhigh"
  end.

Definition assistant_name (a : AssistantMode) : string :=
  match a with
  | claude => "claude"
  | codex => "codex"
  end.

Definition all_efforts : list CodexReasoningEffort :=
  [ minimal; low; medium; high; xhigh ].

(* --------------------------------------------------------------------- *)
(** *** Model selection grammar                                           *)
(* --------------------------------------------------------------------- *)

(** The character class [[\s._-]]. *)
Definition is_token_sep (c : ascii) : bool :=
  Js.is_space c || Ascii.eqb c "." || Ascii.eqb c "_" || Ascii.eqb c "-".

(** [value.toLowerCase().replace(/[\s._-]+/g, "")] *)
Definition compactToken (value : string) : string :=
  Js.sfilter (fun c => negb (is_token_sep c)) (Js.toLowerCase value).

Definition isCodexAlias (base : string) : bool :=
  Js.eqs (compactToken base) "codex".

Definition isCodex53Alias (base : string) : bool :=
  let compact := compactToken base in
  Js.eqs compact "codex53" || Js.eqs compact "gpt53codex".

Definition parseEffortToken (token : string) : option CodexReasoningEffort :=
  let compact := compactToken token in
  List.find (fun e => Js.eqs compact (effort_name e)) all_efforts.

Definition parseClaudeAlias (selection : string) : option string :=
  let compact := compactToken selection in
  if Js.eqs compact "claude46opus" || Js.eqs compact "opus46"
  then Some "claude-opus-4-6"
  else if Js.eqs compact "claude45sonnet" || Js.eqs compact "sonnet45"
  then Some "claude-sonnet-4-5"
  else None.

(** The class [[\s_-]] of the separators before an effort word. *)
Definition is_effort_sep (c : ascii) : bool :=
  Js.is_space c || Ascii.eqb c "_" || Ascii.eqb c "-".

(** A line terminator, which [.] does not match. *)
Definition is_line_terminator (c : ascii) : bool :=
  Ascii.eqb c (ascii_of_N 10) || Ascii.eqb c (ascii_of_N 13).

(** One alternative of [/^(.*?)[\s_-]+(minimal|low|medium|high|xhigh)$/]:
    the string ends with [word], a non-empty run of separators comes
    right before it, and the lazy group is what precedes the whole run
    (the shortest prefix after which only separators and the word
    remain); the group may not contain a line terminator.  At most one
    of the five words can match a given string, since the only word
    that ends with another one, xhigh, has a letter before that ending. *)
Definition spaced_with (normalized word : string) : option (string * string) :=
  match Security.strip_prefix (Js.srev word) (Js.srev normalized) with
  | None => None
  | Some before =>
      let base := Js.drop_while is_effort_sep before in
      if Js.eqs base before then None
      else if Js.sall (fun c => negb (is_line_terminator c)) base
      then Some (Js.srev base, word)
      else None
  end.

Fixpoint first_some {A B} (f : A -> option B) (l : list A) : option B :=
  match l with
  | [] => None
  | x :: r => match f x with
              | Some y => Some y
              | None => first_some f r
              end
  end.

Definition spacedMatch (normalized : string) : option (string * string) :=
  first_some (fun e => spaced_with normalized (effort_name e)) all_efforts.

(** [/^(codex53|gpt53codex|codex)(minimal|low|medium|high|xhigh)$/] *)
Definition compactMatch (compact : string) : option (string * string) :=
  first_some
    (fun head =>
       first_some
         (fun e => if Js.eqs compact (head ++ effort_name e)
                   then Some (head, effort_name e) else None)
         all_efforts)
    [ "codex53"; "gpt53codex"; "codex" ].

Section SessionMachine.
Context (cfg : Config).

Definition parseCodexPreset (selection : string)
  : option (string * CodexReasoningEffort) :=
  let normalized := Js.trim (Js.toLowerCase selection) in
  let fromCompact :=
    let compact := compactToken selection in
    match compactMatch compact with
    | None => None
    | Some (head, word) =>
        match parseEffortToken word with
        | None => None
        | Some effort =>
            Some (if Js.eqs head "codex" then CODEX_MODEL cfg else "gpt-5.3-codex",
                  effort)
        end
    end in
  match spacedMatch normalized with
  | Some (group1, group2) =>
      let base := Js.trim group1 in
      match parseEffortToken group2 with
      | None => None
      | Some effort =>
          if isCodex53Alias base then Some ("gpt-5.3-codex", effort)
          else if isCodexAlias base then Some (CODEX_MODEL cfg, effort)
          else fromCompact
      end
  | None => fromCompact
  end.

(** [get model()] *)
Definition active_model (s : Session) : string :=
  match assistantMode s with
  | codex => codexModel s
  | claude => claudeModel s
  end.

(** [get isActive()] *)
Definition isActive (s : Session) : bool :=
  match sessionId s with Some _ => true | None => false end.

(** [get isRunning()] *)
Definition isRunning (s : Session) : bool :=
  isQueryRunning s || _isProcessing s.

(** [get modelDisplay()] *)
Definition modelDisplay (s : Session) : string :=
  match assistantMode s with
  | codex =>
      if Js.eqs (compactToken (codexModel s)) "gpt53codex"
      then "codex 5.3 " ++ effort_name (codexEffort s)
      else codexModel s ++ " (" ++ effort_name (codexEffort s) ++ ")"
  | claude =>
      if Js.eqs (compactToken (claudeModel s)) "claudeopus46" then "opus 4.6"
      else if Js.eqs (compactToken (claudeModel s)) "claudesonnet45" then "sonnet 4.5"
      else claudeModel s
  end.

Definition unchanged_message (s : Session) : string :=
  "Model unchanged: " ++ modelDisplay s ++ " ("
    ++ Js.toUpperCase (assistant_name (assistantMode s)) ++ ")".

Definition switched_message (s : Session) : string :=
  "Model switched to " ++ modelDisplay s ++ " ("
    ++ Js.toUpperCase (assistant_name (assistantMode s))
    ++ "). Started a fresh session.".

Definition usage_message : string :=
  "Usage: /model <opus 4.6|sonnet 4.5|codex 5.3 high|...>".

Definition claude_models_message : string :=
  "Claude models: 'opus 4.6' or 'sonnet 4.5'".

(** The [if / else if] chain of [setModel] that assigns the new
    assistant and model; [None] is the early [return [false, ...]] of
    the branch for other names that start with "claude". *)
Definition apply_selection (s : Session) (selection : string) : option Session :=
  let normalized := Js.toLowerCase selection in
  match parseCodexPreset selection with
  | Some (m, e) =>
      Some (set_codexEffort e (set_codexModel m (set_assistantMode codex s)))
  | None =>
      match parseClaudeAlias selection with
      | Some claudeAlias =>
          Some (set_claudeModel claudeAlias (set_assistantMode claude s))
      | None =>
          if Js.eqs normalized "claude" then
            Some (set_claudeModel (CLAUDE_MODEL cfg) (set_assistantMode claude s))
          else if Js.eqs normalized "codex" then
            Some (set_codexEffort (CODEX_REASONING_EFFORT cfg)
                    (set_codexModel (CODEX_MODEL cfg) (set_assistantMode codex s)))
          else if Js.startsWith normalized "claude" then None
          else Some (set_codexModel selection (set_assistantMode codex s))
      end
  end.

(** Reset active session so we don't attempt to resume with the wrong
    backend. *)
Definition reset_active (s : Session) : Session :=
  set_lastErrorTime None
    (set_lastError None
       (set_lastUsage None
          (set_lastTool None
             (set_currentTool None
                (set_queryStarted None
                   (set_lastActivity None (set_sessionId None s))))))).

Definition config_changed (before after : Session) : bool :=
  negb (bool_decide (assistantMode before = assistantMode after))
  || negb (Js.eqs (active_model before) (active_model after))
  || negb (bool_decide (codexEffort before = codexEffort after)).

Definition setModel (s : Session) (selectionRaw : string)
  : Session * (bool * string) :=
  let selection := Js.trim selectionRaw in
  if negb (Js.truthy selection) then (s, (false, usage_message))
  else
    match apply_selection s selection with
    | None => (s, (false, claude_models_message))
    | Some s1 =>
        if negb (config_changed s s1) then (s1, (true, unchanged_message s1))
        else
          let s2 := reset_active s1 in
          (s2, (true, switched_message s2))
    end.

(** [startProcessing()] and the cleanup function it returns. *)
Definition startProcessing (s : Session) : Session := set_isProcessing true s.
Definition stopProcessing (s : Session) : Session := set_isProcessing false s.

Inductive StopResult := stopped | pending | nothing_running.

(** [stop()]; the effect of [abortController.abort()] on the backend
    stream belongs to the environment. *)
Definition stop (s : Session) : Session * StopResult :=
  if isQueryRunning s && abortController s then (set_stopRequested true s, stopped)
  else if isQueryRunning s then (set_stopRequested true s, stopped)
  else if _isProcessing s then (set_stopRequested true s, pending)
  else (s, nothing_running).

Definition consumeInterruptFlag (s : Session) : Session * bool :=
  let was := _wasInterruptedByNewMessage s in
  let s1 := set_wasInterruptedByNewMessage false s in
  (if was then set_stopRequested false s1 else s1, was).

Definition markInterrupt (s : Session) : Session :=
  set_wasInterruptedByNewMessage true s.

Definition clearStopRequested (s : Session) : Session :=
  set_stopRequested false s.

(** [kill()] *)
Definition kill (s : Session) : Session :=
  set_conversationTitle None (set_lastActivity None (set_sessionId None s)).

(* ------------------------------------------------------------------- *)
(** *** Persistence: the session file holds a list of saved sessions     *)
(* ------------------------------------------------------------------- *)

Definition default_title : string := "Sessione senza titolo".

Definition newSession (now : Date) (s : Session) (id : string) : SavedSession :=
  {| session_id := id;
     saved_at := now;
     working_dir := Some (WORKING_DIR cfg);
     title := match conversationTitle s with
              | Some t => Js.or_else t default_title
              | None => default_title
              end;
     assistant := Some (assistantMode s);
     model := Some (active_model s);
     codex_reasoning_effort :=
       match assistantMode s with
       | codex => Some (codexEffort s)
       | claude => None
       end |}.

(** [saveSession()]: [history] is the content of the session file (an
    unreadable file reads as the empty list) and the result is what is
    written back.  Nothing is written without a session id. *)
Definition saveSession (now : Date) (s : Session) (history : list SavedSession)
  : list SavedSession :=
  match sessionId s with
  | None => history
  | Some id =>
      if negb (Js.truthy id) then history
      else
        let entry := newSession now s id in
        let sessions :=
          match findIndex (fun e => Js.eqs (session_id e) id) history with
          | Some existingIndex => <[existingIndex := entry]> history
          | None => entry :: history
          end in
        take MAX_SESSIONS sessions
  end.

(** [getSessionList()] *)
Definition getSessionList (history : list SavedSession) : list SavedSession :=
  filter (fun e => negb (truthy_opt (working_dir e))
                   || bool_decide (working_dir e = Some (WORKING_DIR cfg)))
         history.

Definition not_found_message : string := "Sessione non trovata".

Definition wrong_dir_message (dir : string) : string :=
  "Sessione per directory diversa: " ++ dir.

Definition resumed_message (t : string) : string :=
  "Ripresa sessione: " ++ Security.str1 Security.dquote ++ t
    ++ Security.str1 Security.dquote.

(** The assignments of a successful [resumeSession]. *)
Definition restore (now : Date) (s : Session) (sessionData : SavedSession) : Session :=
  let s1 := set_lastActivity (Some now)
              (set_conversationTitle (Some (title sessionData))
                 (set_sessionId (Some (session_id sessionData)) s)) in
  let s2 := match assistant sessionData with
            | Some a => set_assistantMode a s1
            | None => s1
            end in
  match model sessionData with
  | Some m =>
      if Js.truthy m then
        match assistantMode s2 with
        | codex =>
            let s3 := set_codexModel m s2 in
            match codex_reasoning_effort sessionData with
            | Some e => set_codexEffort e s3
            | None => s3
            end
        | claude => set_claudeModel m s2
        end
      else s2
  | None => s2
  end.

Definition resumeSession (now : Date) (s : Session) (history : list SavedSession)
           (id : string) : Session * (bool * string) :=
  match List.find (fun e => Js.eqs (session_id e) id) history with
  | None => (s, (false, not_found_message))
  | Some sessionData =>
      match working_dir sessionData with
      | Some dir =>
          if Js.truthy dir && negb (Js.eqs dir (WORKING_DIR cfg))
          then (s, (false, wrong_dir_message dir))
          else (restore now s sessionData, (true, resumed_message (title sessionData)))
      | None =>
          (restore now s sessionData, (true, resumed_message (title sessionData)))
      end
  end.

(** [resumeLast()]: the most recent saved session of this working
    directory. *)
Definition resumeLast (now : Date) (s : Session) (history : list SavedSession)
  : Session * (bool * string) :=
  match getSessionList history with
  | [] => (s, (false, "Nessuna sessione salvata"))
  | first :: _ => resumeSession now s history (session_id first)
  end.

End SessionMachine.

(** The session object as the constructor leaves it. *)
Definition initial_session (cfg : Config) : Session :=
  {| sessionId := None; lastActivity := None; queryStarted := None;
     currentTool := None; lastTool := None; lastError := None;
     lastErrorTime := None; lastUsage := None; lastMessage := None;
     conversationTitle := None; assistantMode := AI_ASSISTANT cfg;
     claudeModel := CLAUDE_MODEL cfg;
     claudeEffort := CLAUDE_REASONING_EFFORT cfg;
     codexModel := CODEX_MODEL cfg;
     codexEffort := CODEX_REASONING_EFFORT cfg;
     abortController := false; isQueryRunning := false;
     stopRequested := false; _isProcessing := false;
     _wasInterruptedByNewMessage := false |}.

(* ===================================================================== *)
(** ** The status-callback contract and the streaming normalizer          *)
(* ===================================================================== *)

(** One call [statusCallback(type, content, segmentId)].  The callback
    built by the handlers catches its own failures, so a call only
    records the event. *)
Inductive StatusEvent :=
| st_thinking (content : string)
| st_tool (content : string)
| st_text (content : string) (segmentId : nat)
| st_segment_end (content : string) (segmentId : nat)
| st_done.

#[global] Instance StatusEvent_eq_dec : EqDecision StatusEvent.
Proof. solve_decision. Defined.

Definition is_done (e : StatusEvent) : bool :=
  match e with st_done => true | _ => false end.

Definition is_text (e : StatusEvent) : bool :=
  match e with st_text _ _ => true | _ => false end.

(** The response-tracking locals shared by both turn runners. *)
Record Streaming := {
  responseParts : list string;
  currentSegmentId : nat;
  currentSegmentText : string;
  lastTextUpdate : Z;
  textCallbackCount : nat;
  lastEmittedTextLength : Z
}.

Definition streaming_start : Streaming :=
  {| responseParts := []; currentSegmentId := 0; currentSegmentText := "";
     lastTextUpdate := 0; textCallbackCount := 0; lastEmittedTextLength := 0 |}.

(** [parts.join("")] *)
Definition join (parts : list string) : string :=
  fold_right String.append "" parts.

(** The loop of [emitProgressiveTail], from the current value of [end]. *)
Equations? tail_loop (step : Z) (Hstep : 0 < step) (fullText : string)
  (segmentId : nat) (end_ : Z) : list StatusEvent
  by wf (Z.to_nat (Js.len fullText - end_)) lt :=
  tail_loop step Hstep fullText segmentId end_ with Z_lt_dec end_ (Js.len fullText) => {
    | left _ =>
        st_text (Js.slice0 fullText end_) segmentId
          :: tail_loop step Hstep fullText segmentId (end_ + step);
    | right _ => []
  }.
Proof. lia. Qed.

Section Normalizer.
Context (cfg : Config).

(** The handling of one piece of text: accumulate it, then either send
    the short first preview of a large snapshot, or send the whole
    segment when this is the first update or the throttle interval has
    elapsed.  [now] is what [Date.now()] reads. *)
Definition on_text (now : Z) (t : string) (st : Streaming)
  : Streaming * list StatusEvent :=
  let parts := (responseParts st ++ [t])%list in
  let segText := (currentSegmentText st ++ t)%string in
  if (textCallbackCount st =? 0)%nat
     && (STREAMING_SYNTHETIC_FALLBACK_MIN_CHARS cfg <=? Js.len segText)
  then
    let firstPreviewLen :=
      Z.max 1 (Z.min (STREAMING_SYNTHETIC_STEP_CHARS cfg) (Js.len segText - 1)) in
    ({| responseParts := parts;
        currentSegmentId := currentSegmentId st;
        currentSegmentText := segText;
        lastTextUpdate := now;
        textCallbackCount := S (textCallbackCount st);
        lastEmittedTextLength := firstPreviewLen |},
     [st_text (Js.slice0 segText firstPreviewLen) (currentSegmentId st)])
  else
    let shouldEmitText :=
      (textCallbackCount st =? 0)%nat
      || (STREAMING_THROTTLE_MS cfg <=? now - lastTextUpdate st) in
    if shouldEmitText then
      ({| responseParts := parts;
          currentSegmentId := currentSegmentId st;
          currentSegmentText := segText;
          lastTextUpdate := now;
          textCallbackCount := S (textCallbackCount st);
          lastEmittedTextLength := Js.len segText |},
       [st_text segText (currentSegmentId st)])
    else
      ({| responseParts := parts;
          currentSegmentId := currentSegmentId st;
          currentSegmentText := segText;
          lastTextUpdate := lastTextUpdate st;
          textCallbackCount := textCallbackCount st;
          lastEmittedTextLength := lastEmittedTextLength st |},
       []).

(** Segment ends when tool starts. *)
Definition close_segment (st : Streaming) : Streaming * list StatusEvent :=
  if Js.truthy (currentSegmentText st) then
    ({| responseParts := responseParts st;
        currentSegmentId := S (currentSegmentId st);
        currentSegmentText := "";
        lastTextUpdate := lastTextUpdate st;
        textCallbackCount := textCallbackCount st;
        lastEmittedTextLength := lastEmittedTextLength st |},
     [st_segment_end (currentSegmentText st) (currentSegmentId st)])
  else (st, []).

(** [emitProgressiveTail]; the counters it updates are not read again
    once it has run, so only its events are kept. *)
Definition emitProgressiveTail (st : Streaming) (fullText : string)
           (segmentId : nat) : list StatusEvent :=
  if (Js.len fullText <? STREAMING_SYNTHETIC_FALLBACK_MIN_CHARS cfg) then []
  else
    match Z_lt_dec 0 (STREAMING_SYNTHETIC_STEP_CHARS cfg) with
    | right _ => []
    | left Hstep =>
        let start := Z.max (lastEmittedTextLength st + STREAMING_SYNTHETIC_STEP_CHARS cfg)
                           (STREAMING_SYNTHETIC_STEP_CHARS cfg) in
        tail_loop (STREAMING_SYNTHETIC_STEP_CHARS cfg) Hstep fullText segmentId start
    end.

(** Emit final segment. *)
Definition final_segment (st : Streaming) : list StatusEvent :=
  if Js.truthy (currentSegmentText st) then
    (emitProgressiveTail st (currentSegmentText st) (currentSegmentId st)
       ++ [st_segment_end (currentSegmentText st) (currentSegmentId st)])%list
  else [].

End Normalizer.

(* ===================================================================== *)
(** ** Backend events and the environment of a turn                       *)
(* ===================================================================== *)

(** The input of a tool call, with the two fields the runner reads,
    already coerced as [String(x || "")] does. *)
Record ToolInput := {
  command : string;
  file_path : string
}.

(** A content block of an assistant message of backend A.  What the
    world answers while a block is handled travels with the block: the
    successive answers of [checkPendingAskUserRequests] for a tool call,
    the reading of [Date.now()] for a text block. *)
Inductive ContentBlock :=
| thinking_block (thinking : string)
| tool_use_block (name : string) (input : ToolInput) (pendingAnswers : list bool)
| text_block (text : string) (clock : Z)
| other_block.

(** An [SDKMessage] of backend A, by [type]. *)
Inductive SDKMessage :=
| assistant_message (event_session_id : option string) (content : list ContentBlock)
| result_message (event_session_id : option string) (usage : option TokenUsage)
| other_message (event_session_id : option string).

Inductive CodexItemType :=
| reasoning
| command_execution
| agent_message
| other_item_type.

Record CodexItem := {
  item_type : CodexItemType;
  item_text : string;
  item_command : string
}.

(** A thread event of backend B, by [type]; [thread_id] is the value of
    [thread.id] when the completion is handled, [clock] the reading of
    [Date.now()]. *)
Inductive CodexEvent :=
| cx_error (message : string)
| cx_turn_failed (error_message : string)
| cx_item_completed (item : option CodexItem) (clock : Z)
| cx_turn_completed (thread_id : option string)
| cx_other.

(** What one step of [for await] obtains from the backend: an event, or
    an exception raised by the stream itself; an exception is written as
    [String(error)] renders it. *)
Inductive Pull (E : Type) :=
| yields (event : E)
| throws (error : string).
Arguments yields {E} event.
Arguments throws {E} error.

(** The stream a turn consumes.  The flag of an item tells whether a
    [stop()] call reached the session while the runner was waiting for
    that item: stop requests are seen once per backend event.  The
    other awaited calls of the loop do not throw: the status callback
    and [saveSession] catch their own failures, and so does the scan of
    [checkPendingAskUserRequests] for each request file. *)
Definition Stream (E : Type) := list (bool * Pull E).

(** [formatToolStatus] of [src/formatting.ts] only produces the label of
    a tool event; it is left abstract. *)
Record External := {
  formatToolStatus : string -> ToolInput -> string
}.

Inductive Flow :=
| go_on
| break_loop
| throw (error : string).

Inductive Outcome :=
| Returned (finalText : string)
| Raised (error : string).

(** [new Error(m)] as [String(error)] renders it. *)
Definition Error (m : string) : string := "Error: " ++ m.

(** The session object together with the content of the session file. *)
Record World := {
  session : Session;
  history : list SavedSession
}.

Definition with_session (w : World) (s : Session) : World :=
  {| session := s; history := history w |}.

Definition isCleanupError (error : string) : bool :=
  let errorStr := Js.toLowerCase error in
  Js.includes errorStr "cancel" || Js.includes errorStr "abort".

(** The retry loop around [checkPendingAskUserRequests]. *)
Fixpoint poll_ask_user (attempts : nat) (answers : list bool) : bool :=
  match attempts, answers with
  | S n, buttonsSent :: rest => if buttonsSent then true else poll_ask_user n rest
  | _, _ => false
  end.

Section TurnRunner.
Context (cfg : Config) (fs : PathLib) (ext : External).
(** [now] stands for the readings of [new Date()] during the turn and
    [interactive] for [ctx && chatId]. *)
Context (now : Date) (interactive : bool).

Definition save (w : World) : World :=
  {| session := session w;
     history := saveSession cfg now (session w) (history w) |}.

(** The start of both runners up to the check of a stop requested
    during the processing phase: [inl] is the session that enters the
    [try] block, [inr] the session left behind by
    [throw new Error("Query cancelled")]. *)
Definition begin_turn (controller : bool) (s : Session) : Session + Session :=
  let isNewSession := negb (isActive s) in
  let s1 := if truthy_opt (sessionId s) && negb isNewSession then s
            else set_sessionId None s in
  if stopRequested s1 then inr (set_stopRequested false s1)
  else inl (set_currentTool None
              (set_queryStarted (Some now)
                 (set_stopRequested false
                    (set_isQueryRunning true
                       (set_abortController controller s1))))).

(** The [finally] block. *)
Definition finally (s : Session) : Session :=
  set_currentTool None
    (set_queryStarted None
       (set_abortController false (set_isQueryRunning false s))).

(** The assignments after a [try] statement that did not rethrow. *)
Definition after_try (s : Session) : Session :=
  set_lastErrorTime None (set_lastError None (set_lastActivity (Some now) s)).

Definition record_error (error : string) (s : Session) : Session :=
  set_lastErrorTime (Some now) (set_lastError (Some (Js.slice0 error 100)) s).

(** The arrival of a [stop()] call while the runner waits. *)
Definition deliver_stop (stopCall : bool) (w : World) : World :=
  if stopCall then with_session w (fst (stop (session w))) else w.

(* ------------------------------------------------------------------- *)
(** *** Backend A ([sendMessageStreaming])                               *)
(* ------------------------------------------------------------------- *)

Record ClaudeLocals := {
  c_stream : Streaming;
  queryCompleted : bool;
  askUserTriggered : bool
}.

Definition claude_start : ClaudeLocals :=
  {| c_stream := streaming_start; queryCompleted := false;
     askUserTriggered := false |}.

(** Safety check for Bash commands: the block reason, if any. *)
Definition bash_blocked (toolName : string) (toolInput : ToolInput) : option string :=
  if Js.eqs toolName "Bash" then
    let '(isSafe, reason) := Security.checkCommandSafety cfg fs (command toolInput) in
    if negb isSafe then Some reason else None
  else None.

(** Safety check for file operations: the refused path, if any. *)
Definition file_blocked (toolName : string) (toolInput : ToolInput) : option string :=
  if existsb (Js.eqs toolName) [ "Read"; "Write"; "Edit" ] then
    let filePath := file_path toolInput in
    if Js.truthy filePath then
      let isTmpRead :=
        Js.eqs toolName "Read"
        && (existsb (fun p => Js.startsWith filePath p) (TEMP_PATHS cfg)
            || Js.includes filePath "/.claude/") in
      if negb isTmpRead && negb (Security.isPathAllowed cfg fs filePath)
      then Some filePath else None
    else None
  else None.

(** The body of [for (const block of event.message.content)]; the
    third component is the exception thrown, if any. *)
Definition claude_block (b : ContentBlock) (w : World) (l : ClaudeLocals)
  : World * ClaudeLocals * list StatusEvent * option string :=
  match b with
  | thinking_block thinkingText =>
      (w, l, if Js.truthy thinkingText then [st_thinking thinkingText] else [], None)
  | tool_use_block toolName toolInput answers =>
      match bash_blocked toolName toolInput with
      | Some reason =>
          (w, l, [st_tool ("BLOCKED: " ++ reason)],
           Some (Error ("Unsafe command blocked: " ++ reason)))
      | None =>
          match file_blocked toolName toolInput with
          | Some filePath =>
              (w, l, [st_tool ("Access denied: " ++ filePath)],
               Some (Error ("File access blocked: " ++ filePath)))
          | None =>
              let '(st1, closing) := close_segment (c_stream l) in
              let toolDisplay := formatToolStatus ext toolName toolInput in
              let w1 := with_session w
                          (set_lastTool (Some toolDisplay)
                             (set_currentTool (Some toolDisplay) (session w))) in
              let isAskUser := Js.startsWith toolName "mcp__ask-user" in
              let shown := if negb isAskUser then [st_tool toolDisplay] else [] in
              let found := if isAskUser && interactive
                           then poll_ask_user 3 answers else false in
              (w1,
               {| c_stream := st1; queryCompleted := queryCompleted l;
                  askUserTriggered := askUserTriggered l || found |},
               (closing ++ shown)%list, None)
          end
      end
  | text_block t clock =>
      let '(st1, evs) := on_text cfg clock t (c_stream l) in
      (w,
       {| c_stream := st1; queryCompleted := queryCompleted l;
          askUserTriggered := askUserTriggered l |},
       evs, None)
  | other_block => (w, l, [], None)
  end.

Fixpoint claude_blocks (bs : list ContentBlock) (w : World) (l : ClaudeLocals)
  : World * ClaudeLocals * list StatusEvent * option string :=
  match bs with
  | [] => (w, l, [], None)
  | b :: rest =>
      match claude_block b w l with
      | (w1, l1, evs, Some error) => (w1, l1, evs, Some error)
      | (w1, l1, evs, None) =>
          let '(w2, l2, evs2, r) := claude_blocks rest w1 l1 in
          (w2, l2, (evs ++ evs2)%list, r)
      end
  end.

Definition event_session_id_of (event : SDKMessage) : option string :=
  match event with
  | assistant_message i _ => i
  | result_message i _ => i
  | other_message i => i
  end.

(** Capture session_id from first message. *)
Definition capture_session_id (event : SDKMessage) (w : World) : World :=
  if negb (truthy_opt (sessionId (session w)))
     && truthy_opt (event_session_id_of event)
  then save (with_session w (set_sessionId (event_session_id_of event) (session w)))
  else w.

(** The body of [for await (const event of queryInstance)]. *)
Definition claude_event (event : SDKMessage) (w : World) (l : ClaudeLocals)
  : World * ClaudeLocals * list StatusEvent * Flow :=
  if stopRequested (session w) then (w, l, [], break_loop)
  else
    let w1 := capture_session_id event w in
    match event with
    | assistant_message _ content =>
        match claude_blocks content w1 l with
        | (w2, l2, evs, Some error) => (w2, l2, evs, throw error)
        | (w2, l2, evs, None) =>
            (w2, l2, evs, if askUserTriggered l2 then break_loop else go_on)
        end
    | result_message _ usage =>
        let s2 := match usage with
                  | Some u => set_lastUsage (Some u) (session w1)
                  | None => session w1
                  end in
        (with_session w1 s2,
         {| c_stream := c_stream l; queryCompleted := true;
            askUserTriggered := askUserTriggered l |},
         [], go_on)
    | other_message _ => (w1, l, [], go_on)
    end.

(** The [try] block of backend A: the loop over the stream, with the
    exception that left it, if any. *)
Fixpoint claude_loop (stream : Stream SDKMessage) (w : World) (l : ClaudeLocals)
  : World * ClaudeLocals * list StatusEvent * option string :=
  match stream with
  | [] => (w, l, [], None)
  | (stopCall, pull) :: rest =>
      let w0 := deliver_stop stopCall w in
      match pull with
      | throws error => (w0, l, [], Some error)
      | yields event =>
          match claude_event event w0 l with
          | (w1, l1, evs, go_on) =>
              let '(w2, l2, evs2, r) := claude_loop rest w1 l1 in
              (w2, l2, (evs ++ evs2)%list, r)
          | (w1, l1, evs, break_loop) => (w1, l1, evs, None)
          | (w1, l1, evs, throw error) => (w1, l1, evs, Some error)
          end
      end
  end.

(** The [catch] block of backend A: the session, and the exception
    that is thrown again, if any. *)
Definition claude_catch (l : ClaudeLocals) (s : Session) (error : string)
  : Session * option string :=
  if isCleanupError error
     && (queryCompleted l || askUserTriggered l || stopRequested s)
  then (s, None)
  else (record_error error s, Some error).

Definition waiting_text : string := "[Waiting for user selection]".

(** The Claude branch of [sendMessageStreaming]. *)
Definition sendMessageStreamingClaude (w : World) (stream : Stream SDKMessage)
  : World * list StatusEvent * Outcome :=
  match begin_turn true (session w) with
  | inr s => (with_session w s, [], Raised (Error "Query cancelled"))
  | inl s =>
      let '(w1, l, evs, exn) := claude_loop stream (with_session w s) claude_start in
      let '(s2, rethrown) :=
        match exn with
        | Some error => claude_catch l (session w1) error
        | None => (session w1, None)
        end in
      let s3 := finally s2 in
      match rethrown with
      | Some error => (with_session w1 s3, evs, Raised error)
      | None =>
          let w4 := with_session w1 (after_try s3) in
          if askUserTriggered l then
            (w4, (evs ++ [st_done])%list, Returned waiting_text)
          else
            (w4, (evs ++ final_segment cfg (c_stream l) ++ [st_done])%list,
             Returned (Js.or_else (join (responseParts (c_stream l)))
                                  "No response from Claude."))
      end
  end.

(* ------------------------------------------------------------------- *)
(** *** Backend B ([sendMessageStreamingCodex])                          *)
(* ------------------------------------------------------------------- *)

(** The body of [for await (const event of result.events)]. *)
Definition codex_event (event : CodexEvent) (w : World) (st : Streaming)
  : World * Streaming * list StatusEvent * Flow :=
  if stopRequested (session w) then (w, st, [], break_loop)
  else
    match event with
    | cx_error message =>
        (w, st, [], throw (Error (Js.or_else message "Unknown Codex stream error")))
    | cx_turn_failed message =>
        (w, st, [], throw (Error (Js.or_else message "Codex turn failed")))
    | cx_item_completed None _ => (w, st, [], go_on)
    | cx_item_completed (Some item) clock =>
        match item_type item with
        | reasoning =>
            (w, st, if Js.truthy (item_text item) then [st_thinking (item_text item)] else [],
             go_on)
        | command_execution =>
            let command := item_command item in
            let '(isSafe, reason) := Security.checkCommandSafety cfg fs command in
            if negb isSafe then
              (w, st, [st_tool ("BLOCKED: " ++ reason)],
               throw (Error ("Unsafe command blocked: " ++ reason)))
            else
              let '(st1, closing) := close_segment st in
              let toolDisplay :=
                formatToolStatus ext "Bash" {| command := command; file_path := "" |} in
              (with_session w
                 (set_lastTool (Some toolDisplay)
                    (set_currentTool (Some toolDisplay) (session w))),
               st1, (closing ++ [st_tool toolDisplay])%list, go_on)
        | agent_message =>
            if Js.truthy (item_text item) then
              let '(st1, evs) := on_text cfg clock (item_text item) st in
              (w, st1, evs, go_on)
            else (w, st, [], go_on)
        | other_item_type => (w, st, [], go_on)
        end
    | cx_turn_completed thread_id =>
        ((if truthy_opt thread_id
          then save (with_session w (set_sessionId thread_id (session w)))
          else w),
         st, [], break_loop)
    | cx_other => (w, st, [], go_on)
    end.

Fixpoint codex_loop (stream : Stream CodexEvent) (w : World) (st : Streaming)
  : World * Streaming * list StatusEvent * option string :=
  match stream with
  | [] => (w, st, [], None)
  | (stopCall, pull) :: rest =>
      let w0 := deliver_stop stopCall w in
      match pull with
      | throws error => (w0, st, [], Some error)
      | yields event =>
          match codex_event event w0 st with
          | (w1, st1, evs, go_on) =>
              let '(w2, st2, evs2, r) := codex_loop rest w1 st1 in
              (w2, st2, (evs ++ evs2)%list, r)
          | (w1, st1, evs, break_loop) => (w1, st1, evs, None)
          | (w1, st1, evs, throw error) => (w1, st1, evs, Some error)
          end
      end
  end.

(** The [catch] block of backend B. *)
Definition codex_catch (s : Session) (error : string) : Session * option string :=
  if isCleanupError error && stopRequested s then (s, None)
  else (record_error error s, Some error).

(** Opening the thread: a session id that cannot be resumed is dropped
    and a new thread is started instead.  [resumable] tells whether
    [codex.resumeThread] succeeds. *)
Definition open_thread (resumable : bool) (s : Session) : Session :=
  if truthy_opt (sessionId s) && negb resumable then set_sessionId None s else s.

Definition sendMessageStreamingCodex (resumable : bool) (w : World)
           (stream : Stream CodexEvent) : World * list StatusEvent * Outcome :=
  match begin_turn false (session w) with
  | inr s => (with_session w s, [], Raised (Error "Query cancelled"))
  | inl s =>
      let '(w1, st, evs, exn) :=
        codex_loop stream (with_session w (open_thread resumable s)) streaming_start in
      let '(s2, rethrown) :=
        match exn with
        | Some error => codex_catch (session w1) error
        | None => (session w1, None)
        end in
      let s3 := finally s2 in
      match rethrown with
      | Some error => (with_session w1 s3, evs, Raised error)
      | None =>
          (with_session w1 (after_try s3),
           (evs ++ final_segment cfg st ++ [st_done])%list,
           Returned (Js.or_else (join (responseParts st)) "No response from Codex."))
      end
  end.

(** [sendMessageStreaming]: dispatch on the assistant of the session.
    [streamA] is what backend A would send for this turn, [streamB]
    (with [resumable]) what backend B would; only the stream of the
    active assistant is consumed. *)
Definition sendMessageStreaming (w : World) (streamA : Stream SDKMessage)
           (resumable : bool) (streamB : Stream CodexEvent)
  : World * list StatusEvent * Outcome :=
  match assistantMode (session w) with
  | codex => sendMessageStreamingCodex resumable w streamB
  | claude => sendMessageStreamingClaude w streamA
  end.

End TurnRunner.

(* ===================================================================== *)
(** ** Vocabulary of the properties                                       *)
(* ===================================================================== *)


(** The bound and the uniqueness of ids of the saved history. *)
Definition history_ok (h : list SavedSession) : Prop :=
  (length h <= MAX_SESSIONS)%nat /\ NoDup (map session_id h).

(** A sequence of [saveSession] calls, each with its own instant and its
    own state of the session object. *)
Definition persist_all (cfg : Config) (calls : list (Date * Session))
           (h : list SavedSession) : list SavedSession :=
  fold_left (fun acc call => saveSession cfg (fst call) (snd call) acc) calls h.

(** Whether a saved entry belongs to another working directory. *)
Definition other_scope (cfg : Config) (e : SavedSession) : Prop :=
  exists dir, working_dir e = Some dir /\ dir <> "" /\ dir <> WORKING_DIR cfg.

Definition no_done (evs : list StatusEvent) : Prop :=
  Forall (fun e => e <> st_done) evs.

(** A [text] event of a given segment. *)
Definition text_of (segmentId : nat) (e : StatusEvent) : Prop :=
  exists content, e = st_text content segmentId.

(** Every [segment_end] event of a run carries the text [t], for
    segment 0. *)
Definition only_segment_end (t : string) (evs : list StatusEvent) : Prop :=
  forall content segmentId,
    In (st_segment_end content segmentId) evs -> content = t /\ segmentId = 0%nat.

(** The components of what a turn leaves: the world, the events sent to
    the status callback in order, and how the call ended. *)
Definition world_of (r : World * list StatusEvent * Outcome) : World := fst (fst r).
Definition events_of (r : World * list StatusEvent * Outcome) : list StatusEvent :=
  snd (fst r).
Definition outcome_of (r : World * list StatusEvent * Outcome) : Outcome := snd r.

(** A backend-A turn that sends one text block and then its result. *)
Definition single_block_A (sid : option string) (t : string) (clock : Z)
           (usage : option TokenUsage) : Stream SDKMessage :=
  [ (false, yields (assistant_message sid [ text_block t clock ]));
    (false, yields (result_message sid usage)) ].

(** A backend-B turn that completes one agent message and then the turn. *)
Definition single_block_B (t : string) (clock : Z) (thread_id : option string)
  : Stream CodexEvent :=
  [ (false, yields (cx_item_completed
                      (Some {| item_type := agent_message; item_text := t;
                               item_command := "" |}) clock));
    (false, yields (cx_turn_completed thread_id)) ].

(** The items of a stream prefix are all handled without leaving the
    loop of backend B: the world, the locals and the events they leave. *)
Inductive codex_runs_through (cfg : Config) (fs : PathLib) (ext : External) (now : Date)
  : Stream CodexEvent -> World -> Streaming -> World -> Streaming
    -> list StatusEvent -> Prop :=
| codex_through_nil w st :
    codex_runs_through cfg fs ext now [] w st w st []
| codex_through_cons stopCall event rest w st w1 st1 evs1 w2 st2 evs2 :
    codex_event cfg fs ext now event (deliver_stop stopCall w) st = (w1, st1, evs1, go_on) ->
    codex_runs_through cfg fs ext now rest w1 st1 w2 st2 evs2 ->
    codex_runs_through cfg fs ext now ((stopCall, yields event) :: rest) w st
                       w2 st2 (evs1 ++ evs2)%list.

(** The same for the loop of backend A. *)
Inductive claude_runs_through (cfg : Config) (fs : PathLib) (ext : External) (now : Date)
          (interactive : bool)
  : Stream SDKMessage -> World -> ClaudeLocals -> World -> ClaudeLocals
    -> list StatusEvent -> Prop :=
| claude_through_nil w l :
    claude_runs_through cfg fs ext now interactive [] w l w l []
| claude_through_cons stopCall event rest w l w1 l1 evs1 w2 l2 evs2 :
    claude_event cfg fs ext now interactive event (deliver_stop stopCall w) l
    = (w1, l1, evs1, go_on) ->
    claude_runs_through cfg fs ext now interactive rest w1 l1 w2 l2 evs2 ->
    claude_runs_through cfg fs ext now interactive ((stopCall, yields event) :: rest) w l
                        w2 l2 (evs1 ++ evs2)%list.

Definition sample_ext : External :=
  {| formatToolStatus := fun toolName toolInput => toolName ++ ": " ++ command toolInput |}.

Definition sample_world : World :=
  {| session := initial_session sample_cfg; history := [] |}.

Definition sample_codex_world : World :=
  {| session := set_assistantMode codex (initial_session sample_cfg); history := [] |}.

(** A session whose message has been accepted and whose turn has not
    started yet. *)
Definition processing_session : Session := startProcessing (initial_session sample_cfg).

(** An assistant message with two tool calls: the ask-user tool, whose
    pending request is found at the first poll, and a shell command. *)
Definition ask_then_rm : Stream SDKMessage :=
  [ (false,
     yields (assistant_message (Some "sid-1")
               [ tool_use_block "mcp__ask-user__ask_user"
                   {| command := ""; file_path := "" |} [ true ];
                 tool_use_block "Bash"
                   {| command := "rm /etc/abort.log"; file_path := "" |} [] ])) ].

Definition failed_turn : Stream CodexEvent :=
  [ (false, yields (cx_turn_failed "model overloaded")) ].

Definition four_entries : list SavedSession :=
  map (fun id => {| session_id := id; saved_at := 0; working_dir := Some "/home/bot";
                    title := "t"; assistant := Some claude;
                    model := Some "claude-opus-4-6";
                    codex_reasoning_effort := None |})
      [ "a"; "b"; "c"; "d" ].

Definition with_id (id : string) (s : Session) : Session :=
  set_sessionId (Some id) s.

(** What a turn has no reason to touch: the configuration of the
    session, its title and last message, and the flags the handlers
    own. *)
Definition settings_of (s : Session) :=
  (assistantMode s, claudeModel s, claudeEffort s, codexModel s, codexEffort s,
   conversationTitle s, lastMessage s, _isProcessing s, _wasInterruptedByNewMessage s).

(** The contents of the [segment_end] events of a run, in order. *)
Fixpoint segment_contents (evs : list StatusEvent) : list string :=
  match evs with
  | [] => []
  | st_segment_end content _ :: rest => content :: segment_contents rest
  | _ :: rest => segment_contents rest
  end.

(** The content of the next [segment_end] event, if there is one. *)
Fixpoint closing_text (evs : list StatusEvent) : option string :=
  match evs with
  | [] => None
  | st_segment_end content _ :: _ => Some content
  | _ :: rest => closing_text rest
  end.

(** The discipline of segments a display relies on, for a run whose
    open segment is [open]: every [text] and [segment_end] event carries
    the id of the open segment, a [segment_end] has a non-empty content
    and opens the next id, and a [text] event shows a prefix of what the
    [segment_end] of its segment will carry, when there is one. *)
Fixpoint segments_ok (open : nat) (evs : list StatusEvent) : bool :=
  match evs with
  | [] => true
  | st_text content segmentId :: rest =>
      (segmentId =? open)%nat
      && match closing_text rest with
         | Some full => Js.startsWith full content
         | None => true
         end
      && segments_ok open rest
  | st_segment_end content segmentId :: rest =>
      (segmentId =? open)%nat && Js.truthy content && segments_ok (S open) rest
  | _ :: rest => segments_ok open rest
  end.

(** The events a normalizer can send from the state (open segment id,
    text of the open segment) to another such state: the text may grow
    silently, a [text] event shows a prefix of it, a [segment_end]
    closes a non-empty text and opens the next segment. *)
Inductive seg_trace : nat -> string -> list StatusEvent -> nat -> string -> Prop :=
| tr_nil n t : seg_trace n t [] n t
| tr_grow n t d evs n' t' :
    seg_trace n (t ++ d) evs n' t' -> seg_trace n t evs n' t'
| tr_text n t content evs n' t' :
    Js.startsWith t content = true ->
    seg_trace n t evs n' t' -> seg_trace n t (st_text content n :: evs) n' t'
| tr_end n t evs n' t' :
    Js.truthy t = true ->
    seg_trace (S n) "" evs n' t' -> seg_trace n t (st_segment_end t n :: evs) n' t'
| tr_thinking n t content evs n' t' :
    seg_trace n t evs n' t' -> seg_trace n t (st_thinking content :: evs) n' t'
| tr_tool n t content evs n' t' :
    seg_trace n t evs n' t' -> seg_trace n t (st_tool content :: evs) n' t'
| tr_done n t evs n' t' :
    seg_trace n t evs n' t' -> seg_trace n t (st_done :: evs) n' t'.


(** The loop of the active backend handles every item of its stream
    without leaving: the turn starts, and each event is handled and
    asks for the next one. *)
Definition turn_runs_through (cfg : Config) (fs : PathLib) (ext : External)
           (now : Date) (interactive : bool) (w : World)
           (streamA : Stream SDKMessage) (resumable : bool)
           (streamB : Stream CodexEvent) : Prop :=
  match assistantMode (session w) with
  | claude =>
      exists s w1 l1 evs1,
        begin_turn now true (session w) = inl s
        /\ claude_runs_through cfg fs ext now interactive streamA
             (with_session w s) claude_start w1 l1 evs1
  | codex =>
      exists s w1 st1 evs1,
        begin_turn now false (session w) = inl s
        /\ codex_runs_through cfg fs ext now streamB
             (with_session w (open_thread resumable s)) streaming_start w1 st1 evs1
  end.

(** The account of the collected text: what [responseParts] holds is
    the closed segments, [closed], followed by the open segment. *)
Definition text_account (st : Streaming) (closed : string) : Prop :=
  join (responseParts st) = String.append closed (currentSegmentText st).

(** One or more steps of the normalizer, from the tracking state [st]
    to [st1]: the events form a trace between the two states, and the
    account of the collected text is carried along. *)
Definition normalizer_steps (st : Streaming) (evs : list StatusEvent) (st1 : Streaming)
  : Prop :=
  seg_trace (currentSegmentId st) (currentSegmentText st) evs
            (currentSegmentId st1) (currentSegmentText st1)
  /\ forall closed,
       text_account st closed ->
       text_account st1 (String.append closed (join (segment_contents evs))).

(** The world a stop call leaves when it reaches a running session. *)
Definition stop_seen (w : World) : World :=
  with_session w (set_stopRequested true (session w)).

(** The id of the session and the content of the session file are the
    same in both worlds. *)
Definition same_identity (w w1 : World) : Prop :=
  sessionId (session w1) = sessionId (session w) /\ history w1 = history w.

(* ===================================================================== *)
(** ** The allowed directories ([src/config.ts])                          *)
(* ===================================================================== *)

(** [s.split(",")]; [cur] is the piece read so far. *)
Fixpoint split_comma (cur s : string) : list string :=
  match s with
  | EmptyString => [cur]
  | String c r =>
      if Ascii.eqb c ","
      then cur :: split_comma "" r
      else split_comma (cur ++ Security.str1 c) r
  end.

(** [Array.from(new Set(paths))]: the first occurrence of each path, in
    order; [seen] is the content of the set so far. *)
Fixpoint dedupe_from (seen paths : list string) : list string :=
  match paths with
  | [] => []
  | path :: rest =>
      if existsb (Js.eqs path) seen then dedupe_from seen rest
      else path :: dedupe_from (path :: seen) rest
  end.

Definition dedupePaths (paths : list string) : list string := dedupe_from [] paths.

(** The three settings read from the environment, each with the empty
    string for a variable that is not set. *)
Record PathsEnv := {
  env_ALLOWED_PATHS : string;
  env_ALLOWED_PATHS_EXTRA : string;
  env_ALLOWED_PATHS_REMOVE : string
}.

Section AllowedPaths.
Context (cfg : Config) (fs : PathLib).

(** Resolve user-provided paths relative to the assistant working
    directory. *)
Definition resolveFromWorkingDir (rawPath : string) : string :=
  let value := Js.trim rawPath in
  let expanded := Security.replace_head "~" (HOME cfg) value in
  if isAbsolute fs expanded then resolve fs expanded
  else resolve2 fs (WORKING_DIR cfg) expanded.

Definition normalizeAllowedPath (rawPath : string) : option string :=
  let value := Js.trim rawPath in
  if negb (Js.truthy value) then None else Some (resolveFromWorkingDir value).

(** [.map((path) => normalizeAllowedPath(path)).filter(Boolean)] *)
Definition normalized (rawPaths : list string) : list string :=
  flat_map (fun rawPath =>
              match normalizeAllowedPath rawPath with
              | Some path => if Js.truthy path then [path] else []
              | None => []
              end)
           rawPaths.

Definition parseAllowedPaths (rawValue : string) : list string :=
  normalized (split_comma "" rawValue).

Definition defaultAllowedPaths : list string :=
  dedupePaths
    (normalized [ WORKING_DIR cfg;
                  HOME cfg ++ "/Programming_Projects";
                  HOME cfg ++ "/.claude";
                  HOME cfg ++ "/.codex" ]).

Definition basePaths (env : PathsEnv) : list string :=
  let allowedPathsOverride := parseAllowedPaths (env_ALLOWED_PATHS env) in
  if (0 <? length allowedPathsOverride)%nat then allowedPathsOverride
  else defaultAllowedPaths.

(** The value exported as [ALLOWED_PATHS]. *)
Definition mergedPaths (env : PathsEnv) : list string :=
  let allowedPathsExtra := parseAllowedPaths (env_ALLOWED_PATHS_EXTRA env) in
  let allowedPathsRemove := parseAllowedPaths (env_ALLOWED_PATHS_REMOVE env) in
  let normalizedWorkingDir := normalizeAllowedPath (WORKING_DIR cfg) in
  let merged :=
    List.filter (fun path => negb (existsb (Js.eqs path) allowedPathsRemove))
                (dedupePaths (basePaths env ++ allowedPathsExtra)%list) in
  match normalizedWorkingDir with
  | Some workingDir =>
      if Js.truthy workingDir && negb (existsb (Js.eqs workingDir) merged)
      then workingDir :: merged
      else merged
  | None => merged
  end.

End AllowedPaths.

(** An environment that removes the working directory and a project
    directory and adds two directories, one of them twice. *)
Definition sample_paths_env : PathsEnv :=
  {| env_ALLOWED_PATHS := "";
     env_ALLOWED_PATHS_EXTRA := "/srv/data, /srv/media ,/srv/data";
     env_ALLOWED_PATHS_REMOVE := "/home/bot,/home/bot/.codex" |}.

(* ===================================================================== *)
(** ** The handlers of [src/handlers/streaming.ts]                        *)
(* ===================================================================== *)

Definition BUTTON_LABEL_MAX_LENGTH : Z := 30.
Definition TELEGRAM_SAFE_LIMIT : nat := 4000.

(** The decimal text of an array index, as a template literal renders
    it. *)
Definition index_text (idx : nat) : string :=
  NilZero.string_of_uint (Nat.to_uint idx).

(** One call [keyboard.text(display, callbackData).row()]: a button on
    a row of its own. *)
Record Button := {
  button_text : string;
  callback_data : string
}.

(** The loop of [createAskUserKeyboard], from index [idx]. *)
Fixpoint keyboard_from (requestId : string) (idx : nat) (options : list string)
  : list Button :=
  match options with
  | [] => []
  | option :: rest =>
      let display :=
        if BUTTON_LABEL_MAX_LENGTH <? Js.len option
        then Js.slice0 option BUTTON_LABEL_MAX_LENGTH ++ "..."
        else option in
      let callbackData := "askuser:" ++ requestId ++ ":" ++ index_text idx in
      {| button_text := display; callback_data := callbackData |}
        :: keyboard_from requestId (S idx) rest
  end.

(** Create inline keyboard for ask_user options. *)
Definition createAskUserKeyboard (requestId : string) (options : list string)
  : list Button :=
  keyboard_from requestId 0 options.

(** A file the scan of [/tmp] finds: its content does not parse, or it
    is a request with the fields the handler reads, each as the handler
    coerces it ([String(data.chat_id)], and the empty string or the
    empty list for a field that is missing). *)
Record AskUserRequest := {
  request_status : string;
  request_chat_id : string;
  request_question : string;
  request_options : list string;
  request_id : string
}.

Inductive RequestFile :=
| unreadable
| request (data : AskUserRequest).

(** A message sent with [ctx.reply]: the text and the keyboard. *)
Record KeyboardMessage := {
  message_text : string;
  reply_markup : list Button
}.

Definition mark_sent (data : AskUserRequest) : AskUserRequest :=
  {| request_status := "sent";
     request_chat_id := request_chat_id data;
     request_question := request_question data;
     request_options := request_options data;
     request_id := request_id data |}.

Section AskUserScan.
(** [chatId] is [String(chatId)]; [accepts k] tells whether the [k]-th
    call of [ctx.reply] resolves, and [writable] whether [Bun.write]
    succeeds on a file. *)
Context (chatId : string) (accepts : nat -> bool) (writable : string -> bool).

(** The state of the scan: the value of [buttonsSent], the number of
    [ctx.reply] calls made, and the messages Telegram accepted. *)
Record ScanState := {
  buttonsSent : bool;
  replyCalls : nat;
  delivered : list KeyboardMessage
}.

(** The body of the loop for one file: the state, and the content of
    the file afterwards.  An exception inside the body is caught and
    logged, and the scan goes on. *)
Definition scan_file (filename : string) (file : RequestFile) (st : ScanState)
  : ScanState * RequestFile :=
  match file with
  | unreadable => (st, file)
  | request data =>
      if negb (Js.eqs (request_status data) "pending") then (st, file)
      else if negb (Js.eqs (request_chat_id data) chatId) then (st, file)
      else
        let question := Js.or_else (request_question data) "Please choose:" in
        if (0 <? length (request_options data))%nat && Js.truthy (request_id data) then
          let keyboard := createAskUserKeyboard (request_id data) (request_options data) in
          if accepts (replyCalls st) then
            let st1 := {| buttonsSent := true;
                          replyCalls := S (replyCalls st);
                          delivered :=
                            (delivered st
                               ++ [ {| message_text := "❓ " ++ question;
                                       reply_markup := keyboard |} ])%list |} in
            (st1, if writable filename then request (mark_sent data) else file)
          else
            ({| buttonsSent := buttonsSent st;
                replyCalls := S (replyCalls st);
                delivered := delivered st |}, file)
        else (st, file)
  end.

Fixpoint scan_files (files : list (string * RequestFile)) (st : ScanState)
  : ScanState * list (string * RequestFile) :=
  match files with
  | [] => (st, [])
  | (filename, file) :: rest =>
      let '(st1, file1) := scan_file filename file st in
      let '(st2, rest1) := scan_files rest st1 in
      (st2, (filename, file1) :: rest1)
  end.

(** Check for pending ask-user requests and send inline keyboards:
    [files] is what the scan of [/tmp] finds, in the order of the scan;
    the answer is the returned flag, the files afterwards and the
    messages delivered. *)
Definition checkPendingAskUserRequests (files : list (string * RequestFile))
  : bool * list (string * RequestFile) * list KeyboardMessage :=
  let '(st, files1) :=
    scan_files files {| buttonsSent := false; replyCalls := 0; delivered := [] |} in
  (buttonsSent st, files1, delivered st).

End AskUserScan.

(** Whether the handler would show the request of a file to a chat. *)
Definition shown_to (chatId : string) (file : RequestFile) : bool :=
  match file with
  | unreadable => false
  | request data =>
      Js.eqs (request_status data) "pending"
      && Js.eqs (request_chat_id data) chatId
      && (0 <? length (request_options data))%nat
      && Js.truthy (request_id data)
  end.

(** Two request files, one of them for another chat. *)
Definition sample_requests : list (string * RequestFile) :=
  [ ("ask-user-1.json",
     request {| request_status := "pending"; request_chat_id := "42";
                request_question := "Which one?";
                request_options := [ "a"; "b" ]; request_id := "r1" |});
    ("ask-user-2.json",
     request {| request_status := "pending"; request_chat_id := "77";
                request_question := ""; request_options := [ "x" ];
                request_id := "r2" |}) ].

(** One attempt to send a chunk. *)
Inductive ParseMode := HTML | plain_text.

Record ChunkCall := {
  chunk_text : string;
  chunk_mode : ParseMode;
  chunk_accepted : bool
}.

(** The loop of [sendChunkedMessages] from index [i]: each chunk is sent
    as HTML, then as plain text when that fails; a second failure is
    logged.  [accepts k] tells whether the [k]-th call of [ctx.reply]
    resolves, [calls] counts the calls made so far. *)
Equations? chunk_loop (accepts : nat -> bool) (content : string) (i calls : nat)
  : list ChunkCall by wf (String.length content - i)%nat lt :=
  chunk_loop accepts content i calls with lt_dec i (String.length content) => {
    | left _ =>
        let chunk := String.substring i TELEGRAM_SAFE_LIMIT content in
        if accepts calls then
          {| chunk_text := chunk; chunk_mode := HTML; chunk_accepted := true |}
            :: chunk_loop accepts content (i + TELEGRAM_SAFE_LIMIT) (S calls)
        else
          {| chunk_text := chunk; chunk_mode := HTML; chunk_accepted := false |}
            :: {| chunk_text := chunk; chunk_mode := plain_text;
                  chunk_accepted := accepts (S calls) |}
            :: chunk_loop accepts content (i + TELEGRAM_SAFE_LIMIT) (S (S calls));
    | right _ => []
  }.
Proof. all: unfold TELEGRAM_SAFE_LIMIT; lia. Qed.

(** Split long formatted content into chunks and send as separate
    messages. *)
Definition sendChunkedMessages (accepts : nat -> bool) (content : string)
  : list ChunkCall :=
  chunk_loop accepts content 0 0.

(** The texts Telegram was asked to show as HTML, and the texts it
    accepted in either mode. *)
Definition html_attempts (calls : list ChunkCall) : list string :=
  flat_map (fun c => match chunk_mode c with HTML => [chunk_text c] | plain_text => [] end)
           calls.

Definition accepted_texts (calls : list ChunkCall) : list string :=
  flat_map (fun c => if chunk_accepted c then [chunk_text c] else []) calls.

(* ===================================================================== *)
(** ** The thinking budget ([getThinkingLevel] of [src/session.ts])       *)
(* ===================================================================== *)

(** [value.split(",").map((k) => k.trim().toLowerCase())] *)
Definition parseKeywords (value : string) : list string :=
  map (fun k => Js.toLowerCase (Js.trim k)) (split_comma "" value).

Section Thinking.
Context (THINKING_KEYWORDS THINKING_DEEP_KEYWORDS : list string).

(** Determine thinking token budget based on message keywords. *)
Definition getThinkingLevel (message : string) (defaultEffort : ClaudeReasoningEffort)
  : Z :=
  let msgLower := Js.toLowerCase message in
  let baseThinkingTokens :=
    match defaultEffort with
    | c_high => 50000
    | c_medium => 10000
    | c_low => 0
    end in
  if existsb (fun k => Js.includes msgLower k) THINKING_DEEP_KEYWORDS
  then Z.max baseThinkingTokens 50000
  else if existsb (fun k => Js.includes msgLower k) THINKING_KEYWORDS
  then Z.max baseThinkingTokens 10000
  else baseThinkingTokens.

End Thinking.


(* ===================================================================== *)
(** ** Properties of the safety policy                                    *)
(* ===================================================================== *)

Section PolicyFacts.
Context (cfg : Config) (fs : PathLib).

Lemma resolvedPath_with_allowed allowed path :
  Security.resolvedPath (Security.with_allowed cfg allowed) fs path
  = Security.resolvedPath cfg fs path.
Proof. reflexivity. Qed.

Lemma in_temp_with_allowed allowed r :
  Security.in_temp (Security.with_allowed cfg allowed) r = Security.in_temp cfg r.
Proof. reflexivity. Qed.

Lemma isPathAllowed_in_temp path :
  Security.in_temp cfg (Security.resolvedPath cfg fs path) = true ->
  Security.isPathAllowed cfg fs path = true.
Proof.
  intros Htemp. unfold Security.isPathAllowed. rewrite Htemp. reflexivity.
Qed.

Lemma check_rm_args_temp args :
  Forall (fun t => Security.in_temp cfg (Security.resolvedPath cfg fs t) = true)
         (filter (fun arg => negb (Security.is_skipped_arg arg))
                 (map Security.stripWrappingQuotes args)) ->
  Security.check_rm_args cfg fs args = None.
Proof.
  induction args as [|rawArg rest IH]; intros Hall; [reflexivity|].
  cbn [map] in Hall. rewrite filter_cons in Hall. cbn [Security.check_rm_args].
  destruct (Security.is_skipped_arg (Security.stripWrappingQuotes rawArg)) eqn:Hskip.
  - rewrite decide_False in Hall by (cbn; tauto). auto.
  - rewrite decide_True in Hall by (cbn; tauto).
    apply Forall_cons in Hall as [Hhead Htail].
    rewrite (isPathAllowed_in_temp _ Hhead). cbn. auto.
Qed.

Lemma check_segments_temp segments :
  Forall (fun t => Security.in_temp cfg (Security.resolvedPath cfg fs t) = true)
         (flat_map (fun segment =>
                      filter (fun arg => negb (Security.is_skipped_arg arg))
                             (map Security.stripWrappingQuotes
                                  (Security.rm_raw_args segment)))
                   segments) ->
  Security.check_segments cfg fs segments = None.
Proof.
  induction segments as [|segment rest IH]; intros Hall; [reflexivity|].
  cbn [flat_map] in Hall. apply Forall_app in Hall as [Hhead Htail].
  cbn [Security.check_segments].
  rewrite (check_rm_args_temp _ Hhead). auto.
Qed.

Lemma checkCommandSafety_temp command :
  Security.blocked_pattern command = None ->
  Forall (fun t => Security.in_temp cfg (Security.resolvedPath cfg fs t) = true)
         (Security.rmTargets command) ->
  Security.checkCommandSafety cfg fs command = (true, "").
Proof.
  intros Hpat Hall. unfold Security.checkCommandSafety. rewrite Hpat.
  destruct (Security.test_rm_word false command); [|reflexivity].
  rewrite (check_segments_temp _ Hall). reflexivity.
Qed.

End PolicyFacts.

(** C10 (as amended).  A path whose resolved form begins with one of the
    temp prefixes is allowed by [isPathAllowed] whatever the allowed-paths
    list is (the function has no notion of the intended operation), and
    [checkCommandSafety] accepts every command that contains no blocked
    pattern and whose [rm] targets all resolve into those directories. *)
Theorem temp_paths_always_allowed (cfg : Config) (fs : PathLib) (allowed : list string) :
  (forall path,
      Security.in_temp cfg (Security.resolvedPath cfg fs path) = true ->
      Security.isPathAllowed (Security.with_allowed cfg allowed) fs path = true)
  /\ (forall command,
         Security.blocked_pattern command = None ->
         Forall (fun t => Security.in_temp cfg (Security.resolvedPath cfg fs t) = true)
                (Security.rmTargets command) ->
         Security.checkCommandSafety (Security.with_allowed cfg allowed) fs command
         = (true, "")).
Proof.
  split.
  - intros path Htemp. apply isPathAllowed_in_temp.
    rewrite resolvedPath_with_allowed, in_temp_with_allowed. exact Htemp.
  - intros command Hpat Hall. apply checkCommandSafety_temp; [exact Hpat|].
    eapply Forall_impl; [exact Hall|]. intros t Ht.
    rewrite resolvedPath_with_allowed, in_temp_with_allowed. exact Ht.
Qed.

(** The theorem at [/tmp/x] and at a command that removes two temp paths,
    with an empty allowed-paths list. *)
Lemma temp_paths_always_allowed_witness :
  Security.isPathAllowed (Security.with_allowed sample_cfg []) sample_fs "/tmp/x" = true
  /\ Security.checkCommandSafety (Security.with_allowed sample_cfg []) sample_fs
       "rm -r /tmp/x /var/folders/y" = (true, "").
Proof.
  destruct (temp_paths_always_allowed sample_cfg sample_fs []) as [Hpath Hcmd].
  split.
  - apply Hpath. vm_compute. reflexivity.
  - apply Hcmd.
    + vm_compute. reflexivity.
    + replace (Security.rmTargets "rm -r /tmp/x /var/folders/y")
        with [ "/tmp/x"; "/var/folders/y" ] by (vm_compute; reflexivity).
      repeat (constructor; [vm_compute; reflexivity|]). constructor.
Defined.

(** C10, as first stated, fails: the target of [rm -rf /tmp/x] lies in a
    temp directory, which [isPathAllowed] accepts with an empty
    allowed-paths list, yet [checkCommandSafety] rejects the command
    because it contains the blocked pattern [rm -rf /]. *)
Lemma rm_rf_in_tmp_rejected :
  Security.rmTargets "rm -rf /tmp/x" = [ "/tmp/x" ]
  /\ Security.isPathAllowed (Security.with_allowed sample_cfg []) sample_fs "/tmp/x" = true
  /\ Security.checkCommandSafety (Security.with_allowed sample_cfg []) sample_fs
       "rm -rf /tmp/x" = (false, "Blocked pattern: rm -rf /").
Proof. vm_compute. repeat split; reflexivity. Qed.

(* ===================================================================== *)
(** ** Properties of the saved history                                    *)
(* ===================================================================== *)

Lemma findIndex_Some {A} (p : A -> bool) (l : list A) (i : nat) :
  findIndex p l = Some i ->
  exists x, l !! i = Some x /\ p x = true.
Proof.
  revert i. induction l as [|y r IH]; intros i H; [discriminate|].
  cbn in H. destruct (p y) eqn:Hy.
  - injection H as <-. exists y. split; [reflexivity | exact Hy].
  - destruct (findIndex p r) as [j|] eqn:Hj; [|discriminate].
    injection H as <-. destruct (IH j eq_refl) as (x & Hx & Hpx).
    exists x. split; [exact Hx | exact Hpx].
Qed.

Lemma findIndex_None {A} (p : A -> bool) (l : list A) :
  findIndex p l = None -> Forall (fun x => p x = false) l.
Proof.
  induction l as [|y r IH]; intros H; [constructor|].
  cbn in H. destruct (p y) eqn:Hy; [discriminate|].
  destruct (findIndex p r); [discriminate|].
  constructor; [exact Hy | apply IH; reflexivity].
Qed.

Lemma findIndex_is_Some {A} (p : A -> bool) (l : list A) (x : A) :
  In x l -> p x = true -> exists i, findIndex p l = Some i.
Proof.
  induction l as [|y r IH]; intros Hin Hp; [destruct Hin|].
  cbn. destruct (p y) eqn:Hy; [eauto|].
  destruct Hin as [->|Hin]; [congruence|].
  destruct (IH Hin Hp) as [i ->]. eauto.
Qed.

Lemma map_insert_same_key {A B} (f : A -> B) (l : list A) (i : nat) (old new : A) :
  l !! i = Some old -> f new = f old ->
  map f (<[i := new]> l) = map f l.
Proof.
  revert i. induction l as [|y r IH]; intros i Hi Hf; [reflexivity|].
  destruct i as [|i]; cbn in *.
  - injection Hi as ->. rewrite Hf. reflexivity.
  - f_equal. apply IH; assumption.
Qed.

Lemma NoDup_take_map {A B} (f : A -> B) (n : nat) (l : list A) :
  NoDup (map f l) -> NoDup (map f (take n l)).
Proof.
  intros H. rewrite <- List.firstn_map.
  eapply sublist_NoDup; [exact H | apply sublist_take].
Qed.

Section HistoryFacts.
Context (cfg : Config).

Lemma newSession_id now s id : session_id (newSession cfg now s id) = id.
Proof. reflexivity. Qed.

(** The step of [saveSession] once the session id is known. *)
Lemma saveSession_with_id now s h id :
  sessionId s = Some id -> id <> "" ->
  saveSession cfg now s h
  = take MAX_SESSIONS
      match findIndex (fun e => Js.eqs (session_id e) id) h with
      | Some existingIndex => <[existingIndex := newSession cfg now s id]> h
      | None => newSession cfg now s id :: h
      end.
Proof.
  intros Hid Hne. unfold saveSession. rewrite Hid.
  destruct id; [congruence | reflexivity].
Qed.

Lemma saveSession_without_id now s h :
  truthy_opt (sessionId s) = false -> saveSession cfg now s h = h.
Proof.
  unfold saveSession. destruct (sessionId s) as [id|]; [|reflexivity].
  cbn. intros ->. reflexivity.
Qed.

Lemma saveSession_replaces now s h id i :
  (length h <= MAX_SESSIONS)%nat ->
  sessionId s = Some id -> id <> "" ->
  findIndex (fun e => Js.eqs (session_id e) id) h = Some i ->
  saveSession cfg now s h = <[i := newSession cfg now s id]> h.
Proof.
  intros Hlen Hid Hne Hfind.
  rewrite (saveSession_with_id _ _ _ _ Hid Hne), Hfind.
  apply take_ge. rewrite length_insert. exact Hlen.
Qed.

Lemma saveSession_inserts now s h id :
  sessionId s = Some id -> id <> "" ->
  findIndex (fun e => Js.eqs (session_id e) id) h = None ->
  saveSession cfg now s h = take MAX_SESSIONS (newSession cfg now s id :: h).
Proof.
  intros Hid Hne Hfind.
  rewrite (saveSession_with_id _ _ _ _ Hid Hne), Hfind. reflexivity.
Qed.

Lemma saveSession_ok now s h :
  history_ok h -> history_ok (saveSession cfg now s h).
Proof.
  intros [Hlen Hnd].
  destruct (truthy_opt (sessionId s)) eqn:Htr.
  2:{ rewrite saveSession_without_id by exact Htr. split; assumption. }
  destruct (sessionId s) as [id|] eqn:Hid; [|discriminate].
  assert (Hne : id <> "") by (intros ->; discriminate).
  rewrite (saveSession_with_id _ _ _ _ Hid Hne).
  split.
  - rewrite length_take. apply Nat.le_min_l.
  - apply NoDup_take_map.
    destruct (findIndex _ h) as [i|] eqn:Hfind.
    + destruct (findIndex_Some _ _ _ Hfind) as (old & Hold & Heq).
      apply String.eqb_eq in Heq.
      rewrite (map_insert_same_key session_id h i old); [exact Hnd | exact Hold |].
      rewrite newSession_id. symmetry. exact Heq.
    + cbn [map]. rewrite newSession_id. constructor; [|exact Hnd].
      intros Hin. apply list_elem_of_In, List.in_map_iff in Hin as (e & He & Hine).
      pose proof (findIndex_None _ _ Hfind) as Hall.
      rewrite Forall_forall in Hall. apply list_elem_of_In in Hine.
      specialize (Hall e Hine). cbn in Hall.
      rewrite He in Hall. unfold Js.eqs in Hall. rewrite String.eqb_refl in Hall.
      discriminate.
Qed.

Lemma persist_all_ok calls h :
  history_ok h -> history_ok (persist_all cfg calls h).
Proof.
  revert h. induction calls as [|[now s] rest IH]; intros h Hok; [exact Hok|].
  cbn. apply IH. apply saveSession_ok. exact Hok.
Qed.

End HistoryFacts.

(** C8.  From a history within the bound and without duplicate ids (the
    empty one of a fresh installation, for instance), any number of
    [saveSession] calls leaves at most 5 entries and no two entries with
    the same session id.  A call for an id that is already present puts
    the new entry at the index of the old one and leaves every other
    index alone; a call for a new id puts the new entry in front and
    keeps the first 5 entries. *)
Theorem history_bounded_and_deduplicated (cfg : Config) (h : list SavedSession) :
  history_ok h ->
  (forall calls,
      (length (persist_all cfg calls h) <= 5)%nat
      /\ NoDup (map session_id (persist_all cfg calls h)))
  /\ (forall now s id,
         sessionId s = Some id -> id <> "" ->
         In id (map session_id h) ->
         exists i old,
           h !! i = Some old /\ session_id old = id
           /\ saveSession cfg now s h = <[i := newSession cfg now s id]> h
           /\ saveSession cfg now s h !! i = Some (newSession cfg now s id)
           /\ forall j, j <> i -> saveSession cfg now s h !! j = h !! j)
  /\ (forall now s id,
         sessionId s = Some id -> id <> "" ->
         ~ In id (map session_id h) ->
         saveSession cfg now s h = take 5 (newSession cfg now s id :: h)).
Proof.
  intros Hok. split; [|split].
  - intros calls. exact (persist_all_ok cfg calls h Hok).
  - intros now s id Hid Hne Hin.
    apply List.in_map_iff in Hin as (e & He & Hine).
    destruct (findIndex_is_Some (fun e => Js.eqs (session_id e) id) h e Hine)
      as [i Hfind].
    { rewrite He. apply String.eqb_refl. }
    destruct (findIndex_Some _ _ _ Hfind) as (old & Hold & Heq).
    apply String.eqb_eq in Heq.
    exists i, old. destruct Hok as [Hlen _].
    rewrite (saveSession_replaces cfg now s h id i Hlen Hid Hne Hfind).
    repeat split; [exact Hold | exact Heq | |].
    + apply list_lookup_insert_eq. eapply lookup_lt_Some. exact Hold.
    + intros j Hj. apply list_lookup_insert_ne. congruence.
  - intros now s id Hid Hne Hnotin.
    apply saveSession_inserts; [exact Hid | exact Hne |].
    destruct (findIndex _ h) as [i|] eqn:Hfind; [|reflexivity].
    destruct (findIndex_Some _ _ _ Hfind) as (old & Hold & Heq).
    apply String.eqb_eq in Heq. exfalso. apply Hnotin.
    apply List.in_map_iff. exists old. split; [exact Heq|].
    apply list_elem_of_In. eapply list_elem_of_lookup_2. exact Hold.
Qed.

(** The theorem at a history of four entries: five more calls, a
    replacement at index 2 and an insertion in front. *)
Lemma history_bounded_and_deduplicated_witness :
  (length (persist_all sample_cfg
             (map (fun id => (7%Z, with_id id (initial_session sample_cfg)))
                  [ "e"; "b"; "f"; "g"; "b" ])
             four_entries) <= 5)%nat
  /\ saveSession sample_cfg 7 (with_id "c" (initial_session sample_cfg)) four_entries
       !! 2%nat
     = Some (newSession sample_cfg 7 (with_id "c" (initial_session sample_cfg)) "c")
  /\ saveSession sample_cfg 7 (with_id "z" (initial_session sample_cfg)) four_entries
     = take 5 (newSession sample_cfg 7 (with_id "z" (initial_session sample_cfg)) "z"
                 :: four_entries).
Proof.
  assert (Hok : history_ok four_entries).
  { split; [vm_compute; lia|]. vm_compute.
    repeat (constructor; [rewrite ?list_elem_of_In; cbn; intuition discriminate|]).
    constructor. }
  destruct (history_bounded_and_deduplicated sample_cfg four_entries Hok)
    as (Hall & Hrepl & Hins).
  split; [|split].
  - apply Hall.
  - destruct (Hrepl 7 (with_id "c" (initial_session sample_cfg)) "c")
      as (i & old & Hold & Hid & Heq & Hat & Hothers).
    + reflexivity.
    + discriminate.
    + vm_compute. tauto.
    + destruct i as [|[|[|[|i]]]]; cbn in Hold; try discriminate Hold;
        injection Hold as <-; try discriminate Hid.
      exact Hat.
  - apply Hins.
    + reflexivity.
    + discriminate.
    + vm_compute. intuition discriminate.
Defined.

Lemma find_insert_at_findIndex {A} (p : A -> bool) (l : list A) (i : nat) (x : A) :
  findIndex p l = Some i -> p x = true ->
  List.find p (<[i := x]> l) = Some x.
Proof.
  revert i. induction l as [|y r IH]; intros i Hi Hx; [discriminate|].
  cbn in Hi. destruct (p y) eqn:Hy.
  - injection Hi as <-. cbn. rewrite Hx. reflexivity.
  - destruct (findIndex p r) as [j|] eqn:Hj; [|discriminate].
    injection Hi as <-. cbn. rewrite Hy. apply IH; [reflexivity | exact Hx].
Qed.

Section ResumeFacts.
Context (cfg : Config) (now : Date).

Lemma restore_identity s e :
  sessionId (restore now s e) = Some (session_id e)
  /\ conversationTitle (restore now s e) = Some (title e)
  /\ lastActivity (restore now s e) = Some now.
Proof.
  unfold restore.
  destruct (assistant e) as [[|]|], (model e) as [m|];
    try destruct (Js.truthy m); cbn;
    try destruct (assistantMode s); cbn;
    try destruct (codex_reasoning_effort e); cbn; auto.
Qed.

Lemma restore_flags s e :
  isQueryRunning (restore now s e) = isQueryRunning s
  /\ _isProcessing (restore now s e) = _isProcessing s
  /\ stopRequested (restore now s e) = stopRequested s.
Proof.
  unfold restore.
  destruct (assistant e) as [[|]|], (model e) as [m|];
    try destruct (Js.truthy m); cbn;
    try destruct (assistantMode s); cbn;
    try destruct (codex_reasoning_effort e); cbn; auto.
Qed.

Lemma restore_config s e a m :
  assistant e = Some a -> model e = Some m -> m <> "" ->
  assistantMode (restore now s e) = a
  /\ active_model (restore now s e) = m
  /\ match a with
     | codex => forall ef, codex_reasoning_effort e = Some ef ->
                           codexEffort (restore now s e) = ef
     | claude => claudeEffort (restore now s e) = claudeEffort s
     end.
Proof.
  intros Ha Hm Hne. unfold restore, active_model. rewrite Ha, Hm.
  assert (Htr : Js.truthy m = true) by (destruct m; [congruence | reflexivity]).
  rewrite Htr. destruct a; cbn.
  - auto.
  - destruct (codex_reasoning_effort e) as [ef|]; cbn; repeat split.
    + intros ef' Hef. injection Hef as <-. reflexivity.
    + intros ef' Hef. discriminate Hef.
Qed.

(** The entry written by [saveSession] is the one a later
    [resumeSession] finds for that id. *)
Lemma saved_entry_found at_ s h id :
  (length h <= MAX_SESSIONS)%nat ->
  sessionId s = Some id -> id <> "" ->
  List.find (fun e => Js.eqs (session_id e) id) (saveSession cfg at_ s h)
  = Some (newSession cfg at_ s id).
Proof.
  intros Hlen Hid Hne.
  destruct (findIndex (fun e => Js.eqs (session_id e) id) h) as [i|] eqn:Hfind.
  - rewrite (saveSession_replaces cfg at_ s h id i Hlen Hid Hne Hfind).
    apply find_insert_at_findIndex; [exact Hfind|]. apply String.eqb_refl.
  - rewrite (saveSession_inserts cfg at_ s h id Hid Hne Hfind).
    cbn. unfold Js.eqs. rewrite String.eqb_refl. reflexivity.
Qed.

(** Persisting a session and resuming it later, from whatever state the
    session object is in by then, brings back its id, assistant, model
    and (for Codex) effort. *)
Lemma save_then_resume at_ s later h id :
  (length h <= MAX_SESSIONS)%nat ->
  sessionId s = Some id -> id <> "" -> active_model s <> "" ->
  let r := resumeSession cfg now later (saveSession cfg at_ s h) id in
  fst (snd r) = true
  /\ sessionId (fst r) = Some id
  /\ assistantMode (fst r) = assistantMode s
  /\ active_model (fst r) = active_model s
  /\ (assistantMode s = codex -> codexEffort (fst r) = codexEffort s).
Proof.
  intros Hlen Hid Hne Hmodel. cbv zeta. unfold resumeSession.
  rewrite (saved_entry_found at_ s h id Hlen Hid Hne).
  cbn [working_dir newSession].
  assert (Hres : (if Js.truthy (WORKING_DIR cfg)
                     && negb (Js.eqs (WORKING_DIR cfg) (WORKING_DIR cfg))
                  then (later, (false, wrong_dir_message (WORKING_DIR cfg)))
                  else (restore now later (newSession cfg at_ s id),
                        (true, resumed_message (title (newSession cfg at_ s id)))))
                 = (restore now later (newSession cfg at_ s id),
                    (true, resumed_message (title (newSession cfg at_ s id))))).
  { unfold Js.eqs. rewrite String.eqb_refl, andb_false_r. reflexivity. }
  rewrite Hres. cbn [fst snd].
  destruct (restore_identity later (newSession cfg at_ s id)) as (Hsid & _ & _).
  destruct (restore_config later (newSession cfg at_ s id) (assistantMode s)
              (active_model s) eq_refl eq_refl Hmodel) as (Ham & Hmod & Heff).
  repeat split; try assumption.
  intros Hcodex. rewrite Hcodex in Heff. apply Heff.
  cbn. rewrite Hcodex. reflexivity.
Qed.

End ResumeFacts.

(** C7.  [resumeSession] answers "not found" when no saved entry has the
    id; it answers with a different message when the entry found belongs
    to another working directory; in both cases the session object is
    returned as it was.  Otherwise it succeeds: session id, title and
    last activity are set from the entry and the clock, the assistant
    and its model are restored from the entry that carries them, with
    the reasoning effort for a Codex entry that carries one (the effort
    of Claude is fixed when the session object is built), and the
    running flags are the ones the session had. *)
Theorem resume_contract (cfg : Config) (now : Date) (s : Session)
        (h : list SavedSession) (id : string) :
  ((forall e, In e h -> session_id e <> id) ->
   resumeSession cfg now s h id = (s, (false, not_found_message)))
  /\ (forall e dir,
         List.find (fun e => Js.eqs (session_id e) id) h = Some e ->
         working_dir e = Some dir -> dir <> "" -> dir <> WORKING_DIR cfg ->
         resumeSession cfg now s h id = (s, (false, wrong_dir_message dir))
         /\ wrong_dir_message dir <> not_found_message)
  /\ (forall e,
         List.find (fun e => Js.eqs (session_id e) id) h = Some e ->
         ~ other_scope cfg e ->
         let s' := fst (resumeSession cfg now s h id) in
         fst (snd (resumeSession cfg now s h id)) = true
         /\ sessionId s' = Some (session_id e)
         /\ conversationTitle s' = Some (title e)
         /\ lastActivity s' = Some now
         /\ (forall a m,
                assistant e = Some a -> model e = Some m -> m <> "" ->
                assistantMode s' = a /\ active_model s' = m
                /\ match a with
                   | codex => forall ef, codex_reasoning_effort e = Some ef ->
                                         codexEffort s' = ef
                   | claude => claudeEffort s' = claudeEffort s
                   end)
         /\ isQueryRunning s' = isQueryRunning s
         /\ _isProcessing s' = _isProcessing s
         /\ stopRequested s' = stopRequested s
         /\ isRunning s' = isRunning s).
Proof.
  split; [|split].
  - intros Hnone. unfold resumeSession.
    destruct (List.find _ h) as [e|] eqn:Hfind; [|reflexivity].
    apply List.find_some in Hfind as [Hin Heq].
    apply String.eqb_eq in Heq. destruct (Hnone e Hin Heq).
  - intros e dir Hfind Hdir Hne Hother. unfold resumeSession.
    rewrite Hfind, Hdir.
    assert (Htr : Js.truthy dir = true) by (destruct dir; [congruence | reflexivity]).
    assert (Hneq : Js.eqs dir (WORKING_DIR cfg) = false)
      by (apply String.eqb_neq; exact Hother).
    rewrite Htr, Hneq. split; [reflexivity|].
    unfold wrong_dir_message, not_found_message. cbn. intros Habs.
    discriminate Habs.
  - intros e Hfind Hscope.
    assert (Hres : resumeSession cfg now s h id
                   = (restore now s e, (true, resumed_message (title e)))).
    { unfold resumeSession. rewrite Hfind.
      destruct (working_dir e) as [dir|] eqn:Hdir; [|reflexivity].
      destruct (Js.truthy dir) eqn:Htr; [|reflexivity].
      destruct (Js.eqs dir (WORKING_DIR cfg)) eqn:Heq; [reflexivity|].
      exfalso. apply Hscope. exists dir. split; [exact Hdir|]. split.
      - intros ->. discriminate Htr.
      - apply String.eqb_neq. exact Heq. }
    rewrite Hres. cbn [fst snd].
    destruct (restore_identity now s e) as (Hid & Htitle & Hact).
    destruct (restore_flags now s e) as (Hrun & Hproc & Hstop).
    repeat split; try assumption.
    + eapply restore_config; eassumption.
    + eapply restore_config; eassumption.
    + eapply restore_config; eassumption.
    + unfold isRunning. rewrite Hrun, Hproc. reflexivity.
Qed.

(** The theorem at a history of four entries: an unknown id and a known
    one. *)
Lemma resume_contract_witness :
  resumeSession sample_cfg 9 (initial_session sample_cfg) four_entries "zz"
  = (initial_session sample_cfg, (false, not_found_message))
  /\ sessionId (fst (resumeSession sample_cfg 9 (initial_session sample_cfg)
                       four_entries "b")) = Some "b".
Proof.
  destruct (resume_contract sample_cfg 9 (initial_session sample_cfg) four_entries "zz")
    as (Hnone & _ & _).
  destruct (resume_contract sample_cfg 9 (initial_session sample_cfg) four_entries "b")
    as (_ & _ & Hok).
  split.
  - apply Hnone. intros e He.
    vm_compute in He. intuition (subst e; discriminate).
  - refine (proj1 (proj2 (Hok _ eq_refl _))).
    intros (dir & Hdir & _ & Hne). vm_compute in Hdir.
    injection Hdir as <-. apply Hne. reflexivity.
Defined.

(* ===================================================================== *)
(** ** Properties of the model switch                                     *)
(* ===================================================================== *)

(** The three shapes of the assignments made by [setModel]. *)
Inductive selection_shape (s : Session) : Session -> Prop :=
| shape_preset m e :
    selection_shape s (set_codexEffort e (set_codexModel m (set_assistantMode codex s)))
| shape_claude m :
    selection_shape s (set_claudeModel m (set_assistantMode claude s))
| shape_codex m :
    selection_shape s (set_codexModel m (set_assistantMode codex s)).

Lemma eqs_true a b : Js.eqs a b = true <-> a = b.
Proof. apply String.eqb_eq. Qed.

Lemma eqs_false a b : Js.eqs a b = false <-> a <> b.
Proof. apply String.eqb_neq. Qed.

Lemma truthy_true s : Js.truthy s = true <-> s <> "".
Proof. destruct s; cbn; split; congruence. Qed.




Section ModelFacts.
Context (cfg : Config).

Lemma apply_selection_shape s selection s1 :
  apply_selection cfg s selection = Some s1 -> selection_shape s s1.
Proof.
  unfold apply_selection.
  destruct (parseCodexPreset cfg selection) as [[m e]|].
  { intros H. injection H as <-. constructor. }
  destruct (parseClaudeAlias selection) as [m|].
  { intros H. injection H as <-. constructor. }
  destruct (Js.eqs _ "claude").
  { intros H. injection H as <-. constructor. }
  destruct (Js.eqs _ "codex").
  { intros H. injection H as <-. constructor. }
  destruct (Js.startsWith _ "claude"); [discriminate|].
  intros H. injection H as <-. constructor.
Qed.

Lemma prefix_of_eqs a b : Js.eqs a b = true -> Js.startsWith a b = true.
Proof.
  intros H. apply eqs_true in H. subst b. unfold Js.startsWith.
  induction a as [|c a IH]; cbn; [reflexivity|].
  destruct (ascii_dec c c); [exact IH | congruence].
Qed.

Lemma apply_selection_literal s selection :
  parseCodexPreset cfg selection = None ->
  parseClaudeAlias selection = None ->
  Js.toLowerCase selection <> "codex" ->
  Js.startsWith (Js.toLowerCase selection) "claude" = false ->
  apply_selection cfg s selection
  = Some (set_codexModel selection (set_assistantMode codex s)).
Proof.
  intros Hpreset Halias Hcodex Hclaude. unfold apply_selection.
  rewrite Hpreset, Halias, Hclaude.
  destruct (Js.eqs (Js.toLowerCase selection) "claude") eqn:Hbare.
  { apply prefix_of_eqs in Hbare. congruence. }
  apply eqs_false in Hcodex. rewrite Hcodex. reflexivity.
Qed.

End ModelFacts.



(** C6 (as amended).  A selection that is not empty once trimmed, that is
    neither a Codex preset, nor a Claude alias, nor the bare word codex,
    and whose lower-case form does not start with claude, makes
    [setModel] succeed with the trimmed selection as the Codex model
    identifier and Codex as the assistant; the Codex effort and the
    Claude model stay as they were. *)
Theorem setModel_literal_codex_model (cfg : Config) (s : Session) (selectionRaw : string) :
  let selection := Js.trim selectionRaw in
  selection <> "" ->
  parseCodexPreset cfg selection = None ->
  parseClaudeAlias selection = None ->
  Js.toLowerCase selection <> "codex" ->
  Js.startsWith (Js.toLowerCase selection) "claude" = false ->
  let s' := fst (setModel cfg s selectionRaw) in
  fst (snd (setModel cfg s selectionRaw)) = true
  /\ assistantMode s' = codex
  /\ codexModel s' = selection
  /\ codexEffort s' = codexEffort s
  /\ claudeModel s' = claudeModel s.
Proof.
  cbv zeta. intros Hne Hpreset Halias Hcodex Hclaude. unfold setModel.
  apply truthy_true in Hne. rewrite Hne. cbn [negb].
  rewrite (apply_selection_literal cfg s _ Hpreset Halias Hcodex Hclaude).
  destruct (negb (config_changed _ _)); destruct s; cbn; repeat split; reflexivity.
Qed.

(** The theorem at the selection [gpt-4o] with blanks around it. *)
Lemma setModel_literal_codex_model_witness :
  fst (snd (setModel sample_cfg (initial_session sample_cfg) " gpt-4o "))  = true
  /\ codexModel (fst (setModel sample_cfg (initial_session sample_cfg) " gpt-4o "))
     = "gpt-4o".
Proof.
  assert (H := setModel_literal_codex_model sample_cfg (initial_session sample_cfg)
                 " gpt-4o ").
  cbv zeta in H.
  assert (Htrim : Js.trim " gpt-4o " = "gpt-4o") by (vm_compute; reflexivity).
  rewrite Htrim in H.
  destruct H as (Hok & _ & Hmodel & _).
  - discriminate.
  - vm_compute. reflexivity.
  - vm_compute. reflexivity.
  - vm_compute. discriminate.
  - vm_compute. reflexivity.
  - split; [exact Hok | exact Hmodel].
Defined.

(** C6, as first stated, fails: a name that starts with claude without
    being an alias is none of the recognised forms, and [setModel]
    refuses it instead of taking it as a Codex model identifier; a
    selection of blanks is not empty either and is refused too. *)
Lemma claude_prefixed_name_rejected :
  "claude-3-opus" <> ""
  /\ parseCodexPreset sample_cfg "claude-3-opus" = None
  /\ parseClaudeAlias "claude-3-opus" = None
  /\ Js.toLowerCase "claude-3-opus" <> "claude"
  /\ Js.toLowerCase "claude-3-opus" <> "codex"
  /\ setModel sample_cfg (initial_session sample_cfg) "claude-3-opus"
     = (initial_session sample_cfg, (false, claude_models_message))
  /\ setModel sample_cfg (initial_session sample_cfg) "  "
     = (initial_session sample_cfg, (false, usage_message)).
Proof. vm_compute. repeat split; (reflexivity || discriminate). Qed.

(* ===================================================================== *)
(** ** Properties of the turn runners                                     *)
(* ===================================================================== *)

Lemma no_done_nil : no_done [].
Proof. constructor. Qed.

Lemma no_done_app evs1 evs2 : no_done evs1 -> no_done evs2 -> no_done (evs1 ++ evs2).
Proof. intros H1 H2. apply Forall_app. split; assumption. Qed.

Lemma no_done_one e : e <> st_done -> no_done [e].
Proof. intros H. constructor; [exact H | constructor]. Qed.

Lemma text_of_no_done seg evs : Forall (text_of seg) evs -> no_done evs.
Proof.
  intros H. eapply Forall_impl; [exact H|]. intros e [content ->]. discriminate.
Qed.

Lemma tail_loop_texts step Hstep fullText segmentId end_ :
  Forall (text_of segmentId) (tail_loop step Hstep fullText segmentId end_).
Proof.
  funelim (tail_loop step Hstep fullText segmentId end_).
  - constructor; [eexists; reflexivity | assumption].
  - constructor.
Qed.

Section TurnFacts.
Context (cfg : Config) (fs : PathLib) (ext : External).
Context (now : Date) (interactive : bool).

Lemma emitProgressiveTail_texts st fullText segmentId :
  Forall (text_of segmentId) (emitProgressiveTail cfg st fullText segmentId).
Proof.
  unfold emitProgressiveTail.
  destruct (_ <? _); [constructor|].
  destruct (Z_lt_dec _ _); [apply tail_loop_texts | constructor].
Qed.

Lemma final_segment_no_done st : no_done (final_segment cfg st).
Proof.
  unfold final_segment. destruct (Js.truthy _); [|constructor].
  apply no_done_app.
  - eapply text_of_no_done, emitProgressiveTail_texts.
  - apply no_done_one. discriminate.
Qed.

Lemma on_text_no_done clock t st : no_done (snd (on_text cfg clock t st)).
Proof.
  unfold on_text.
  destruct (_ && _); cbn; [apply no_done_one; discriminate|].
  destruct (_ || _); cbn; [apply no_done_one; discriminate | constructor].
Qed.

Lemma close_segment_no_done st : no_done (snd (close_segment st)).
Proof.
  unfold close_segment.
  destruct (Js.truthy _); cbn; [apply no_done_one; discriminate | constructor].
Qed.

Lemma claude_block_no_done b w l :
  no_done (snd (fst (claude_block cfg fs ext interactive b w l))).
Proof.
  destruct b as [thinkingText|toolName toolInput answers|t clock|]; cbn.
  - destruct (Js.truthy _); [apply no_done_one; discriminate | constructor].
  - destruct (bash_blocked _ _ _ _); cbn; [apply no_done_one; discriminate|].
    destruct (file_blocked _ _ _ _); cbn; [apply no_done_one; discriminate|].
    pose proof (close_segment_no_done (c_stream l)) as Hclose.
    destruct (close_segment (c_stream l)) as [st1 closing]. cbn in *.
    apply no_done_app; [exact Hclose|].
    destruct (negb _); [apply no_done_one; discriminate | constructor].
  - pose proof (on_text_no_done clock t (c_stream l)) as Htext.
    destruct (on_text cfg clock t (c_stream l)) as [st1 evs]. exact Htext.
  - constructor.
Qed.

Lemma claude_blocks_no_done bs w l :
  no_done (snd (fst (claude_blocks cfg fs ext interactive bs w l))).
Proof.
  revert w l. induction bs as [|b rest IH]; intros w l; cbn; [constructor|].
  pose proof (claude_block_no_done b w l) as Hb.
  destruct (claude_block cfg fs ext interactive b w l) as [[[w1 l1] evs] [error|]];
    cbn in *; [exact Hb|].
  specialize (IH w1 l1).
  destruct (claude_blocks cfg fs ext interactive rest w1 l1) as [[[w2 l2] evs2] r].
  cbn in *. apply no_done_app; assumption.
Qed.

Lemma claude_event_no_done event w l :
  no_done (snd (fst (claude_event cfg fs ext now interactive event w l))).
Proof.
  unfold claude_event. destruct (stopRequested _); cbn; [constructor|].
  destruct event as [sid content|sid usage|sid]; cbn; try constructor.
  pose proof (claude_blocks_no_done content
                (capture_session_id cfg now (assistant_message sid content) w) l) as Hb.
  destruct (claude_blocks _ _ _ _ _ _ _) as [[[w2 l2] evs] [error|]]; exact Hb.
Qed.

Lemma claude_loop_no_done stream w l :
  no_done (snd (fst (claude_loop cfg fs ext now interactive stream w l))).
Proof.
  revert w l. induction stream as [|[stopCall pull] rest IH]; intros w l; cbn;
    [constructor|].
  destruct pull as [event|error]; cbn; [|constructor].
  pose proof (claude_event_no_done event (deliver_stop stopCall w) l) as He.
  destruct (claude_event _ _ _ _ _ _ _ _) as [[[w1 l1] evs] [| |error]];
    cbn in *; try exact He.
  specialize (IH w1 l1).
  destruct (claude_loop _ _ _ _ _ _ _ _) as [[[w2 l2] evs2] r].
  cbn in *. apply no_done_app; assumption.
Qed.

Lemma codex_event_no_done event w st :
  no_done (snd (fst (codex_event cfg fs ext now event w st))).
Proof.
  unfold codex_event. destruct (stopRequested _); cbn; [constructor|].
  destruct event as [message|message|[item|] clock|thread_id|]; cbn;
    try constructor.
  destruct (item_type item); cbn.
  - destruct (Js.truthy _); [apply no_done_one; discriminate | constructor].
  - destruct (Security.checkCommandSafety _ _ _) as [[|] reason]; cbn.
    + pose proof (close_segment_no_done st) as Hclose.
      destruct (close_segment st) as [st1 closing]. cbn in *.
      apply no_done_app; [exact Hclose | apply no_done_one; discriminate].
    + apply no_done_one. discriminate.
  - destruct (Js.truthy _); cbn; [|constructor].
    pose proof (on_text_no_done clock (item_text item) st) as Htext.
    destruct (on_text cfg clock (item_text item) st) as [st1 evs]. exact Htext.
  - constructor.
Qed.

Lemma codex_loop_no_done stream w st :
  no_done (snd (fst (codex_loop cfg fs ext now stream w st))).
Proof.
  revert w st. induction stream as [|[stopCall pull] rest IH]; intros w st; cbn;
    [constructor|].
  destruct pull as [event|error]; cbn; [|constructor].
  pose proof (codex_event_no_done event (deliver_stop stopCall w) st) as He.
  destruct (codex_event _ _ _ _ _ _ _) as [[[w1 st1] evs] [| |error]];
    cbn in *; try exact He.
  specialize (IH w1 st1).
  destruct (codex_loop _ _ _ _ _ _ _) as [[[w2 st2] evs2] r].
  cbn in *. apply no_done_app; assumption.
Qed.

End TurnFacts.

(** C2 (as amended).  For both runners and every stream: when the turn
    returns (normal completion, interrupt, ask-user break or a swallowed
    cancellation error), the events sent are a run without [done]
    followed by one final [done]; when the turn ends by raising an error
    (a backend failure, a refused tool, a stop requested before the
    start), the runner sends no [done] at all. *)
Theorem done_is_last_when_turn_returns (cfg : Config) (fs : PathLib) (ext : External)
        (now : Date) (interactive : bool) (w : World) :
  (forall stream,
      let r := sendMessageStreamingClaude cfg fs ext now interactive w stream in
      match outcome_of r with
      | Returned _ => exists body, events_of r = (body ++ [st_done])%list /\ no_done body
      | Raised _ => no_done (events_of r)
      end)
  /\ (forall resumable stream,
         let r := sendMessageStreamingCodex cfg fs ext now resumable w stream in
         match outcome_of r with
         | Returned _ => exists body, events_of r = (body ++ [st_done])%list /\ no_done body
         | Raised _ => no_done (events_of r)
         end).
Proof.
  split.
  - intros stream. cbv zeta. unfold sendMessageStreamingClaude.
    destruct (begin_turn now true (session w)) as [s|s]; [|constructor].
    pose proof (claude_loop_no_done cfg fs ext now interactive stream
                  (with_session w s) (claude_start)) as Hloop.
    destruct (claude_loop _ _ _ _ _ _ _ _) as [[[w1 l] evs] exn]. cbn in Hloop.
    destruct (match exn with
              | Some error => claude_catch now l (session w1) error
              | None => (session w1, None)
              end) as [s2 [error|]]; [exact Hloop|].
    destruct (askUserTriggered l); unfold outcome_of, events_of; cbn.
    + exists evs. split; [reflexivity | exact Hloop].
    + exists (evs ++ final_segment cfg (c_stream l))%list.
      split; [rewrite <- app_assoc; reflexivity|].
      apply no_done_app; [exact Hloop | apply final_segment_no_done].
  - intros resumable stream. cbv zeta. unfold sendMessageStreamingCodex.
    destruct (begin_turn now false (session w)) as [s|s]; [|constructor].
    pose proof (codex_loop_no_done cfg fs ext now stream
                  (with_session w (open_thread resumable s)) streaming_start) as Hloop.
    destruct (codex_loop _ _ _ _ _ _ _) as [[[w1 st] evs] exn]. cbn in Hloop.
    destruct (match exn with
              | Some error => codex_catch now (session w1) error
              | None => (session w1, None)
              end) as [s2 [error|]]; [exact Hloop|].
    unfold outcome_of, events_of; cbn.
    exists (evs ++ final_segment cfg st)%list.
    split; [rewrite <- app_assoc; reflexivity|].
    apply no_done_app; [exact Hloop | apply final_segment_no_done].
Qed.

(** C2, as first stated, fails: a backend-B turn whose only event is the
    failure of the turn raises the error of the backend, and the runner
    has then sent no event, hence no [done]. *)
Lemma failed_turn_sends_no_done :
  let r := sendMessageStreaming sample_cfg sample_fs sample_ext 1000 true
             sample_codex_world [] true failed_turn in
  outcome_of r = Raised (Error "model overloaded")
  /\ events_of r = []
  /\ ~ In st_done (events_of r).
Proof. vm_compute. repeat split. intros []. Qed.

Section CancelFacts.
Context (cfg : Config) (fs : PathLib) (ext : External).
Context (now : Date) (interactive : bool).

Lemma stop_processing s :
  _isProcessing s = true -> isQueryRunning s = false ->
  stop s = (set_stopRequested true s, pending).
Proof. intros Hp Hq. unfold stop. rewrite Hq, Hp. reflexivity. Qed.

Lemma begin_turn_stopped controller s :
  stopRequested s = true ->
  exists s', begin_turn now controller s = inr s'
             /\ stopRequested s' = false
             /\ isQueryRunning s' = isQueryRunning s.
Proof.
  intros Hstop. unfold begin_turn.
  destruct (truthy_opt (sessionId s) && negb (negb (isActive s))).
  - rewrite Hstop. eexists. split; [reflexivity|]. destruct s; cbn; auto.
  - replace (stopRequested (set_sessionId None s)) with true
      by (destruct s; cbn in *; congruence).
    eexists. split; [reflexivity|]. destruct s; cbn; auto.
Qed.

Lemma cancelled_before_start w streamA resumable streamB :
  stopRequested (session w) = true ->
  let r := sendMessageStreaming cfg fs ext now interactive w streamA resumable streamB in
  outcome_of r = Raised (Error "Query cancelled")
  /\ events_of r = []
  /\ stopRequested (session (world_of r)) = false
  /\ isQueryRunning (session (world_of r)) = isQueryRunning (session w)
  /\ history (world_of r) = history w.
Proof.
  intros Hstop. cbv zeta.
  unfold sendMessageStreaming, sendMessageStreamingClaude, sendMessageStreamingCodex.
  destruct (assistantMode (session w)).
  - destruct (begin_turn_stopped true _ Hstop) as (s' & -> & Hs & Hq).
    cbn. auto.
  - destruct (begin_turn_stopped false _ Hstop) as (s' & -> & Hs & Hq).
    cbn. auto.
Qed.

End CancelFacts.

(** C4 (as amended).  [stop()] on a session that is processing and whose
    query has not started sets the stop flag and answers "pending"; the
    turn that starts next, on either backend and whatever the backend
    would send, raises the cancellation error at once, clears the stop
    flag and sends no status event at all: no [thinking], [tool] or
    [text], and no [done] either. *)
Theorem stop_while_processing_cancels_turn (cfg : Config) (fs : PathLib)
        (ext : External) (now : Date) (interactive : bool)
        (s : Session) (h : list SavedSession) :
  _isProcessing s = true -> isQueryRunning s = false ->
  snd (stop s) = pending
  /\ stopRequested (fst (stop s)) = true
  /\ (forall streamA resumable streamB,
         let r := sendMessageStreaming cfg fs ext now interactive
                    {| session := fst (stop s); history := h |}
                    streamA resumable streamB in
         outcome_of r = Raised (Error "Query cancelled")
         /\ events_of r = []
         /\ stopRequested (session (world_of r)) = false
         /\ isQueryRunning (session (world_of r)) = false
         /\ history (world_of r) = h).
Proof.
  intros Hp Hq. rewrite (stop_processing s Hp Hq). cbn [fst snd].
  split; [reflexivity|]. split; [destruct s; reflexivity|].
  intros streamA resumable streamB.
  destruct (cancelled_before_start cfg fs ext now interactive
              {| session := set_stopRequested true s; history := h |}
              streamA resumable streamB) as (Hout & Hevs & Hstop & Hrun & Hhist).
  { destruct s; reflexivity. }
  repeat split; try assumption.
  rewrite Hrun. destruct s; cbn in *. exact Hq.
Qed.

(** The theorem at a fresh session that is processing a message. *)
Lemma stop_while_processing_cancels_turn_witness :
  snd (stop processing_session) = pending
  /\ events_of (sendMessageStreaming sample_cfg sample_fs sample_ext 1000 true
                  {| session := fst (stop processing_session); history := [] |}
                  (single_block_A (Some "sid-1") "Hi there!" 5 None) true []) = [].
Proof.
  destruct (stop_while_processing_cancels_turn sample_cfg sample_fs sample_ext 1000 true
              processing_session [] eq_refl eq_refl) as (Hres & _ & Hturn).
  split; [exact Hres|].
  exact (proj1 (proj2 (Hturn (single_block_A (Some "sid-1") "Hi there!" 5 None) true []))).
Defined.

(** C4, as first stated, fails: the cancelled turn does not send [done];
    the status callback is not called at all. *)
Lemma cancelled_turn_sends_no_done :
  let r := sendMessageStreaming sample_cfg sample_fs sample_ext 1000 true
             {| session := fst (stop processing_session); history := [] |}
             (single_block_A (Some "sid-1") "Hi there!" 5 None) true [] in
  snd (stop processing_session) = pending
  /\ outcome_of r = Raised (Error "Query cancelled")
  /\ events_of r <> [st_done]
  /\ ~ In st_done (events_of r).
Proof. vm_compute. repeat split; [discriminate | intros []]. Qed.

Section CatchFacts.
Context (cfg : Config) (fs : PathLib) (ext : External).
Context (now : Date) (interactive : bool).




End CatchFacts.



Section SnapshotFacts.
Context (cfg : Config) (fs : PathLib) (ext : External).
Context (now : Date) (interactive : bool).

Lemma append_empty_r t : String.append t "" = t.
Proof.
  induction t as [|c t IH]; [reflexivity|].
  change (String c (String.append t "") = String c t). rewrite IH. reflexivity.
Qed.

Lemma join_single t : join [t] = t.
Proof. unfold join. cbn [fold_right]. apply append_empty_r. Qed.

Lemma or_else_truthy a b : a <> "" -> Js.or_else a b = a.
Proof. intros H. unfold Js.or_else. apply truthy_true in H. rewrite H. reflexivity. Qed.

Lemma begin_turn_not_stopped controller s :
  stopRequested s = false ->
  exists s', begin_turn now controller s = inl s' /\ stopRequested s' = false.
Proof.
  intros Hstop. unfold begin_turn.
  destruct (truthy_opt (sessionId s) && negb (negb (isActive s))).
  - rewrite Hstop. eexists. split; [reflexivity|]. destruct s; reflexivity.
  - replace (stopRequested (set_sessionId None s)) with false
      by (destruct s; cbn in *; congruence).
    eexists. split; [reflexivity|]. destruct s; reflexivity.
Qed.

Lemma capture_keeps_stop event w :
  stopRequested (session (capture_session_id cfg now event w))
  = stopRequested (session w).
Proof.
  unfold capture_session_id. destruct (_ && _); [|reflexivity].
  cbn. destruct (session w); reflexivity.
Qed.

Lemma open_thread_keeps_stop resumable s :
  stopRequested (open_thread resumable s) = stopRequested s.
Proof.
  unfold open_thread. destruct (_ && _); [|reflexivity]. destruct s; reflexivity.
Qed.

(** The first update of a turn that is already as long as the snapshot
    threshold: one short preview, and the whole text kept as the
    current segment. *)
Lemma on_text_snapshot clock t :
  STREAMING_SYNTHETIC_FALLBACK_MIN_CHARS cfg <= Js.len t ->
  exists st1 preview,
    on_text cfg clock t streaming_start = (st1, [st_text preview 0%nat])
    /\ currentSegmentText st1 = t
    /\ currentSegmentId st1 = 0%nat
    /\ responseParts st1 = [t].
Proof.
  intros Hlen. unfold on_text.
  change (currentSegmentText streaming_start +:+ t) with t.
  change (textCallbackCount streaming_start =? 0)%nat with true.
  apply Z.leb_le in Hlen. rewrite Hlen. cbn [andb].
  eexists. eexists. split; [reflexivity|]. cbn. auto.
Qed.

(** The end of a turn whose current segment is [t]: nothing for an empty
    segment, else the synthetic tail and the closing event. *)
Lemma final_segment_shape st t :
  currentSegmentText st = t -> currentSegmentId st = 0%nat ->
  (t = "" /\ final_segment cfg st = [])
  \/ (t <> "" /\ exists tailTexts,
         final_segment cfg st = (tailTexts ++ [st_segment_end t 0%nat])%list
         /\ Forall (text_of 0%nat) tailTexts).
Proof.
  intros Htext Hid. unfold final_segment. rewrite Htext, Hid.
  destruct t as [|c t']; [left; split; reflexivity|].
  right. split; [discriminate|].
  eexists. split; [reflexivity | apply emitProgressiveTail_texts].
Qed.

Lemma only_segment_end_nil t : only_segment_end t [].
Proof. intros content seg []. Qed.

Lemma only_segment_end_texts t texts closing :
  Forall (text_of 0%nat) texts ->
  closing = [st_done] \/ closing = [st_segment_end t 0%nat; st_done] ->
  only_segment_end t (texts ++ closing).
Proof.
  intros Htexts Hclosing content seg Hin.
  apply in_app_or in Hin as [Hin|Hin].
  - rewrite Forall_forall in Htexts. apply list_elem_of_In in Hin.
    destruct (Htexts _ Hin) as [c Hc]. discriminate Hc.
  - destruct Hclosing as [-> | ->]; cbn in Hin.
    + destruct Hin as [Hin|[]]. discriminate Hin.
    + destruct Hin as [Hin|[Hin|[]]]; [|discriminate Hin].
      injection Hin as <- <-. split; reflexivity.
Qed.

Lemma claude_single_block w sid t clock usage :
  stopRequested (session w) = false ->
  STREAMING_SYNTHETIC_FALLBACK_MIN_CHARS cfg <= Js.len t ->
  exists w1 l preview,
    claude_loop cfg fs ext now interactive (single_block_A sid t clock usage) w claude_start
    = (w1, l, [st_text preview 0%nat], None)
    /\ askUserTriggered l = false
    /\ currentSegmentText (c_stream l) = t
    /\ currentSegmentId (c_stream l) = 0%nat
    /\ responseParts (c_stream l) = [t].
Proof.
  intros Hstop Hlen.
  destruct (on_text_snapshot clock t Hlen) as (st1 & preview & Htext & Hseg & Hid & Hparts).
  unfold single_block_A. cbn [claude_loop deliver_stop].
  unfold claude_event at 1. rewrite Hstop.
  cbn [claude_blocks claude_block claude_start c_stream queryCompleted askUserTriggered].
  rewrite Htext. cbn [askUserTriggered].
  unfold claude_event. rewrite capture_keeps_stop, Hstop.
  cbn [c_stream askUserTriggered queryCompleted].
  eexists. eexists. exists preview. cbn [app].
  split; [reflexivity|]. cbn. auto.
Qed.

Lemma codex_single_block w t clock thread_id :
  stopRequested (session w) = false ->
  t <> "" ->
  STREAMING_SYNTHETIC_FALLBACK_MIN_CHARS cfg <= Js.len t ->
  exists w1 st preview,
    codex_loop cfg fs ext now (single_block_B t clock thread_id) w streaming_start
    = (w1, st, [st_text preview 0%nat], None)
    /\ currentSegmentText st = t
    /\ currentSegmentId st = 0%nat
    /\ responseParts st = [t].
Proof.
  intros Hstop Hne Hlen.
  destruct (on_text_snapshot clock t Hlen) as (st1 & preview & Htext & Hseg & Hid & Hparts).
  unfold single_block_B. cbn [codex_loop deliver_stop].
  unfold codex_event at 1. rewrite Hstop. cbn [item_type item_text].
  apply truthy_true in Hne. rewrite Hne, Htext.
  unfold codex_event. rewrite Hstop.
  eexists. eexists. exists preview. cbn [app].
  split; [reflexivity|]. auto.
Qed.

(** Backend B skips an agent message without text. *)
Lemma codex_single_block_empty w clock thread_id :
  stopRequested (session w) = false ->
  exists w1,
    codex_loop cfg fs ext now (single_block_B "" clock thread_id) w streaming_start
    = (w1, streaming_start, [], None).
Proof.
  intros Hstop. unfold single_block_B. cbn [codex_loop deliver_stop].
  unfold codex_event at 1. rewrite Hstop. cbn [item_type item_text Js.truthy].
  unfold codex_event. rewrite Hstop. eexists. reflexivity.
Qed.

(** The events and the result of the whole turn of backend A. *)
Lemma claude_single_turn w sid t clock usage :
  stopRequested (session w) = false ->
  STREAMING_SYNTHETIC_FALLBACK_MIN_CHARS cfg <= Js.len t ->
  let r := sendMessageStreamingClaude cfg fs ext now interactive w
             (single_block_A sid t clock usage) in
  exists texts closing,
    events_of r = (texts ++ closing)%list
    /\ Forall (text_of 0%nat) texts
    /\ ((t = "" /\ closing = [st_done])
        \/ (t <> "" /\ closing = [st_segment_end t 0%nat; st_done]
            /\ outcome_of r = Returned t)).
Proof.
  intros Hstop Hlen. cbv zeta. unfold sendMessageStreamingClaude.
  destruct (begin_turn_not_stopped true (session w) Hstop) as (s & -> & Hs).
  destruct (claude_single_block (with_session w s) sid t clock usage Hs Hlen)
    as (w1 & l & preview & -> & Hask & Htext & Hid & Hparts).
  rewrite Hask.
  destruct (final_segment_shape (c_stream l) t Htext Hid)
    as [[Hempty ->] | (Hne & tailTexts & -> & Htail)];
    cbn [events_of outcome_of fst snd].
  - exists [st_text preview 0%nat], [st_done]. split; [reflexivity|].
    split; [constructor; [eexists; reflexivity | constructor]|].
    left. split; [exact Hempty | reflexivity].
  - exists (st_text preview 0%nat :: tailTexts), [st_segment_end t 0%nat; st_done].
    split; [cbn [app]; rewrite <- app_assoc; reflexivity|].
    split; [constructor; [eexists; reflexivity | exact Htail]|].
    right. split; [exact Hne|]. split; [reflexivity|].
    rewrite Hparts, join_single, (or_else_truthy _ _ Hne). reflexivity.
Qed.

(** The same for backend B. *)
Lemma codex_single_turn resumable w t clock thread_id :
  stopRequested (session w) = false ->
  STREAMING_SYNTHETIC_FALLBACK_MIN_CHARS cfg <= Js.len t ->
  let r := sendMessageStreamingCodex cfg fs ext now resumable w
             (single_block_B t clock thread_id) in
  exists texts closing,
    events_of r = (texts ++ closing)%list
    /\ Forall (text_of 0%nat) texts
    /\ ((t = "" /\ closing = [st_done])
        \/ (t <> "" /\ closing = [st_segment_end t 0%nat; st_done]
            /\ outcome_of r = Returned t)).
Proof.
  intros Hstop Hlen. cbv zeta. unfold sendMessageStreamingCodex.
  destruct (begin_turn_not_stopped false (session w) Hstop) as (s & -> & Hs).
  assert (Hs' : stopRequested (session (with_session w (open_thread resumable s))) = false)
    by (cbn; rewrite open_thread_keeps_stop; exact Hs).
  destruct t as [|c t'].
  - destruct (codex_single_block_empty _ clock thread_id Hs') as (w1 & ->).
    cbn [events_of outcome_of fst snd].
    exists [], [st_done]. split; [reflexivity|]. split; [constructor|].
    left. split; reflexivity.
  - assert (Hne : String c t' <> "") by discriminate.
    destruct (codex_single_block _ (String c t') clock thread_id Hs' Hne Hlen)
      as (w1 & st & preview & -> & Htext & Hid & Hparts).
    destruct (final_segment_shape st _ Htext Hid)
      as [[Hempty _] | (_ & tailTexts & -> & Htail)]; [discriminate Hempty|].
    cbn [events_of outcome_of fst snd].
    exists (st_text preview 0%nat :: tailTexts),
           [st_segment_end (String c t') 0%nat; st_done].
    split; [cbn [app]; rewrite <- app_assoc; reflexivity|].
    split; [constructor; [eexists; reflexivity | exact Htail]|].
    right. split; [exact Hne|]. split; [reflexivity|].
    rewrite Hparts, join_single, (or_else_truthy _ _ Hne). reflexivity.
Qed.

(** A turn that is cancelled before it starts sends nothing. *)
Lemma stopped_turn_events w :
  stopRequested (session w) = true ->
  (forall stream,
      events_of (sendMessageStreamingClaude cfg fs ext now interactive w stream) = [])
  /\ (forall resumable stream,
         events_of (sendMessageStreamingCodex cfg fs ext now resumable w stream) = []).
Proof.
  intros Hstop. split.
  - intros stream. unfold sendMessageStreamingClaude.
    destruct (begin_turn_stopped now true _ Hstop) as (s' & -> & _). reflexivity.
  - intros resumable stream. unfold sendMessageStreamingCodex.
    destruct (begin_turn_stopped now false _ Hstop) as (s' & -> & _). reflexivity.
Qed.

End SnapshotFacts.

(** C9.  A turn in which the backend sends one text block at least as
    long as the snapshot threshold and then completes: whatever the
    throttle, the threshold and the step are, every [segment_end] event
    of the turn carries exactly the full block (for segment 0); and when
    the turn was not cancelled before its start and the block is not
    empty, the events are [text] events of segment 0 (the short preview
    and the synthetic tail, however many there are), then that
    [segment_end], then [done], and the text returned is the block.
    This holds for both runners. *)
Theorem snapshot_segment_end_is_full_text (cfg : Config) (fs : PathLib) (ext : External)
        (now : Date) (interactive : bool) (w : World) (t : string) (clock : Z) :
  STREAMING_SYNTHETIC_FALLBACK_MIN_CHARS cfg <= Js.len t ->
  (forall sid usage,
      let r := sendMessageStreamingClaude cfg fs ext now interactive w
                 (single_block_A sid t clock usage) in
      only_segment_end t (events_of r)
      /\ (stopRequested (session w) = false -> t <> "" ->
          exists texts,
            events_of r = (texts ++ [st_segment_end t 0%nat; st_done])%list
            /\ Forall (text_of 0%nat) texts
            /\ outcome_of r = Returned t))
  /\ (forall resumable thread_id,
         let r := sendMessageStreamingCodex cfg fs ext now resumable w
                    (single_block_B t clock thread_id) in
         only_segment_end t (events_of r)
         /\ (stopRequested (session w) = false -> t <> "" ->
             exists texts,
               events_of r = (texts ++ [st_segment_end t 0%nat; st_done])%list
               /\ Forall (text_of 0%nat) texts
               /\ outcome_of r = Returned t)).
Proof.
  intros Hlen. split.
  - intros sid usage. cbv zeta. split.
    + destruct (stopRequested (session w)) eqn:Hstop.
      * rewrite (proj1 (stopped_turn_events cfg fs ext now interactive w Hstop)).
        apply only_segment_end_nil.
      * destruct (claude_single_turn cfg fs ext now interactive w sid t clock usage
                    Hstop Hlen) as (texts & closing & -> & Htexts & Hclosing).
        apply only_segment_end_texts; [exact Htexts|]. tauto.
    + intros Hstop Hne.
      destruct (claude_single_turn cfg fs ext now interactive w sid t clock usage
                  Hstop Hlen)
        as (texts & closing & Hevs & Htexts & [[Hempty _] | (_ & -> & Hout)]);
        [congruence|].
      exists texts. split; [exact Hevs|]. split; [exact Htexts | exact Hout].
  - intros resumable thread_id. cbv zeta. split.
    + destruct (stopRequested (session w)) eqn:Hstop.
      * rewrite (proj2 (stopped_turn_events cfg fs ext now interactive w Hstop)).
        apply only_segment_end_nil.
      * destruct (codex_single_turn cfg fs ext now resumable w t clock thread_id
                    Hstop Hlen) as (texts & closing & -> & Htexts & Hclosing).
        apply only_segment_end_texts; [exact Htexts|]. tauto.
    + intros Hstop Hne.
      destruct (codex_single_turn cfg fs ext now resumable w t clock thread_id
                  Hstop Hlen)
        as (texts & closing & Hevs & Htexts & [[Hempty _] | (_ & -> & Hout)]);
        [congruence|].
      exists texts. split; [exact Hevs|]. split; [exact Htexts | exact Hout].
Qed.

(** An empty block reaches the threshold only when the threshold is set
    to zero or less; the turn then ends with an empty segment and sends
    no [segment_end] at all. *)
Lemma empty_block_has_no_segment_end :
  events_of (sendMessageStreamingClaude zero_threshold_cfg sample_fs sample_ext 1000 true
               sample_world (single_block_A (Some "sid-1") "" 5 None))
  = [ st_text "" 0%nat; st_done ].
Proof. vm_compute. reflexivity. Qed.

(** The theorem at a block of 14 characters, threshold 4 and step 3. *)
Lemma snapshot_segment_end_is_full_text_witness :
  exists texts,
    events_of (sendMessageStreamingClaude compact_cfg sample_fs sample_ext 1000 true
                 sample_world (single_block_A (Some "sid-1") "abcdefghijklmn" 5 None))
    = (texts ++ [st_segment_end "abcdefghijklmn" 0%nat; st_done])%list
    /\ Forall (text_of 0%nat) texts
    /\ outcome_of (sendMessageStreamingClaude compact_cfg sample_fs sample_ext 1000 true
                     sample_world (single_block_A (Some "sid-1") "abcdefghijklmn" 5 None))
       = Returned "abcdefghijklmn".
Proof.
  refine (proj2 (proj1 (snapshot_segment_end_is_full_text compact_cfg sample_fs sample_ext
                          1000 true sample_world "abcdefghijklmn" 5 _)
                       (Some "sid-1") None) eq_refl _).
  - vm_compute. discriminate.
  - discriminate.
Defined.

(* --------------------------------------------------------------------- *)
(** *** Refused shell commands                                            *)
(* --------------------------------------------------------------------- *)

Section UnsafeFacts.
Context (cfg : Config) (fs : PathLib) (ext : External).
Context (now : Date) (interactive : bool).

(** Backend A: a Bash tool call whose command is refused sends the tool
    event with the reason and throws, and nothing else happens for that
    block. *)
Lemma unsafe_bash_block toolInput answers reason w l :
  Security.checkCommandSafety cfg fs (command toolInput) = (false, reason) ->
  claude_block cfg fs ext interactive (tool_use_block "Bash" toolInput answers) w l
  = (w, l, [st_tool ("BLOCKED: " ++ reason)],
     Some (Error ("Unsafe command blocked: " ++ reason))).
Proof.
  intros Hcheck. unfold claude_block, bash_blocked.
  change (Js.eqs "Bash" "Bash") with true. cbv iota. rewrite Hcheck. reflexivity.
Qed.

(** Backend B: the same for a completed [command_execution] item. *)
Lemma unsafe_codex_command item clock reason w st :
  stopRequested (session w) = false ->
  item_type item = command_execution ->
  Security.checkCommandSafety cfg fs (item_command item) = (false, reason) ->
  codex_event cfg fs ext now (cx_item_completed (Some item) clock) w st
  = (w, st, [st_tool ("BLOCKED: " ++ reason)],
     throw (Error ("Unsafe command blocked: " ++ reason))).
Proof.
  intros Hstop Htype Hcheck. unfold codex_event.
  rewrite Hstop, Htype, Hcheck. reflexivity.
Qed.

(** The error of a refused command is raised again by the catch block
    of backend B when no stop was requested, and by the one of backend
    A when moreover no result was received and no ask-user wait was
    triggered. *)
Lemma codex_catch_rethrows s error :
  stopRequested s = false ->
  codex_catch now s error = (record_error now error s, Some error).
Proof.
  intros Hstop. unfold codex_catch. rewrite Hstop, andb_false_r. reflexivity.
Qed.

Lemma claude_catch_rethrows l s error :
  queryCompleted l = false -> askUserTriggered l = false -> stopRequested s = false ->
  claude_catch now l s error = (record_error now error s, Some error).
Proof.
  intros Hq Ha Hstop. unfold claude_catch.
  rewrite Hq, Ha, Hstop, andb_false_r. reflexivity.
Qed.

End UnsafeFacts.

Section UnsafeTurns.
Context (cfg : Config) (fs : PathLib) (ext : External).
Context (now : Date) (interactive : bool).

Lemma deliver_stop_false w : deliver_stop false w = w.
Proof. reflexivity. Qed.

Lemma begin_turn_inl_not_stopped controller s0 s :
  begin_turn now controller s0 = inl s -> stopRequested s = false.
Proof.
  unfold begin_turn.
  destruct (truthy_opt (sessionId s0) && negb (negb (isActive s0)));
    destruct (stopRequested _); try discriminate;
    intros H; injection H as <-; destruct s0; reflexivity.
Qed.

Lemma codex_loop_through pre rest w st w1 st1 evs1 :
  codex_runs_through cfg fs ext now pre w st w1 st1 evs1 ->
  codex_loop cfg fs ext now (pre ++ rest)%list w st
  = let '(w2, st2, evs2, r) := codex_loop cfg fs ext now rest w1 st1 in
    (w2, st2, (evs1 ++ evs2)%list, r).
Proof.
  induction 1 as [w st|stopCall event pre w st wa sta evsa wb stb evsb Hev Hrun IH].
  - cbn. destruct (codex_loop cfg fs ext now rest w st) as [[[w2 st2] evs2] r].
    reflexivity.
  - cbn [app codex_loop]. rewrite Hev, IH.
    destruct (codex_loop cfg fs ext now rest wb stb) as [[[w2 st2] evs2] r].
    rewrite app_assoc. reflexivity.
Qed.

Lemma codex_event_go_on_not_stopped event w st w1 st1 evs :
  codex_event cfg fs ext now event w st = (w1, st1, evs, go_on) ->
  stopRequested (session w1) = false.
Proof.
  unfold codex_event. destruct (stopRequested (session w)) eqn:Hstop; [discriminate|].
  destruct event as [message|message|[item|] clock|thread_id|]; try discriminate.
  - destruct (item_type item).
    + intros H. injection H as <- _ _. exact Hstop.
    + destruct (Security.checkCommandSafety _ _ _) as [[|] reason]; cbn; [|discriminate].
      destruct (close_segment st) as [st' closing].
      intros H. injection H as <- _ _. cbn. destruct (session w); exact Hstop.
    + destruct (Js.truthy _).
      * destruct (on_text _ _ _ _) as [st' evs']. intros H. injection H as <- _ _.
        exact Hstop.
      * intros H. injection H as <- _ _. exact Hstop.
    + intros H. injection H as <- _ _. exact Hstop.
  - intros H. injection H as <- _ _. exact Hstop.
  - intros H. injection H as <- _ _. exact Hstop.
Qed.

Lemma codex_through_not_stopped pre w st w1 st1 evs1 :
  codex_runs_through cfg fs ext now pre w st w1 st1 evs1 ->
  stopRequested (session w) = false ->
  stopRequested (session w1) = false.
Proof.
  induction 1 as [w st|stopCall event pre w st wa sta evsa wb stb evsb Hev Hrun IH];
    intros Hstop; [exact Hstop|].
  apply IH. eapply codex_event_go_on_not_stopped. exact Hev.
Qed.

(** Backend B, whole turn: a refused command that the loop reaches always
    ends the turn with the error raised to the caller, right after the
    [tool] event that carries the reason. *)
Lemma codex_unsafe_command_raises resumable w s pre w1 st1 evs1 item clock reason post :
  begin_turn now false (session w) = inl s ->
  codex_runs_through cfg fs ext now pre
    (with_session w (open_thread resumable s)) streaming_start w1 st1 evs1 ->
  item_type item = command_execution ->
  Security.checkCommandSafety cfg fs (item_command item) = (false, reason) ->
  let r := sendMessageStreamingCodex cfg fs ext now resumable w
             (pre ++ (false, yields (cx_item_completed (Some item) clock)) :: post)%list in
  events_of r = (evs1 ++ [st_tool ("BLOCKED: " ++ reason)])%list
  /\ outcome_of r = Raised (Error ("Unsafe command blocked: " ++ reason))
  /\ lastError (session (world_of r))
     = Some (Js.slice0 (Error ("Unsafe command blocked: " ++ reason)) 100).
Proof.
  intros Hbegin Hrun Htype Hcheck. cbv zeta.
  pose proof (begin_turn_inl_not_stopped _ _ _ Hbegin) as Hs.
  assert (Hstop : stopRequested (session w1) = false).
  { eapply codex_through_not_stopped; [exact Hrun|].
    cbn. rewrite open_thread_keeps_stop. exact Hs. }
  unfold sendMessageStreamingCodex. rewrite Hbegin.
  rewrite (codex_loop_through _ _ _ _ _ _ _ Hrun).
  cbn [codex_loop]. rewrite deliver_stop_false.
  rewrite (unsafe_codex_command cfg fs ext now item clock reason w1 st1 Hstop Htype Hcheck).
  rewrite (codex_catch_rethrows now _ _ Hstop).
  cbn [events_of outcome_of world_of fst snd session with_session].
  repeat split.
Qed.

Lemma claude_block_keeps_stop b w l :
  stopRequested (session (fst (fst (fst (claude_block cfg fs ext interactive b w l)))))
  = stopRequested (session w).
Proof.
  destruct b as [thinkingText|toolName toolInput answers|t clock|]; cbn;
    try reflexivity.
  - destruct (bash_blocked _ _ _ _); [reflexivity|].
    destruct (file_blocked _ _ _ _); [reflexivity|].
    destruct (close_segment (c_stream l)) as [st1 closing]. cbn.
    destruct (session w); reflexivity.
  - destruct (on_text cfg clock t (c_stream l)) as [st1 evs]. reflexivity.
Qed.

Lemma claude_blocks_keeps_stop bs w l :
  stopRequested (session (fst (fst (fst (claude_blocks cfg fs ext interactive bs w l)))))
  = stopRequested (session w).
Proof.
  revert w l. induction bs as [|b rest IH]; intros w l; cbn; [reflexivity|].
  pose proof (claude_block_keeps_stop b w l) as Hb.
  destruct (claude_block cfg fs ext interactive b w l) as [[[w1 l1] evs] [error|]];
    cbn in *; [exact Hb|].
  specialize (IH w1 l1).
  destruct (claude_blocks cfg fs ext interactive rest w1 l1) as [[[w2 l2] evs2] r].
  cbn in *. congruence.
Qed.

Lemma claude_blocks_app before rest w l w2 l2 evs2 :
  claude_blocks cfg fs ext interactive before w l = (w2, l2, evs2, None) ->
  claude_blocks cfg fs ext interactive (before ++ rest)%list w l
  = let '(w3, l3, evs3, r) := claude_blocks cfg fs ext interactive rest w2 l2 in
    (w3, l3, (evs2 ++ evs3)%list, r).
Proof.
  revert w l w2 l2 evs2. induction before as [|b before IH]; intros w l w2 l2 evs2 H.
  - cbn in H. injection H as <- <- <-. cbn.
    destruct (claude_blocks cfg fs ext interactive rest w l) as [[[w3 l3] evs3] r].
    reflexivity.
  - cbn in H |- *.
    destruct (claude_block cfg fs ext interactive b w l) as [[[wa la] evsa] [error|]];
      [discriminate|].
    destruct (claude_blocks cfg fs ext interactive before wa la)
      as [[[wb lb] evsb] rb] eqn:Hbefore.
    injection H as <- <- <- ->.
    rewrite (IH _ _ _ _ _ Hbefore).
    destruct (claude_blocks cfg fs ext interactive rest wb lb) as [[[w3 l3] evs3] r].
    rewrite app_assoc. reflexivity.
Qed.

Lemma claude_event_go_on_not_stopped event w l w1 l1 evs :
  claude_event cfg fs ext now interactive event w l = (w1, l1, evs, go_on) ->
  stopRequested (session w1) = false.
Proof.
  unfold claude_event. destruct (stopRequested (session w)) eqn:Hstop; [discriminate|].
  pose proof (capture_keeps_stop cfg now event w) as Hcap. rewrite Hstop in Hcap.
  destruct event as [sid content|sid usage|sid].
  - pose proof (claude_blocks_keeps_stop content
                  (capture_session_id cfg now (assistant_message sid content) w) l) as Hb.
    destruct (claude_blocks _ _ _ _ _ _ _) as [[[w2 l2] evs2] [error|]];
      [discriminate|].
    cbn in Hb. intros H. injection H as <- _ _ _. congruence.
  - intros H. injection H as <- _ _. cbn.
    destruct usage; [|exact Hcap].
    destruct (session (capture_session_id cfg now (result_message sid (Some t)) w));
      exact Hcap.
  - intros H. injection H as <- _ _. exact Hcap.
Qed.

Lemma claude_through_not_stopped pre w l w1 l1 evs1 :
  claude_runs_through cfg fs ext now interactive pre w l w1 l1 evs1 ->
  stopRequested (session w) = false ->
  stopRequested (session w1) = false.
Proof.
  induction 1 as [w l|stopCall event pre w l wa la evsa wb lb evsb Hev Hrun IH];
    intros Hstop; [exact Hstop|].
  apply IH. eapply claude_event_go_on_not_stopped. exact Hev.
Qed.

Lemma claude_loop_through pre rest w l w1 l1 evs1 :
  claude_runs_through cfg fs ext now interactive pre w l w1 l1 evs1 ->
  claude_loop cfg fs ext now interactive (pre ++ rest)%list w l
  = let '(w2, l2, evs2, r) := claude_loop cfg fs ext now interactive rest w1 l1 in
    (w2, l2, (evs1 ++ evs2)%list, r).
Proof.
  induction 1 as [w l|stopCall event pre w l wa la evsa wb lb evsb Hev Hrun IH].
  - cbn. destruct (claude_loop cfg fs ext now interactive rest w l) as [[[w2 l2] evs2] r].
    reflexivity.
  - cbn [app claude_loop]. rewrite Hev, IH.
    destruct (claude_loop cfg fs ext now interactive rest wb lb) as [[[w2 l2] evs2] r].
    rewrite app_assoc. reflexivity.
Qed.

(** Backend A, whole turn: a refused Bash command that the loop reaches
    while no result has been received and no ask-user wait is triggered
    ends the turn with the error raised to the caller, right after the
    [tool] event that carries the reason.  [before] are the blocks of
    the same message that precede the tool call. *)
Lemma claude_unsafe_command_raises
      w s pre w1 l1 evs1 sid before w2 l2 evs2 toolInput answers after reason post :
  let message :=
    assistant_message sid (before ++ tool_use_block "Bash" toolInput answers :: after)%list in
  begin_turn now true (session w) = inl s ->
  claude_runs_through cfg fs ext now interactive pre (with_session w s) claude_start
                      w1 l1 evs1 ->
  claude_blocks cfg fs ext interactive before (capture_session_id cfg now message w1) l1
  = (w2, l2, evs2, None) ->
  queryCompleted l2 = false -> askUserTriggered l2 = false ->
  Security.checkCommandSafety cfg fs (command toolInput) = (false, reason) ->
  let r := sendMessageStreamingClaude cfg fs ext now interactive w
             (pre ++ (false, yields message) :: post)%list in
  events_of r = (evs1 ++ evs2 ++ [st_tool ("BLOCKED: " ++ reason)])%list
  /\ outcome_of r = Raised (Error ("Unsafe command blocked: " ++ reason))
  /\ lastError (session (world_of r))
     = Some (Js.slice0 (Error ("Unsafe command blocked: " ++ reason)) 100).
Proof.
  intros message Hbegin Hrun Hbefore Hq Ha Hcheck. subst message. cbv zeta.
  pose proof (begin_turn_inl_not_stopped _ _ _ Hbegin) as Hs.
  assert (Hstop1 : stopRequested (session w1) = false).
  { eapply claude_through_not_stopped; [exact Hrun | exact Hs]. }
  assert (Hstop2 : stopRequested (session w2) = false).
  { pose proof (claude_blocks_keeps_stop before
                  (capture_session_id cfg now
                     (assistant_message sid
                        (before ++ tool_use_block "Bash" toolInput answers :: after)%list)
                     w1) l1) as Hk.
    rewrite Hbefore in Hk. cbn in Hk. rewrite Hk, capture_keeps_stop. exact Hstop1. }
  unfold sendMessageStreamingClaude. rewrite Hbegin.
  rewrite (claude_loop_through _ _ _ _ _ _ _ Hrun).
  cbn [claude_loop]. rewrite deliver_stop_false.
  unfold claude_event. rewrite Hstop1. cbv iota.
  rewrite (claude_blocks_app _ _ _ _ _ _ _ Hbefore).
  cbn [claude_blocks].
  rewrite (unsafe_bash_block cfg fs ext interactive toolInput answers reason w2 l2 Hcheck).
  rewrite (claude_catch_rethrows now _ _ _ Hq Ha Hstop2).
  cbn [events_of outcome_of world_of fst snd session with_session].
  repeat split.
Qed.

End UnsafeTurns.

(** C1, at the input on which the code departs from the claim.  An
    assistant message of backend A carries the ask-user tool call, whose
    pending request is found, and then the shell command
    [rm /etc/abort.log], which the command check refuses.  The runner
    sends the [tool] event with the block reason and throws; but the
    reason contains "abort" and the ask-user wait is triggered, so the
    catch block swallows the error: the turn returns the waiting text
    after [done], and no error is recorded. *)
Theorem unsafe_command_swallowed_after_ask_user :
  let r := sendMessageStreaming sample_cfg sample_fs sample_ext 1000 true
             sample_world ask_then_rm true [] in
  Security.checkCommandSafety sample_cfg sample_fs "rm /etc/abort.log"
  = (false, "rm target outside allowed paths: /etc/abort.log")
  /\ events_of r
     = [ st_tool "BLOCKED: rm target outside allowed paths: /etc/abort.log"; st_done ]
  /\ outcome_of r = Returned waiting_text
  /\ lastError (session (world_of r)) = None.
Proof. vm_compute. repeat split. Qed.

(* ===================================================================== *)
(** ** Further properties of the session state machine                    *)
(* ===================================================================== *)

(** X1.  [stop()] answers that nothing runs exactly on an idle session, which
    it then leaves alone; it answers "stopped" exactly when the query is
    running; whenever something runs it raises the stop flag and touches
    nothing else.  On a session whose flag was down, [stop()] followed
    by [clearStopRequested()], which is what the /stop, /new and /model
    handlers do, gives the session back as it was. *)
Theorem stop_sets_only_the_flag (s : Session) :
  (snd (stop s) = nothing_running <-> isRunning s = false)
  /\ (snd (stop s) = stopped <-> isQueryRunning s = true)
  /\ (isRunning s = false -> fst (stop s) = s)
  /\ (isRunning s = true -> fst (stop s) = set_stopRequested true s)
  /\ (stopRequested s = false -> clearStopRequested (fst (stop s)) = s).
Proof.
  unfold stop, isRunning, clearStopRequested.
  destruct s as [sid la qs ct lt le let_ lu lm title am cm ce xm xe ac run stopf proc wasint].
  cbn. destruct run, ac, proc; cbn; repeat split; try congruence;
    intros; subst; reflexivity.
Qed.

(** The theorem at a session that is processing a message. *)
Lemma stop_sets_only_the_flag_witness :
  fst (stop processing_session) = set_stopRequested true processing_session
  /\ clearStopRequested (fst (stop processing_session)) = processing_session.
Proof.
  destruct (stop_sets_only_the_flag processing_session) as (_ & _ & _ & Hset & Hclear).
  split; [apply Hset | apply Hclear]; reflexivity.
Defined.

(** X2.  A message that interrupts a turn marks the interrupt and stops the
    query.  [consumeInterruptFlag()] then answers yes once, lowers both
    flags, and the turn of the new message starts instead of being
    cancelled; a second call answers no.  Without the mark the call
    answers no and leaves the stop flag as it is. *)
Theorem interrupt_flag_is_consumed_once (now : Date) (controller : bool) (s : Session) :
  let s1 := fst (stop (markInterrupt s)) in
  let s2 := fst (consumeInterruptFlag s1) in
  snd (consumeInterruptFlag s1) = true
  /\ stopRequested s2 = false
  /\ _wasInterruptedByNewMessage s2 = false
  /\ snd (consumeInterruptFlag s2) = false
  /\ (exists s3, begin_turn now controller s2 = inl s3)
  /\ (_wasInterruptedByNewMessage s = false -> consumeInterruptFlag s = (s, false)).
Proof.
  cbv zeta. unfold stop, markInterrupt, consumeInterruptFlag, begin_turn, isActive.
  destruct s as [sid la qs ct lt le let_ lu lm title am cm ce xm xe ac run stopf proc wasint].
  cbn. destruct run, ac, proc; cbn;
    (repeat split; try reflexivity;
     [ destruct (truthy_opt sid && negb (negb match sid with Some _ => true | None => false end));
       cbn; eexists; reflexivity
     | intros ->; reflexivity ]).
Qed.

(** The theorem at a session that is processing a message. *)
Lemma interrupt_flag_is_consumed_once_witness :
  consumeInterruptFlag processing_session = (processing_session, false).
Proof.
  exact (proj2 (proj2 (proj2 (proj2 (proj2
    (interrupt_flag_is_consumed_once 0 true processing_session))))) eq_refl).
Defined.

Lemma config_changed_refl s : config_changed s s = false.
Proof.
  unfold config_changed. rewrite !bool_decide_eq_true_2 by reflexivity.
  unfold Js.eqs. rewrite String.eqb_refl. reflexivity.
Qed.

Lemma reset_active_twice s : reset_active (reset_active s) = reset_active s.
Proof. destruct s. reflexivity. Qed.

(** What [apply_selection] assigns does not depend on the session: the
    assignments made once are found in place when made again, before or
    after the reset of the active session. *)
Lemma apply_selection_again cfg s selection s1 :
  apply_selection cfg s selection = Some s1 ->
  apply_selection cfg s1 selection = Some s1
  /\ apply_selection cfg (reset_active s1) selection = Some (reset_active s1).
Proof.
  unfold apply_selection.
  destruct (parseCodexPreset cfg selection) as [[m e]|].
  { intros H. injection H as <-. destruct s; split; reflexivity. }
  destruct (parseClaudeAlias selection) as [m|].
  { intros H. injection H as <-. destruct s; split; reflexivity. }
  destruct (Js.eqs _ "claude").
  { intros H. injection H as <-. destruct s; split; reflexivity. }
  destruct (Js.eqs _ "codex").
  { intros H. injection H as <-. destruct s; split; reflexivity. }
  destruct (Js.startsWith _ "claude"); [discriminate|].
  intros H. injection H as <-. destruct s; split; reflexivity.
Qed.

(** X3.  Repeating a model selection changes nothing: the second call returns
    the session of the first, with the same verdict, and after a
    successful first call it answers "Model unchanged", so it does not
    clear a session started in between. *)
Theorem setModel_twice (cfg : Config) (s : Session) (selectionRaw : string) :
  let first := setModel cfg s selectionRaw in
  let second := setModel cfg (fst first) selectionRaw in
  fst second = fst first
  /\ fst (snd second) = fst (snd first)
  /\ (fst (snd first) = true -> snd (snd second) = unchanged_message (fst first)).
Proof.
  unfold setModel. cbv zeta.
  destruct (negb (Js.truthy (Js.trim selectionRaw))) eqn:Hblank.
  { cbn [fst snd]. repeat split. discriminate. }
  destruct (apply_selection cfg s (Js.trim selectionRaw)) as [s1|] eqn:Happly.
  2:{ cbn [fst snd]. rewrite Happly. cbn [fst snd]. repeat split. discriminate. }
  destruct (apply_selection_again cfg s _ s1 Happly) as [Hsame Hreset].
  destruct (negb (config_changed s s1)); cbn [fst snd].
  - rewrite Hsame, config_changed_refl. cbn [negb fst snd]. repeat split.
  - rewrite Hreset, config_changed_refl. cbn [negb fst snd]. repeat split.
Qed.

(** X4.  [setModel] never touches the flags of the turn in progress, the
    abort controller, the conversation title, the last message or the
    Claude effort, whatever the selection is. *)
Theorem setModel_keeps_turn_flags (cfg : Config) (s : Session) (selectionRaw : string) :
  let s' := fst (setModel cfg s selectionRaw) in
  isQueryRunning s' = isQueryRunning s
  /\ _isProcessing s' = _isProcessing s
  /\ stopRequested s' = stopRequested s
  /\ _wasInterruptedByNewMessage s' = _wasInterruptedByNewMessage s
  /\ abortController s' = abortController s
  /\ conversationTitle s' = conversationTitle s
  /\ lastMessage s' = lastMessage s
  /\ claudeEffort s' = claudeEffort s.
Proof.
  unfold setModel. cbv zeta.
  destruct (negb (Js.truthy (Js.trim selectionRaw))); [cbn; repeat split|].
  destruct (apply_selection cfg s (Js.trim selectionRaw)) as [s1|] eqn:Happly;
    [|cbn; repeat split].
  apply apply_selection_shape in Happly.
  destruct (negb (config_changed s s1)); cbn [fst];
    destruct Happly; destruct s; cbn; repeat split.
Qed.

(** X5.  The name [modelDisplay] shows for the three canonical models is
    accepted by [setModel] and selects the configuration that is already
    active: the session is returned as it is with "Model unchanged". *)
Theorem modelDisplay_is_a_valid_selection (cfg : Config) (s : Session) :
  match assistantMode s with
  | codex => codexModel s = "gpt-5.3-codex"
  | claude => claudeModel s = "claude-opus-4-6" \/ claudeModel s = "claude-sonnet-4-5"
  end ->
  setModel cfg s (modelDisplay s) = (s, (true, unchanged_message s)).
Proof.
  intros Hcanonical.
  assert (apply_selection cfg s (Js.trim (modelDisplay s)) = Some s
          /\ Js.truthy (Js.trim (modelDisplay s)) = true) as [Happly Hshown].
  { destruct s as [sid la qs ct lt le let_ lu lm title am cm ce xm xe ac run stopf proc wasint].
    cbn [assistantMode codexModel claudeModel] in Hcanonical. destruct am.
    - destruct Hcanonical as [-> | ->]; split; vm_compute; reflexivity.
    - subst xm. destruct xe; split; vm_compute; reflexivity. }
  unfold setModel. cbv zeta.
  rewrite Happly, Hshown, config_changed_refl. reflexivity.
Qed.

(** The theorem at the session the constructor builds from the defaults. *)
Lemma modelDisplay_is_a_valid_selection_witness :
  setModel sample_cfg (initial_session sample_cfg) "opus 4.6"
  = (initial_session sample_cfg, (true, "Model unchanged: opus 4.6 (CLAUDE)")).
Proof.
  exact (modelDisplay_is_a_valid_selection sample_cfg (initial_session sample_cfg)
           (or_introl eq_refl)).
Defined.

(* ===================================================================== *)
(** ** Further properties of the saved history                            *)
(* ===================================================================== *)

Section HistoryResume.
Context (cfg : Config) (now : Date).

Lemma find_unique_id h e :
  NoDup (map session_id h) -> In e h ->
  List.find (fun x => Js.eqs (session_id x) (session_id e)) h = Some e.
Proof.
  induction h as [|a h IH]; intros Hnd Hin; [destruct Hin|].
  cbn in Hnd. apply NoDup_cons in Hnd as [Hnotin Hnd].
  cbn. destruct (Js.eqs (session_id a) (session_id e)) eqn:Heq.
  - apply eqs_true in Heq. destruct Hin as [->|Hin]; [reflexivity|].
    exfalso. apply Hnotin. rewrite Heq. apply list_elem_of_In.
    apply List.in_map. exact Hin.
  - destruct Hin as [->|Hin].
    + apply eqs_false in Heq. congruence.
    + apply IH; assumption.
Qed.

(** The test of [getSessionList] and the directory test of
    [resumeSession] agree on every entry. *)
Lemma listed_iff_in_scope e :
  negb (truthy_opt (working_dir e)) || bool_decide (working_dir e = Some (WORKING_DIR cfg))
  = match working_dir e with
    | Some dir => negb (Js.truthy dir && negb (Js.eqs dir (WORKING_DIR cfg)))
    | None => true
    end.
Proof.
  destruct (working_dir e) as [dir|]; [|reflexivity]. cbn.
  destruct (Js.eqs dir (WORKING_DIR cfg)) eqn:Heq.
  - apply eqs_true in Heq. subst dir.
    rewrite bool_decide_eq_true_2 by reflexivity.
    rewrite orb_true_r, andb_false_r. reflexivity.
  - apply eqs_false in Heq.
    rewrite bool_decide_eq_false_2 by congruence.
    rewrite orb_false_r, andb_true_r. reflexivity.
Qed.

(** X6.  When the ids of the session file are distinct, the entries
    [getSessionList] shows are exactly the entries of the file that
    [resumeSession] accepts, and resuming a listed entry restores that
    very entry. *)
Theorem listed_sessions_are_the_resumable_ones
        (s : Session) (h : list SavedSession) (e : SavedSession) :
  NoDup (map session_id h) ->
  In e h ->
  (In e (getSessionList cfg h)
   <-> fst (snd (resumeSession cfg now s h (session_id e))) = true)
  /\ (In e (getSessionList cfg h) ->
      resumeSession cfg now s h (session_id e)
      = (restore now s e, (true, resumed_message (title e)))).
Proof.
  intros Hnd Hin.
  unfold resumeSession. rewrite (find_unique_id h e Hnd Hin).
  unfold getSessionList.
  rewrite <- !list_elem_of_In, list_elem_of_filter, list_elem_of_In.
  rewrite listed_iff_in_scope.
  destruct (working_dir e) as [dir|]; cbn.
  - destruct (Js.truthy dir && negb (Js.eqs dir (WORKING_DIR cfg))); cbn; split.
    + split; [intros [Hf _]; exact (False_ind _ Hf) | discriminate].
    + intros [Hf _]. destruct Hf.
    + split; [reflexivity | intros _; split; [exact I | exact Hin]].
    + reflexivity.
  - split; [|reflexivity].
    split; [reflexivity | intros _; split; [exact I | exact Hin]].
Qed.

(** X7.  [resumeLast] on a file with distinct ids: it fails exactly when no
    entry belongs to this working directory, and otherwise restores the
    first such entry of the file. *)
Theorem resumeLast_restores_first_listed (s : Session) (h : list SavedSession) :
  NoDup (map session_id h) ->
  match getSessionList cfg h with
  | [] => resumeLast cfg now s h = (s, (false, "Nessuna sessione salvata"))
  | first :: _ =>
      resumeLast cfg now s h
      = (restore now s first, (true, resumed_message (title first)))
  end.
Proof.
  intros Hnd. unfold resumeLast.
  destruct (getSessionList cfg h) as [|first rest] eqn:Hlist; [reflexivity|].
  assert (In first (getSessionList cfg h)) as Hlisted by (rewrite Hlist; left; reflexivity).
  assert (In first h) as Hin.
  { unfold getSessionList in Hlisted.
    apply list_elem_of_In, list_elem_of_filter in Hlisted as [_ Hin].
    apply list_elem_of_In. exact Hin. }
  unfold resumeSession. rewrite (find_unique_id h first Hnd Hin).
  unfold getSessionList in Hlisted.
  apply list_elem_of_In, list_elem_of_filter in Hlisted as [Hscope _].
  rewrite listed_iff_in_scope in Hscope.
  destruct (working_dir first) as [dir|]; [|reflexivity].
  destruct (Js.truthy dir && negb (Js.eqs dir (WORKING_DIR cfg))); [destruct Hscope|].
  reflexivity.
Qed.

(** X8.  A session saved under an id the file does not hold yet goes to the
    front of the file, so [resumeLast] resumes it: same id, same
    assistant, same model. *)
Theorem new_session_is_resumed_last
        (at_ : Date) (s later : Session) (h : list SavedSession) (id : string) :
  sessionId s = Some id -> id <> "" -> ~ In id (map session_id h) ->
  let r := resumeLast cfg now later (saveSession cfg at_ s h) in
  r = (restore now later (newSession cfg at_ s id),
       (true, resumed_message (title (newSession cfg at_ s id))))
  /\ sessionId (fst r) = Some id
  /\ assistantMode (fst r) = assistantMode s.
Proof.
  intros Hid Hne Hnew. cbv zeta.
  assert (saveSession cfg at_ s h
          = newSession cfg at_ s id :: take 4 h) as Hsaved.
  { rewrite (saveSession_with_id cfg at_ s h id Hid Hne).
    destruct (findIndex (fun e => Js.eqs (session_id e) id) h) as [i|] eqn:Hfind;
      [|reflexivity].
    exfalso. apply findIndex_Some in Hfind as (x & Hx & Heq).
    apply eqs_true in Heq. apply Hnew. rewrite <- Heq.
    apply List.in_map. apply list_elem_of_In. eapply list_elem_of_lookup_2. exact Hx. }
  rewrite Hsaved.
  assert (resumeLast cfg now later (newSession cfg at_ s id :: take 4 h)
          = (restore now later (newSession cfg at_ s id),
             (true, resumed_message (title (newSession cfg at_ s id))))) as Hresume.
  { unfold resumeLast, getSessionList.
    rewrite filter_cons. cbn [working_dir newSession].
    rewrite bool_decide_eq_true_2 by reflexivity.
    rewrite orb_true_r.
    destruct (decide (Is_true true)) as [_|Hno]; [|exfalso; apply Hno; exact I].
    unfold resumeSession. cbn [List.find session_id newSession].
    replace (Js.eqs id id) with true by (symmetry; apply eqs_true; reflexivity).
    change (working_dir (newSession cfg at_ s id)) with (Some (WORKING_DIR cfg)).
    cbv beta iota.
    replace (Js.eqs (WORKING_DIR cfg) (WORKING_DIR cfg)) with true
      by (symmetry; apply eqs_true; reflexivity).
    destruct (Js.truthy (WORKING_DIR cfg)); reflexivity. }
  rewrite Hresume. split; [reflexivity|]. cbn [fst].
  destruct (restore_identity now later (newSession cfg at_ s id)) as (Hsid & _ & _).
  split; [exact Hsid|].
  unfold restore. cbn [assistant model newSession codex_reasoning_effort].
  destruct (Js.truthy (active_model s)); destruct (assistantMode s) eqn:Hmode;
    destruct later; cbn; try rewrite Hmode; reflexivity.
Qed.

End HistoryResume.

(** The theorem on a file of four sessions with distinct ids. *)
Lemma listed_sessions_are_the_resumable_ones_witness :
  fst (snd (resumeSession sample_cfg 0 (initial_session sample_cfg) four_entries "c")) = true.
Proof.
  refine (proj1 (proj1 (listed_sessions_are_the_resumable_ones sample_cfg 0
                   (initial_session sample_cfg) four_entries
                   {| session_id := "c"; saved_at := 0; working_dir := Some "/home/bot";
                      title := "t"; assistant := Some claude;
                      model := Some "claude-opus-4-6";
                      codex_reasoning_effort := None |} _ _)) _).
  - repeat (constructor; [rewrite ?list_elem_of_In; cbn; intuition discriminate|]).
    constructor.
  - cbn. right; right; left; reflexivity.
  - vm_compute. right; right; left; reflexivity.
Defined.

(** The theorem on the same file: the first entry is restored. *)
Lemma resumeLast_restores_first_listed_witness :
  match getSessionList sample_cfg four_entries with
  | [] => resumeLast sample_cfg 0 (initial_session sample_cfg) four_entries
          = (initial_session sample_cfg, (false, "Nessuna sessione salvata"))
  | first :: _ =>
      resumeLast sample_cfg 0 (initial_session sample_cfg) four_entries
      = (restore 0 (initial_session sample_cfg) first,
         (true, resumed_message (title first)))
  end.
Proof.
  apply (resumeLast_restores_first_listed sample_cfg 0
           (initial_session sample_cfg) four_entries).
  repeat (constructor; [rewrite ?list_elem_of_In; cbn; intuition discriminate|]).
  constructor.
Defined.

(** The theorem for a fifth session saved to that file. *)
Lemma new_session_is_resumed_last_witness :
  sessionId (fst (resumeLast sample_cfg 9 (initial_session sample_cfg)
                    (saveSession sample_cfg 7 (with_id "e" (initial_session sample_cfg))
                       four_entries)))
  = Some "e".
Proof.
  apply (new_session_is_resumed_last sample_cfg 9 7
           (with_id "e" (initial_session sample_cfg)) (initial_session sample_cfg)
           four_entries "e").
  - reflexivity.
  - discriminate.
  - cbn. intuition discriminate.
Defined.

(* ===================================================================== *)
(** ** Invariants of a turn                                               *)
(* ===================================================================== *)

Lemma sapp_assoc (a b c : string) :
  String.append (String.append a b) c = String.append a (String.append b c).
Proof.
  induction a as [|x a IH]; [reflexivity|].
  change (String x (String.append (String.append a b) c)
          = String x (String.append a (String.append b c))).
  f_equal. exact IH.
Qed.

Lemma sapp_inj_l (p a b : string) : String.append p a = String.append p b -> a = b.
Proof.
  induction p as [|c p IH]; [intros H; exact H|].
  change (String c (String.append p a) = String c (String.append p b) -> a = b).
  intros H. injection H as H. apply IH. exact H.
Qed.

Lemma join_app (a b : list string) :
  join (a ++ b)%list = String.append (join a) (join b).
Proof.
  induction a as [|x a IH]; [reflexivity|].
  change (String.append x (join (a ++ b)%list)
          = String.append (String.append x (join a)) (join b)).
  rewrite IH, sapp_assoc. reflexivity.
Qed.

Lemma prefix_nil_l (s : string) : String.prefix "" s = true.
Proof. destruct s; reflexivity. Qed.

Lemma prefix_refl (s : string) : String.prefix s s = true.
Proof.
  induction s as [|c s IH]; [reflexivity|].
  cbn. destruct (Ascii.ascii_dec c c); [exact IH|congruence].
Qed.

Lemma prefix_trans (a b c : string) :
  String.prefix a b = true -> String.prefix b c = true -> String.prefix a c = true.
Proof.
  revert a b. induction c as [|z c IH]; intros a b Hab Hbc.
  - destruct b; [|discriminate]. destruct a; [reflexivity|discriminate].
  - destruct a as [|x a]; [reflexivity|].
    destruct b as [|y b]; [discriminate|].
    cbn in *. destruct (Ascii.ascii_dec x y); [subst y|discriminate].
    destruct (Ascii.ascii_dec x z); [|discriminate].
    eapply IH; eassumption.
Qed.

Lemma prefix_append (a d : string) : String.prefix a (String.append a d) = true.
Proof.
  induction a as [|x a IH]; [apply prefix_nil_l|].
  change (String.append (String x a) d) with (String x (String.append a d)).
  cbn. destruct (Ascii.ascii_dec x x); [exact IH|congruence].
Qed.

Lemma prefix_substring (n : nat) (s : string) :
  String.prefix (String.substring 0 n s) s = true.
Proof.
  revert n. induction s as [|c s IH]; intros [|n]; cbn; try reflexivity.
  destruct (Ascii.ascii_dec c c); [apply IH|congruence].
Qed.

Lemma startsWith_slice0 (s : string) (n : Z) : Js.startsWith s (Js.slice0 s n) = true.
Proof. unfold Js.startsWith, Js.slice0. apply prefix_substring. Qed.

Lemma segment_contents_app (a b : list StatusEvent) :
  segment_contents (a ++ b)%list = (segment_contents a ++ segment_contents b)%list.
Proof.
  induction a as [|e a IH]; [reflexivity|].
  destruct e; cbn; rewrite IH; reflexivity.
Qed.

Lemma seg_trace_app n t evs1 n1 t1 evs2 n2 t2 :
  seg_trace n t evs1 n1 t1 -> seg_trace n1 t1 evs2 n2 t2 ->
  seg_trace n t (evs1 ++ evs2)%list n2 t2.
Proof.
  induction 1; intros Hrest; cbn; eauto using seg_trace.
Qed.

(** In a trace, the text of the open segment is a prefix of what the
    next [segment_end] carries. *)
Lemma seg_trace_closing n t evs n' t' full :
  seg_trace n t evs n' t' -> closing_text evs = Some full ->
  Js.startsWith full t = true.
Proof.
  induction 1 as [n t|n t d evs n' t' _ IH|n t c evs n' t' Hc _ IH
                 |n t evs n' t' Ht _ IH|n t c evs n' t' _ IH
                 |n t c evs n' t' _ IH|n t evs n' t' _ IH]; cbn; intros Hclose.
  - discriminate.
  - eapply prefix_trans; [apply prefix_append|exact (IH Hclose)].
  - exact (IH Hclose).
  - injection Hclose as <-. apply prefix_refl.
  - exact (IH Hclose).
  - exact (IH Hclose).
  - exact (IH Hclose).
Qed.

Lemma seg_trace_ok n t evs n' t' :
  seg_trace n t evs n' t' -> segments_ok n evs = true.
Proof.
  induction 1 as [n t|n t d evs n' t' _ IH|n t c evs n' t' Hc Htr IH
                 |n t evs n' t' Ht _ IH|n t c evs n' t' _ IH
                 |n t c evs n' t' _ IH|n t evs n' t' _ IH]; cbn; try assumption.
  - reflexivity.
  - rewrite Nat.eqb_refl, IH, andb_true_r. cbn.
    destruct (closing_text evs) as [full|] eqn:Hclose; [|reflexivity].
    eapply prefix_trans; [exact Hc|].
    exact (seg_trace_closing _ _ _ _ _ _ Htr Hclose).
  - rewrite Nat.eqb_refl, Ht, IH. reflexivity.
Qed.

Lemma seg_trace_texts n t texts evs n' t' :
  Forall (fun e => exists content,
              e = st_text content n /\ Js.startsWith t content = true) texts ->
  seg_trace n t evs n' t' ->
  seg_trace n t (texts ++ evs)%list n' t'.
Proof.
  induction 1 as [|e texts (content & -> & Hc) _ IH]; intros Htr; cbn; [exact Htr|].
  apply tr_text; [exact Hc|]. apply IH. exact Htr.
Qed.

Lemma tail_loop_prefixes step Hstep fullText segmentId end_ :
  Forall (fun e => exists content,
              e = st_text content segmentId /\ Js.startsWith fullText content = true)
         (tail_loop step Hstep fullText segmentId end_).
Proof.
  funelim (tail_loop step Hstep fullText segmentId end_).
  - constructor; [|assumption].
    eexists. split; [reflexivity|apply startsWith_slice0].
  - constructor.
Qed.

Section TurnInvariants.
Context (cfg : Config) (fs : PathLib) (ext : External).
Context (now : Date) (interactive : bool).

Lemma emitProgressiveTail_prefixes st fullText segmentId :
  Forall (fun e => exists content,
              e = st_text content segmentId /\ Js.startsWith fullText content = true)
         (emitProgressiveTail cfg st fullText segmentId).
Proof.
  unfold emitProgressiveTail.
  destruct (_ <? _); [constructor|].
  destruct (Z_lt_dec _ _); [apply tail_loop_prefixes|constructor].
Qed.

Lemma on_text_trace clock t st st1 evs :
  on_text cfg clock t st = (st1, evs) ->
  seg_trace (currentSegmentId st) (currentSegmentText st) evs
            (currentSegmentId st1) (currentSegmentText st1).
Proof.
  unfold on_text. intros H. apply (tr_grow _ _ t).
  destruct (_ && _).
  - injection H as <- <-. cbn.
    apply tr_text; [apply startsWith_slice0|apply tr_nil].
  - destruct (_ || _); injection H as <- <-; cbn.
    + apply tr_text; [apply prefix_refl|apply tr_nil].
    + apply tr_nil.
Qed.

Lemma close_segment_trace st st1 evs :
  close_segment st = (st1, evs) ->
  seg_trace (currentSegmentId st) (currentSegmentText st) evs
            (currentSegmentId st1) (currentSegmentText st1).
Proof.
  unfold close_segment. destruct (Js.truthy (currentSegmentText st)) eqn:Ht;
    intros H; injection H as <- <-; cbn.
  - apply tr_end; [exact Ht|apply tr_nil].
  - apply tr_nil.
Qed.

Lemma final_segment_trace st :
  exists n' t',
    seg_trace (currentSegmentId st) (currentSegmentText st)
              (final_segment cfg st ++ [st_done])%list n' t'.
Proof.
  unfold final_segment. destruct (Js.truthy (currentSegmentText st)) eqn:Ht.
  - exists (S (currentSegmentId st)), "".
    rewrite <- app_assoc. apply seg_trace_texts; [apply emitProgressiveTail_prefixes|].
    cbn. apply tr_end; [exact Ht|]. apply tr_done, tr_nil.
  - exists (currentSegmentId st), (currentSegmentText st). cbn. apply tr_done, tr_nil.
Qed.

Lemma on_text_account clock t st st1 evs closed :
  on_text cfg clock t st = (st1, evs) ->
  text_account st closed ->
  text_account st1 (String.append closed (join (segment_contents evs))).
Proof.
  unfold text_account, on_text. intros H Hacc.
  assert (segment_contents evs = []
          /\ responseParts st1 = (responseParts st ++ [t])%list
          /\ currentSegmentText st1 = String.append (currentSegmentText st) t)
    as (-> & -> & ->).
  { destruct (_ && _); [injection H as <- <-; cbn; auto|].
    destruct (_ || _); injection H as <- <-; cbn; auto. }
  rewrite join_app, join_single, Hacc. cbn [join fold_right].
  rewrite append_empty_r, sapp_assoc. reflexivity.
Qed.

Lemma close_segment_account st st1 evs closed :
  close_segment st = (st1, evs) ->
  text_account st closed ->
  text_account st1 (String.append closed (join (segment_contents evs))).
Proof.
  unfold text_account, close_segment.
  destruct (Js.truthy (currentSegmentText st)); intros H Hacc;
    injection H as <- <-; cbn [responseParts currentSegmentText segment_contents].
  - rewrite join_single, Hacc, append_empty_r. reflexivity.
  - cbn [join fold_right]. rewrite append_empty_r. exact Hacc.
Qed.

(** *** What the loops keep *)

Section LoopFrame.
Context {A : Type} (f : Session -> A).
Hypothesis f_sessionId : forall v s, f (set_sessionId v s) = f s.
Hypothesis f_currentTool : forall v s, f (set_currentTool v s) = f s.
Hypothesis f_lastTool : forall v s, f (set_lastTool v s) = f s.
Hypothesis f_lastUsage : forall v s, f (set_lastUsage v s) = f s.
Hypothesis f_stopRequested : forall v s, f (set_stopRequested v s) = f s.

Lemma frame_deliver_stop stopCall w :
  f (session (deliver_stop stopCall w)) = f (session w).
Proof.
  unfold deliver_stop, stop. destruct stopCall; [|reflexivity].
  destruct (_ && _); cbn; [apply f_stopRequested|].
  destruct (isQueryRunning _); cbn; [apply f_stopRequested|].
  destruct (_isProcessing _); cbn; [apply f_stopRequested|reflexivity].
Qed.

Lemma frame_capture event w :
  f (session (capture_session_id cfg now event w)) = f (session w).
Proof.
  unfold capture_session_id. destruct (_ && _); [|reflexivity].
  cbn. apply f_sessionId.
Qed.

Lemma frame_claude_block b w l :
  f (session (fst (fst (fst (claude_block cfg fs ext interactive b w l)))))
  = f (session w).
Proof.
  destruct b as [thinkingText|toolName toolInput answers|t clock|]; cbn;
    try reflexivity.
  - destruct (bash_blocked _ _ _ _); [reflexivity|].
    destruct (file_blocked _ _ _ _); [reflexivity|].
    destruct (close_segment (c_stream l)) as [st1 closing]. cbn.
    rewrite f_lastTool, f_currentTool. reflexivity.
  - destruct (on_text cfg clock t (c_stream l)) as [st1 evs]. reflexivity.
Qed.

Lemma frame_claude_blocks bs w l :
  f (session (fst (fst (fst (claude_blocks cfg fs ext interactive bs w l)))))
  = f (session w).
Proof.
  revert w l. induction bs as [|b rest IH]; intros w l; cbn; [reflexivity|].
  pose proof (frame_claude_block b w l) as Hb.
  destruct (claude_block cfg fs ext interactive b w l) as [[[w1 l1] evs] [error|]];
    cbn in *; [exact Hb|].
  specialize (IH w1 l1).
  destruct (claude_blocks cfg fs ext interactive rest w1 l1) as [[[w2 l2] evs2] r].
  cbn in *. congruence.
Qed.

Lemma frame_claude_event event w l :
  f (session (fst (fst (fst (claude_event cfg fs ext now interactive event w l)))))
  = f (session w).
Proof.
  unfold claude_event. destruct (stopRequested (session w)); [reflexivity|].
  pose proof (frame_capture event w) as Hcap.
  destruct event as [sid content|sid usage|sid].
  - pose proof (frame_claude_blocks content
                  (capture_session_id cfg now (assistant_message sid content) w) l) as Hb.
    destruct (claude_blocks _ _ _ _ _ _ _) as [[[w2 l2] evs2] [error|]];
      cbn in *; congruence.
  - cbn. destruct usage; [rewrite f_lastUsage|]; exact Hcap.
  - exact Hcap.
Qed.

Lemma frame_claude_loop stream w l :
  f (session (fst (fst (fst (claude_loop cfg fs ext now interactive stream w l)))))
  = f (session w).
Proof.
  revert w l. induction stream as [|[stopCall pull] rest IH]; intros w l; cbn;
    [reflexivity|].
  pose proof (frame_deliver_stop stopCall w) as Hstop.
  destruct pull as [event|error]; [|exact Hstop].
  pose proof (frame_claude_event event (deliver_stop stopCall w) l) as Hev.
  destruct (claude_event _ _ _ _ _ _ _ _) as [[[w1 l1] evs] [| |error]];
    cbn in *; try congruence.
  specialize (IH w1 l1).
  destruct (claude_loop cfg fs ext now interactive rest w1 l1) as [[[w2 l2] evs2] r].
  cbn in *. congruence.
Qed.

Lemma frame_codex_event event w st :
  f (session (fst (fst (fst (codex_event cfg fs ext now event w st)))))
  = f (session w).
Proof.
  unfold codex_event. destruct (stopRequested (session w)); [reflexivity|].
  destruct event as [message|message|[item|] clock|thread_id|]; try reflexivity.
  - destruct (item_type item); try reflexivity.
    + destruct (Security.checkCommandSafety cfg fs (item_command item)) as [isSafe reason].
      destruct (negb isSafe); [reflexivity|].
      destruct (close_segment st) as [st1 closing]. cbn.
      rewrite f_lastTool, f_currentTool. reflexivity.
    + destruct (Js.truthy (item_text item)); [|reflexivity].
      destruct (on_text cfg clock (item_text item) st) as [st1 evs]. reflexivity.
  - cbn. destruct (truthy_opt thread_id); [|reflexivity].
    cbn. apply f_sessionId.
Qed.

Lemma frame_codex_loop stream w st :
  f (session (fst (fst (fst (codex_loop cfg fs ext now stream w st)))))
  = f (session w).
Proof.
  revert w st. induction stream as [|[stopCall pull] rest IH]; intros w st; cbn;
    [reflexivity|].
  pose proof (frame_deliver_stop stopCall w) as Hstop.
  destruct pull as [event|error]; [|exact Hstop].
  pose proof (frame_codex_event event (deliver_stop stopCall w) st) as Hev.
  destruct (codex_event _ _ _ _ _ _ _) as [[[w1 st1] evs] [| |error]];
    cbn in *; try congruence.
  specialize (IH w1 st1).
  destruct (codex_loop cfg fs ext now rest w1 st1) as [[[w2 st2] evs2] r].
  cbn in *. congruence.
Qed.

End LoopFrame.

(** *** The normalizer through the loops *)

Lemma steps_none st : normalizer_steps st [] st.
Proof.
  split; [apply tr_nil|]. intros closed H. cbn [segment_contents join fold_right].
  rewrite append_empty_r. exact H.
Qed.

Lemma steps_app st evs1 st1 evs2 st2 :
  normalizer_steps st evs1 st1 -> normalizer_steps st1 evs2 st2 ->
  normalizer_steps st (evs1 ++ evs2)%list st2.
Proof.
  intros [Htr1 Hacc1] [Htr2 Hacc2]. split; [eapply seg_trace_app; eassumption|].
  intros closed H. rewrite segment_contents_app, join_app, <- sapp_assoc.
  apply Hacc2, Hacc1, H.
Qed.

Lemma steps_thinking st content : normalizer_steps st [st_thinking content] st.
Proof.
  split; [apply tr_thinking, tr_nil|]. intros closed H.
  cbn [segment_contents join fold_right]. rewrite append_empty_r. exact H.
Qed.

Lemma steps_tool st content : normalizer_steps st [st_tool content] st.
Proof.
  split; [apply tr_tool, tr_nil|]. intros closed H.
  cbn [segment_contents join fold_right]. rewrite append_empty_r. exact H.
Qed.

Lemma steps_on_text clock t st st1 evs :
  on_text cfg clock t st = (st1, evs) -> normalizer_steps st evs st1.
Proof.
  intros H. split; [eapply on_text_trace; exact H|].
  intros closed Hacc. eapply on_text_account; eassumption.
Qed.

Lemma steps_close_segment st st1 evs :
  close_segment st = (st1, evs) -> normalizer_steps st evs st1.
Proof.
  intros H. split; [eapply close_segment_trace; exact H|].
  intros closed Hacc. eapply close_segment_account; eassumption.
Qed.

Lemma steps_claude_block b w l w1 l1 evs r :
  claude_block cfg fs ext interactive b w l = (w1, l1, evs, r) ->
  normalizer_steps (c_stream l) evs (c_stream l1).
Proof.
  destruct b as [thinkingText|toolName toolInput answers|t clock|]; cbn.
  - intros H. injection H as <- <- <- <-.
    destruct (Js.truthy thinkingText); [apply steps_thinking|apply steps_none].
  - destruct (bash_blocked _ _ _ _).
    { intros H. injection H as <- <- <- <-. apply steps_tool. }
    destruct (file_blocked _ _ _ _).
    { intros H. injection H as <- <- <- <-. apply steps_tool. }
    destruct (close_segment (c_stream l)) as [st1 closing] eqn:Hclose.
    intros H. injection H as <- <- <- <-. cbn [c_stream].
    eapply steps_app; [eapply steps_close_segment; exact Hclose|].
    destruct (negb _); [apply steps_tool|apply steps_none].
  - destruct (on_text cfg clock t (c_stream l)) as [st1 evs1] eqn:Htext.
    intros H. injection H as <- <- <- <-. cbn [c_stream].
    eapply steps_on_text. exact Htext.
  - intros H. injection H as <- <- <- <-. apply steps_none.
Qed.

Lemma steps_claude_blocks bs w l w1 l1 evs r :
  claude_blocks cfg fs ext interactive bs w l = (w1, l1, evs, r) ->
  normalizer_steps (c_stream l) evs (c_stream l1).
Proof.
  revert w l w1 l1 evs r. induction bs as [|b rest IH]; intros w l w1 l1 evs r; cbn.
  - intros H. injection H as <- <- <- <-. apply steps_none.
  - destruct (claude_block cfg fs ext interactive b w l) as [[[wa la] evsa] ra] eqn:Hb.
    apply steps_claude_block in Hb.
    destruct ra as [error|].
    + intros H. injection H as <- <- <- <-. exact Hb.
    + destruct (claude_blocks cfg fs ext interactive rest wa la)
        as [[[wb lb] evsb] rb] eqn:Hrest.
      intros H. injection H as <- <- <- <-.
      eapply steps_app; [exact Hb|]. eapply IH. exact Hrest.
Qed.

Lemma steps_claude_event event w l w1 l1 evs flow :
  claude_event cfg fs ext now interactive event w l = (w1, l1, evs, flow) ->
  normalizer_steps (c_stream l) evs (c_stream l1).
Proof.
  unfold claude_event. destruct (stopRequested (session w)).
  { intros H. injection H as <- <- <- <-. apply steps_none. }
  destruct event as [sid content|sid usage|sid].
  - destruct (claude_blocks _ _ _ _ _ _ _) as [[[w2 l2] evs2] r2] eqn:Hblocks.
    apply steps_claude_blocks in Hblocks.
    destruct r2; intros H; injection H as <- <- <- <-; exact Hblocks.
  - intros H. injection H as <- <- <- <-. apply steps_none.
  - intros H. injection H as <- <- <- <-. apply steps_none.
Qed.

Lemma steps_claude_loop stream w l w1 l1 evs r :
  claude_loop cfg fs ext now interactive stream w l = (w1, l1, evs, r) ->
  normalizer_steps (c_stream l) evs (c_stream l1).
Proof.
  revert w l w1 l1 evs r.
  induction stream as [|[stopCall pull] rest IH]; intros w l w1 l1 evs r; cbn.
  - intros H. injection H as <- <- <- <-. apply steps_none.
  - destruct pull as [event|error].
    2:{ intros H. injection H as <- <- <- <-. apply steps_none. }
    destruct (claude_event _ _ _ _ _ _ _ _) as [[[wa la] evsa] flow] eqn:Hev.
    apply steps_claude_event in Hev.
    destruct flow as [| |error].
    + destruct (claude_loop cfg fs ext now interactive rest wa la)
        as [[[wb lb] evsb] rb] eqn:Hrest.
      intros H. injection H as <- <- <- <-.
      eapply steps_app; [exact Hev|]. eapply IH. exact Hrest.
    + intros H. injection H as <- <- <- <-. exact Hev.
    + intros H. injection H as <- <- <- <-. exact Hev.
Qed.

Lemma steps_codex_event event w st w1 st1 evs flow :
  codex_event cfg fs ext now event w st = (w1, st1, evs, flow) ->
  normalizer_steps st evs st1.
Proof.
  unfold codex_event. destruct (stopRequested (session w)).
  { intros H. injection H as <- <- <- <-. apply steps_none. }
  destruct event as [message|message|[item|] clock|thread_id|];
    try (intros H; injection H as <- <- <- <-; apply steps_none).
  destruct (item_type item).
  - intros H. injection H as <- <- <- <-.
    destruct (Js.truthy (item_text item)); [apply steps_thinking|apply steps_none].
  - destruct (Security.checkCommandSafety cfg fs (item_command item)) as [isSafe reason].
    destruct (negb isSafe).
    { intros H. injection H as <- <- <- <-. apply steps_tool. }
    destruct (close_segment st) as [st2 closing] eqn:Hclose.
    intros H. injection H as <- <- <- <-.
    eapply steps_app; [eapply steps_close_segment; exact Hclose|apply steps_tool].
  - destruct (Js.truthy (item_text item)).
    + destruct (on_text cfg clock (item_text item) st) as [st2 evs2] eqn:Htext.
      intros H. injection H as <- <- <- <-. eapply steps_on_text. exact Htext.
    + intros H. injection H as <- <- <- <-. apply steps_none.
  - intros H. injection H as <- <- <- <-. apply steps_none.
Qed.

Lemma steps_codex_loop stream w st w1 st1 evs r :
  codex_loop cfg fs ext now stream w st = (w1, st1, evs, r) ->
  normalizer_steps st evs st1.
Proof.
  revert w st w1 st1 evs r.
  induction stream as [|[stopCall pull] rest IH]; intros w st w1 st1 evs r; cbn.
  - intros H. injection H as <- <- <- <-. apply steps_none.
  - destruct pull as [event|error].
    2:{ intros H. injection H as <- <- <- <-. apply steps_none. }
    destruct (codex_event _ _ _ _ _ _ _) as [[[wa sta] evsa] flow] eqn:Hev.
    apply steps_codex_event in Hev.
    destruct flow as [| |error].
    + destruct (codex_loop cfg fs ext now rest wa sta)
        as [[[wb stb] evsb] rb] eqn:Hrest.
      intros H. injection H as <- <- <- <-.
      eapply steps_app; [exact Hev|]. eapply IH. exact Hrest.
    + intros H. injection H as <- <- <- <-. exact Hev.
    + intros H. injection H as <- <- <- <-. exact Hev.
Qed.

Lemma segment_contents_texts n t texts :
  Forall (fun e => exists content,
              e = st_text content n /\ Js.startsWith t content = true) texts ->
  segment_contents texts = [].
Proof.
  induction 1 as [|e texts (content & -> & _) _ IH]; [reflexivity|exact IH].
Qed.

Lemma final_segment_contents st :
  join (segment_contents (final_segment cfg st ++ [st_done])%list)
  = currentSegmentText st.
Proof.
  unfold final_segment. destruct (Js.truthy (currentSegmentText st)) eqn:Ht.
  - rewrite !segment_contents_app.
    rewrite (segment_contents_texts _ _ _ (emitProgressiveTail_prefixes st _ _)).
    cbn [segment_contents app]. apply join_single.
  - destruct (currentSegmentText st); [reflexivity|discriminate].
Qed.

(** What both runners send when the [try] statement is left without an
    exception and no ask-user wait is pending: the events of the loop,
    the final segment and [done] form a well-formed run, and the text
    collected is the text of the segments. *)
Lemma run_completed st evs :
  normalizer_steps streaming_start evs st ->
  segments_ok 0 (evs ++ final_segment cfg st ++ [st_done])%list = true
  /\ join (responseParts st)
     = join (segment_contents (evs ++ final_segment cfg st ++ [st_done])%list).
Proof.
  intros [Htr Hacc]. split.
  - destruct (final_segment_trace st) as (n' & t' & Hfinal).
    eapply seg_trace_ok. eapply seg_trace_app; [exact Htr|exact Hfinal].
  - specialize (Hacc "" eq_refl). unfold text_account in Hacc.
    rewrite segment_contents_app, join_app, final_segment_contents.
    exact Hacc.
Qed.

Lemma run_interrupted st evs :
  normalizer_steps streaming_start evs st ->
  segments_ok 0 evs = true /\ segments_ok 0 (evs ++ [st_done])%list = true.
Proof.
  intros [Htr _]. split; [eapply seg_trace_ok; exact Htr|].
  eapply seg_trace_ok. eapply seg_trace_app; [exact Htr|]. apply tr_done, tr_nil.
Qed.

(** X9.  In every turn, of either backend and however it ends, the [text]
    and [segment_end] events follow the discipline of segments: ids
    count up from 0, one id is open at a time, a [segment_end] is never
    empty, and no [text] event shows anything the [segment_end] of its
    segment does not start with. *)
Theorem segments_are_well_formed (w : World) (streamA : Stream SDKMessage)
        (resumable : bool) (streamB : Stream CodexEvent) :
  segments_ok 0
    (events_of (sendMessageStreaming cfg fs ext now interactive w streamA
                  resumable streamB)) = true.
Proof.
  unfold sendMessageStreaming. destruct (assistantMode (session w)).
  - unfold sendMessageStreamingClaude.
    destruct (begin_turn now true (session w)) as [s|s]; [|reflexivity].
    destruct (claude_loop _ _ _ _ _ _ _ _) as [[[w1 l] evs] exn] eqn:Hloop.
    apply steps_claude_loop in Hloop. cbn [c_stream claude_start] in Hloop.
    destruct (run_interrupted _ _ Hloop) as [Hevs Hdone].
    destruct (run_completed _ _ Hloop) as [Hfull _].
    destruct exn as [error|].
    + destruct (claude_catch now l (session w1) error) as [s2 [rethrown|]].
      * exact Hevs.
      * destruct (askUserTriggered l); [exact Hdone|exact Hfull].
    + destruct (askUserTriggered l); [exact Hdone|exact Hfull].
  - unfold sendMessageStreamingCodex.
    destruct (begin_turn now false (session w)) as [s|s]; [|reflexivity].
    destruct (codex_loop _ _ _ _ _ _ _) as [[[w1 st] evs] exn] eqn:Hloop.
    apply steps_codex_loop in Hloop.
    destruct (run_interrupted _ _ Hloop) as [Hevs Hdone].
    destruct (run_completed _ _ Hloop) as [Hfull _].
    destruct exn as [error|].
    + destruct (codex_catch now (session w1) error) as [s2 [rethrown|]].
      * exact Hevs.
      * exact Hfull.
    + exact Hfull.
Qed.


End TurnInvariants.


Section TurnBoundaries.
Context (cfg : Config) (fs : PathLib) (ext : External).
Context (now : Date) (interactive : bool).

(** X11.  Whatever a started turn did and however it ended, the [finally]
    block leaves the session idle: not running, no abort controller, no
    start time, no current tool.  A turn that returns has cleared the
    last error and stamped the activity; a turn that raises has
    recorded the first 100 characters of the error it raises. *)
Theorem started_turn_leaves_session_idle (w : World) (streamA : Stream SDKMessage)
        (resumable : bool) (streamB : Stream CodexEvent) :
  stopRequested (session w) = false ->
  let r := sendMessageStreaming cfg fs ext now interactive w streamA resumable streamB in
  let s' := session (world_of r) in
  isQueryRunning s' = false
  /\ abortController s' = false
  /\ queryStarted s' = None
  /\ currentTool s' = None
  /\ match outcome_of r with
     | Returned _ =>
         lastError s' = None /\ lastErrorTime s' = None /\ lastActivity s' = Some now
     | Raised error =>
         lastError s' = Some (Js.slice0 error 100) /\ lastErrorTime s' = Some now
     end.
Proof.
  intros Hstop. cbv zeta. unfold sendMessageStreaming.
  destruct (assistantMode (session w)).
  - unfold sendMessageStreamingClaude.
    destruct (begin_turn_not_stopped now true (session w) Hstop) as (s & -> & _).
    destruct (claude_loop _ _ _ _ _ _ _ _) as [[[w1 l] evs] [error|]].
    + unfold claude_catch. destruct (_ && _).
      * destruct (askUserTriggered l); cbn; destruct (session w1); cbn; repeat split.
      * cbn. destruct (session w1); cbn; repeat split.
    + destruct (askUserTriggered l); cbn; destruct (session w1); cbn; repeat split.
  - unfold sendMessageStreamingCodex.
    destruct (begin_turn_not_stopped now false (session w) Hstop) as (s & -> & _).
    destruct (codex_loop _ _ _ _ _ _ _) as [[[w1 st] evs] [error|]].
    + unfold codex_catch. destruct (_ && _); cbn; destruct (session w1); cbn; repeat split.
    + cbn; destruct (session w1); cbn; repeat split.
Qed.

Lemma settings_begin_turn controller s0 :
  settings_of match begin_turn now controller s0 with inl s | inr s => s end
  = settings_of s0.
Proof.
  unfold begin_turn. destruct (_ && _); destruct (stopRequested _);
    destruct s0; reflexivity.
Qed.

Lemma settings_open_thread resumable s :
  settings_of (open_thread resumable s) = settings_of s.
Proof. unfold open_thread. destruct (_ && _); destruct s; reflexivity. Qed.

Lemma settings_end s :
  settings_of (finally s) = settings_of s
  /\ settings_of (after_try now (finally s)) = settings_of s
  /\ forall error, settings_of (finally (record_error now error s)) = settings_of s.
Proof. destruct s. repeat split. Qed.

Lemma settings_claude_loop stream w l :
  settings_of (session (fst (fst (fst (claude_loop cfg fs ext now interactive stream w l)))))
  = settings_of (session w).
Proof. apply frame_claude_loop; intros v s; destruct s; reflexivity. Qed.

Lemma settings_codex_loop stream w st :
  settings_of (session (fst (fst (fst (codex_loop cfg fs ext now stream w st)))))
  = settings_of (session w).
Proof. apply frame_codex_loop; intros v s; destruct s; reflexivity. Qed.

(** X12.  A turn never changes the configuration of the session: assistant,
    models and efforts are after the turn what they were before it, and
    so are the title, the last message and the two flags owned by the
    handlers, whatever the backend sends and however the turn ends. *)
Theorem turn_keeps_settings (w : World) (streamA : Stream SDKMessage)
        (resumable : bool) (streamB : Stream CodexEvent) :
  settings_of
    (session (world_of (sendMessageStreaming cfg fs ext now interactive w streamA
                          resumable streamB)))
  = settings_of (session w).
Proof.
  unfold sendMessageStreaming. destruct (assistantMode (session w)).
  - unfold sendMessageStreamingClaude.
    pose proof (settings_begin_turn true (session w)) as Hbegin.
    destruct (begin_turn now true (session w)) as [s|s]; [|exact Hbegin].
    pose proof (settings_claude_loop streamA (with_session w s) claude_start) as Hloop.
    destruct (claude_loop _ _ _ _ _ _ _ _) as [[[w1 l] evs] exn].
    cbn [fst session with_session] in Hloop.
    destruct (settings_end (session w1)) as (Hfin & Hafter & Hrec).
    destruct exn as [error|].
    + unfold claude_catch. destruct (_ && _).
      * destruct (askUserTriggered l); cbn [world_of fst session with_session]; congruence.
      * cbn [world_of fst session with_session]. rewrite Hrec. congruence.
    + destruct (askUserTriggered l); cbn [world_of fst session with_session]; congruence.
  - unfold sendMessageStreamingCodex.
    pose proof (settings_begin_turn false (session w)) as Hbegin.
    destruct (begin_turn now false (session w)) as [s|s]; [|exact Hbegin].
    pose proof (settings_codex_loop streamB (with_session w (open_thread resumable s))
                  streaming_start) as Hloop.
    destruct (codex_loop _ _ _ _ _ _ _) as [[[w1 st] evs] exn].
    cbn [fst session with_session] in Hloop.
    rewrite settings_open_thread in Hloop.
    destruct (settings_end (session w1)) as (Hfin & Hafter & Hrec).
    destruct exn as [error|].
    + unfold codex_catch. destruct (_ && _).
      * cbn [world_of fst session with_session]; congruence.
      * cbn [world_of fst session with_session]. rewrite Hrec. congruence.
    + cbn [world_of fst session with_session]; congruence.
Qed.

End TurnBoundaries.

(** The theorem on a Codex turn that fails. *)
Lemma started_turn_leaves_session_idle_witness :
  isQueryRunning
    (session (world_of (sendMessageStreaming sample_cfg sample_fs sample_ext 7 true
                          sample_codex_world [] true failed_turn))) = false.
Proof.
  apply (started_turn_leaves_session_idle sample_cfg sample_fs sample_ext 7 true
           sample_codex_world [] true failed_turn).
  reflexivity.
Defined.

(* ===================================================================== *)
(** ** A stop request during a turn                                       *)
(* ===================================================================== *)

Section StopDuringTurn.
Context (cfg : Config) (fs : PathLib) (ext : External).
Context (now : Date) (interactive : bool).

Lemma begin_turn_inl_running controller s0 s :
  begin_turn now controller s0 = inl s -> isQueryRunning s = true.
Proof.
  unfold begin_turn. destruct (_ && _); destruct (stopRequested _); try discriminate;
    intros H; injection H as <-; destruct s0; reflexivity.
Qed.

Lemma running_open_thread resumable s :
  isQueryRunning (open_thread resumable s) = isQueryRunning s.
Proof. unfold open_thread. destruct (_ && _); destruct s; reflexivity. Qed.

Lemma deliver_stop_running w :
  isQueryRunning (session w) = true -> deliver_stop true w = stop_seen w.
Proof.
  intros Hrun. unfold deliver_stop, stop_seen, stop. rewrite Hrun.
  destruct (abortController (session w)); reflexivity.
Qed.

Lemma stop_seen_stopped w : stopRequested (session (stop_seen w)) = true.
Proof. unfold stop_seen. cbn. destruct (session w); reflexivity. Qed.

Lemma claude_loop_stop_item event post w l :
  isQueryRunning (session w) = true ->
  claude_loop cfg fs ext now interactive ((true, yields event) :: post) w l
  = (stop_seen w, l, [], None).
Proof.
  intros Hrun. cbn [claude_loop]. rewrite (deliver_stop_running w Hrun).
  unfold claude_event. rewrite stop_seen_stopped. reflexivity.
Qed.

Lemma codex_loop_stop_item event post w st :
  isQueryRunning (session w) = true ->
  codex_loop cfg fs ext now ((true, yields event) :: post) w st
  = (stop_seen w, st, [], None).
Proof.
  intros Hrun. cbn [codex_loop]. rewrite (deliver_stop_running w Hrun).
  unfold codex_event. rewrite stop_seen_stopped. reflexivity.
Qed.

Lemma running_claude_event event stopCall w l :
  isQueryRunning
    (session (fst (fst (fst (claude_event cfg fs ext now interactive event
                               (deliver_stop stopCall w) l)))))
  = isQueryRunning (session w).
Proof.
  rewrite (frame_claude_event cfg fs ext now interactive isQueryRunning)
    by (intros v s; destruct s; reflexivity).
  apply frame_deliver_stop. intros v s; destruct s; reflexivity.
Qed.

Lemma running_codex_event event stopCall w st :
  isQueryRunning
    (session (fst (fst (fst (codex_event cfg fs ext now event
                               (deliver_stop stopCall w) st)))))
  = isQueryRunning (session w).
Proof.
  rewrite (frame_codex_event cfg fs ext now isQueryRunning)
    by (intros v s; destruct s; reflexivity).
  apply frame_deliver_stop. intros v s; destruct s; reflexivity.
Qed.

(** The loop on a stream with a stop call in it, against the loop on
    the items before the call: either the loop had left before, and
    nothing differs, or it sees the flag and leaves without handling
    the event, with the same locals and events. *)
Lemma claude_loop_cut pre event post w l w1 l1 evs1 r1 :
  isQueryRunning (session w) = true ->
  claude_loop cfg fs ext now interactive pre w l = (w1, l1, evs1, r1) ->
  claude_loop cfg fs ext now interactive (pre ++ (true, yields event) :: post)%list w l
  = (w1, l1, evs1, r1)
  \/ (r1 = None
      /\ claude_loop cfg fs ext now interactive
           (pre ++ (true, yields event) :: post)%list w l
         = (stop_seen w1, l1, evs1, None)).
Proof.
  revert w l w1 l1 evs1 r1.
  induction pre as [|[stopCall pull] pre IH]; intros w l w1 l1 evs1 r1 Hrun.
  - cbn [claude_loop app]. intros H. injection H as <- <- <- <-.
    right. split; [reflexivity|]. apply claude_loop_stop_item. exact Hrun.
  - change (((stopCall, pull) :: pre) ++ (true, yields event) :: post)%list
      with ((stopCall, pull) :: (pre ++ (true, yields event) :: post))%list.
    cbn [claude_loop].
    destruct pull as [ev|error]; [|intros H; left; exact H].
    pose proof (running_claude_event ev stopCall w l) as Hkeep.
    destruct (claude_event _ _ _ _ _ _ _ _) as [[[wa la] evsa] flow].
    cbn [fst session] in Hkeep.
    destruct flow as [| |error]; try (intros H; left; exact H).
    destruct (claude_loop cfg fs ext now interactive pre wa la)
      as [[[wb lb] evsb] rb] eqn:Hpre.
    intros H. injection H as <- <- <- <-.
    destruct (IH wa la wb lb evsb rb) as [Heq|[-> Heq]];
      [congruence|exact Hpre| |]; rewrite Heq; [left|right; split]; reflexivity.
Qed.

Lemma codex_loop_cut pre event post w st w1 st1 evs1 r1 :
  isQueryRunning (session w) = true ->
  codex_loop cfg fs ext now pre w st = (w1, st1, evs1, r1) ->
  codex_loop cfg fs ext now (pre ++ (true, yields event) :: post)%list w st
  = (w1, st1, evs1, r1)
  \/ (r1 = None
      /\ codex_loop cfg fs ext now (pre ++ (true, yields event) :: post)%list w st
         = (stop_seen w1, st1, evs1, None)).
Proof.
  revert w st w1 st1 evs1 r1.
  induction pre as [|[stopCall pull] pre IH]; intros w st w1 st1 evs1 r1 Hrun.
  - cbn [codex_loop app]. intros H. injection H as <- <- <- <-.
    right. split; [reflexivity|]. apply codex_loop_stop_item. exact Hrun.
  - change (((stopCall, pull) :: pre) ++ (true, yields event) :: post)%list
      with ((stopCall, pull) :: (pre ++ (true, yields event) :: post))%list.
    cbn [codex_loop].
    destruct pull as [ev|error]; [|intros H; left; exact H].
    pose proof (running_codex_event ev stopCall w st) as Hkeep.
    destruct (codex_event _ _ _ _ _ _ _) as [[[wa sta] evsa] flow].
    cbn [fst session] in Hkeep.
    destruct flow as [| |error]; try (intros H; left; exact H).
    destruct (codex_loop cfg fs ext now pre wa sta)
      as [[[wb stb] evsb] rb] eqn:Hpre.
    intros H. injection H as <- <- <- <-.
    destruct (IH wa sta wb stb evsb rb) as [Heq|[-> Heq]];
      [congruence|exact Hpre| |]; rewrite Heq; [left|right; split]; reflexivity.
Qed.

Lemma end_of_turn_stop_seen s :
  after_try now (finally (set_stopRequested true s))
  = set_stopRequested true (after_try now (finally s)).
Proof. destruct s; reflexivity. Qed.

(** X13.  A [stop()] call that arrives while the runner waits for an event
    ends the turn there: the event it was waiting for and everything
    after it are not handled.  The turn sends the same events and ends
    the same way as on the stream cut before that event, with the same
    saved history; the session can only differ by the stop flag, which
    is then left up. *)
Theorem stop_call_ends_the_turn_there
        (w : World) (preA : Stream SDKMessage) (eventA : SDKMessage)
        (postA : Stream SDKMessage) (resumable : bool)
        (preB : Stream CodexEvent) (eventB : CodexEvent) (postB : Stream CodexEvent) :
  let r := sendMessageStreaming cfg fs ext now interactive w
             (preA ++ (true, yields eventA) :: postA)%list resumable
             (preB ++ (true, yields eventB) :: postB)%list in
  let r0 := sendMessageStreaming cfg fs ext now interactive w preA resumable preB in
  events_of r = events_of r0
  /\ outcome_of r = outcome_of r0
  /\ history (world_of r) = history (world_of r0)
  /\ (session (world_of r) = session (world_of r0)
      \/ session (world_of r) = set_stopRequested true (session (world_of r0))).
Proof.
  cbv zeta. unfold sendMessageStreaming. destruct (assistantMode (session w)).
  - unfold sendMessageStreamingClaude.
    destruct (begin_turn now true (session w)) as [s|s] eqn:Hbegin;
      [|repeat split; left; reflexivity].
    apply begin_turn_inl_running in Hbegin.
    destruct (claude_loop cfg fs ext now interactive preA (with_session w s) claude_start)
      as [[[w1 l1] evs1] r1] eqn:Hpre.
    destruct (claude_loop_cut preA eventA postA (with_session w s) claude_start
                _ _ _ _ Hbegin Hpre) as [Heq|[-> Heq]];
      rewrite Heq.
    + repeat split. left; reflexivity.
    + unfold stop_seen. cbn [session with_session]. rewrite end_of_turn_stop_seen.
      destruct (askUserTriggered l1); cbn; repeat split; right; reflexivity.
  - unfold sendMessageStreamingCodex.
    destruct (begin_turn now false (session w)) as [s|s] eqn:Hbegin;
      [|repeat split; left; reflexivity].
    apply begin_turn_inl_running in Hbegin.
    rewrite <- (running_open_thread resumable) in Hbegin.
    destruct (codex_loop cfg fs ext now preB (with_session w (open_thread resumable s))
                streaming_start) as [[[w1 st1] evs1] r1] eqn:Hpre.
    destruct (codex_loop_cut preB eventB postB (with_session w (open_thread resumable s))
                streaming_start _ _ _ _ Hbegin Hpre) as [Heq|[-> Heq]];
      rewrite Heq.
    + repeat split. left; reflexivity.
    + unfold stop_seen. cbn [session with_session]. rewrite end_of_turn_stop_seen.
      cbn; repeat split; right; reflexivity.
Qed.

Lemma claude_through_running pre w l w1 l1 evs1 :
  claude_runs_through cfg fs ext now interactive pre w l w1 l1 evs1 ->
  isQueryRunning (session w1) = isQueryRunning (session w).
Proof.
  induction 1 as [w l|stopCall event pre w l wa la evsa wb lb evsb Hev Hrun IH];
    [reflexivity|].
  rewrite IH. pose proof (running_claude_event event stopCall w l) as Hkeep.
  rewrite Hev in Hkeep. exact Hkeep.
Qed.

Lemma codex_through_running pre w st w1 st1 evs1 :
  codex_runs_through cfg fs ext now pre w st w1 st1 evs1 ->
  isQueryRunning (session w1) = isQueryRunning (session w).
Proof.
  induction 1 as [w st|stopCall event pre w st wa sta evsa wb stb evsb Hev Hrun IH];
    [reflexivity|].
  rewrite IH. pose proof (running_codex_event event stopCall w st) as Hkeep.
  rewrite Hev in Hkeep. exact Hkeep.
Qed.

(** X14.  When the loop has handled every event before the stop call, the
    stopped turn returns to its caller, without an error, and leaves
    the stop flag up.  The flag outlives the turn: the next turn of the
    session is cancelled at its start, with no event at all, unless
    [clearStopRequested()] runs in between, as the /stop handler sees
    to; after it the next turn starts. *)
Theorem stop_flag_outlives_the_turn
        (w : World) (preA : Stream SDKMessage) (eventA : SDKMessage)
        (postA : Stream SDKMessage) (resumable : bool)
        (preB : Stream CodexEvent) (eventB : CodexEvent) (postB : Stream CodexEvent) :
  turn_runs_through cfg fs ext now interactive w preA resumable preB ->
  let r := sendMessageStreaming cfg fs ext now interactive w
             (preA ++ (true, yields eventA) :: postA)%list resumable
             (preB ++ (true, yields eventB) :: postB)%list in
  (exists finalText, outcome_of r = Returned finalText)
  /\ stopRequested (session (world_of r)) = true
  /\ (forall streamA' resumable' streamB',
         let next := sendMessageStreaming cfg fs ext now interactive (world_of r)
                       streamA' resumable' streamB' in
         outcome_of next = Raised (Error "Query cancelled") /\ events_of next = [])
  /\ (forall controller,
         exists s, begin_turn now controller (clearStopRequested (session (world_of r)))
                   = inl s).
Proof.
  intros Hthrough. cbv zeta.
  assert (forall w' : World,
             stopRequested (session w') = true ->
             (forall streamA' resumable' streamB',
                 outcome_of (sendMessageStreaming cfg fs ext now interactive w'
                               streamA' resumable' streamB')
                 = Raised (Error "Query cancelled")
                 /\ events_of (sendMessageStreaming cfg fs ext now interactive w'
                                 streamA' resumable' streamB') = [])
             /\ (forall controller,
                    exists s, begin_turn now controller (clearStopRequested (session w'))
                              = inl s)) as Hnext.
  { intros w' Hup. split.
    - intros streamA' resumable' streamB'.
      destruct (cancelled_before_start cfg fs ext now interactive w' streamA' resumable'
                  streamB' Hup) as (Hout & Hevs & _).
      split; assumption.
    - intros controller.
      destruct (begin_turn_not_stopped now controller (clearStopRequested (session w')))
        as (s & Hs & _); [destruct (session w'); reflexivity|].
      exists s. exact Hs. }
  assert (exists wr evs finalText,
             sendMessageStreaming cfg fs ext now interactive w
               (preA ++ (true, yields eventA) :: postA)%list resumable
               (preB ++ (true, yields eventB) :: postB)%list
             = (wr, evs, Returned finalText)
             /\ stopRequested (session wr) = true) as (wr & evs & finalText & -> & Hup).
  { unfold turn_runs_through in Hthrough. unfold sendMessageStreaming.
    destruct (assistantMode (session w)).
    - destruct Hthrough as (s & w1 & l1 & evs1 & Hbegin & Hrun).
      unfold sendMessageStreamingClaude. rewrite Hbegin.
      rewrite (claude_loop_through cfg fs ext now interactive _
                 ((true, yields eventA) :: postA) _ _ _ _ _ Hrun).
      rewrite claude_loop_stop_item.
      2:{ rewrite (claude_through_running _ _ _ _ _ _ Hrun).
          cbn [session with_session]. eapply begin_turn_inl_running. exact Hbegin. }
      cbv beta iota zeta. unfold stop_seen. cbn [session with_session].
      rewrite end_of_turn_stop_seen.
      destruct (askUserTriggered l1); do 3 eexists; (split; [reflexivity|]);
        cbn [session with_session]; destruct (session w1); reflexivity.
    - destruct Hthrough as (s & w1 & st1 & evs1 & Hbegin & Hrun).
      unfold sendMessageStreamingCodex. rewrite Hbegin.
      rewrite (codex_loop_through cfg fs ext now _
                 ((true, yields eventB) :: postB) _ _ _ _ _ Hrun).
      rewrite codex_loop_stop_item.
      2:{ rewrite (codex_through_running _ _ _ _ _ _ Hrun).
          cbn [session with_session]. rewrite running_open_thread.
          eapply begin_turn_inl_running. exact Hbegin. }
      cbv beta iota zeta. unfold stop_seen. cbn [session with_session].
      rewrite end_of_turn_stop_seen.
      do 3 eexists; (split; [reflexivity|]);
        cbn [session with_session]; destruct (session w1); reflexivity. }
  cbn [outcome_of world_of events_of fst snd].
  split; [eexists; reflexivity|].
  split; [exact Hup|].
  apply Hnext. exact Hup.
Qed.

(** X15.  A Codex turn whose saved thread cannot be resumed is the turn of
    a session without an id: the stale id is dropped before the thread
    starts, and the events, the outcome, the session and the saved
    history are those of a fresh session. *)
Theorem failed_resume_is_a_fresh_session (w : World) (stream : Stream CodexEvent) :
  stopRequested (session w) = false ->
  sendMessageStreamingCodex cfg fs ext now false w stream
  = sendMessageStreamingCodex cfg fs ext now true
      (with_session w (set_sessionId None (session w))) stream.
Proof.
  intros Hstop. unfold sendMessageStreamingCodex.
  assert (exists s,
             begin_turn now false (session w) = inl s
             /\ begin_turn now false
                  (session (with_session w (set_sessionId None (session w))))
                = inl (open_thread false s)
             /\ open_thread true (open_thread false s) = open_thread false s)
    as (s & -> & -> & Hopen).
  { unfold begin_turn, open_thread, isActive. destruct w as [s h]. cbn [session with_session].
    destruct s as [sid la qs ct lt le let_ lu lm title am cm ce xm xe ac run stopf proc wasint].
    cbn in Hstop. subst stopf. destruct sid as [[|c id]|]; cbn; eexists; repeat split. }
  rewrite Hopen. reflexivity.
Qed.

End StopDuringTurn.

(** The theorem on a Claude turn stopped after its first message. *)
Lemma stop_flag_outlives_the_turn_witness :
  stopRequested
    (session (world_of
       (sendMessageStreaming sample_cfg sample_fs sample_ext 7 true sample_world
          ([ (false, yields (assistant_message (Some "sid-1") [ text_block "hello" 5 ])) ]
           ++ (true, yields (result_message (Some "sid-1") None)) :: [])%list
          true
          ([] ++ (true, yields cx_other) :: [])%list))) = true.
Proof.
  refine (proj1 (proj2 (stop_flag_outlives_the_turn sample_cfg sample_fs sample_ext 7 true
                          sample_world _ _ _ true _ _ _ _))).
  unfold turn_runs_through. cbn [assistantMode session sample_world initial_session
                                 AI_ASSISTANT sample_cfg].
  do 4 eexists. split; [reflexivity|].
  eapply claude_through_cons; [reflexivity|apply claude_through_nil].
Defined.

(** The theorem on a Codex session whose saved thread is gone. *)
Lemma failed_resume_is_a_fresh_session_witness :
  sendMessageStreamingCodex sample_cfg sample_fs sample_ext 7 false
    (with_session sample_codex_world (with_id "thread-1" (session sample_codex_world)))
    (single_block_B "hello" 5 (Some "thread-2"))
  = sendMessageStreamingCodex sample_cfg sample_fs sample_ext 7 true
      (with_session
         (with_session sample_codex_world (with_id "thread-1" (session sample_codex_world)))
         (set_sessionId None
            (session (with_session sample_codex_world
                        (with_id "thread-1" (session sample_codex_world))))))
      (single_block_B "hello" 5 (Some "thread-2")).
Proof.
  apply (failed_resume_is_a_fresh_session sample_cfg sample_fs sample_ext 7).
  reflexivity.
Defined.

(* ===================================================================== *)
(** ** The session id and the session file during a turn                  *)
(* ===================================================================== *)

(** [saveSession] reads the id and the settings of the session only. *)
Lemma saveSession_reads_settings cfg at_ s s' h :
  sessionId s = sessionId s' -> settings_of s = settings_of s' ->
  saveSession cfg at_ s h = saveSession cfg at_ s' h.
Proof.
  destruct s, s'. unfold settings_of. cbn. intros -> H.
  injection H as -> -> -> -> -> -> -> -> ->. reflexivity.
Qed.

Lemma same_identity_refl w : same_identity w w.
Proof. split; reflexivity. Qed.

Lemma same_identity_trans w w1 w2 :
  same_identity w w1 -> same_identity w1 w2 -> same_identity w w2.
Proof. intros [H1 H2] [H3 H4]. split; congruence. Qed.

Section SessionIdentity.
Context (cfg : Config) (fs : PathLib) (ext : External).
Context (now : Date) (interactive : bool).

Lemma identity_deliver_stop stopCall w : same_identity w (deliver_stop stopCall w).
Proof.
  unfold deliver_stop, stop. destruct stopCall; [|apply same_identity_refl].
  destruct (_ && _); [split; [cbn; destruct (session w)|]; reflexivity|].
  destruct (isQueryRunning _); [split; [cbn; destruct (session w)|]; reflexivity|].
  destruct (_isProcessing _); [split; [cbn; destruct (session w)|]; reflexivity|].
  split; reflexivity.
Qed.

Lemma identity_claude_block b w l :
  same_identity w (fst (fst (fst (claude_block cfg fs ext interactive b w l)))).
Proof.
  destruct b as [thinkingText|toolName toolInput answers|t clock|]; cbn;
    try apply same_identity_refl.
  - destruct (bash_blocked _ _ _ _); [apply same_identity_refl|].
    destruct (file_blocked _ _ _ _); [apply same_identity_refl|].
    destruct (close_segment (c_stream l)) as [st1 closing]. cbn.
    split; [cbn; destruct (session w)|]; reflexivity.
  - destruct (on_text cfg clock t (c_stream l)) as [st1 evs]. apply same_identity_refl.
Qed.

Lemma identity_claude_blocks bs w l :
  same_identity w (fst (fst (fst (claude_blocks cfg fs ext interactive bs w l)))).
Proof.
  revert w l. induction bs as [|b rest IH]; intros w l; cbn; [apply same_identity_refl|].
  pose proof (identity_claude_block b w l) as Hb.
  destruct (claude_block cfg fs ext interactive b w l) as [[[w1 l1] evs] [error|]];
    cbn in *; [exact Hb|].
  specialize (IH w1 l1).
  destruct (claude_blocks cfg fs ext interactive rest w1 l1) as [[[w2 l2] evs2] r].
  cbn in *. eapply same_identity_trans; eassumption.
Qed.

(** After the capture of the session id, the handling of an event of
    backend A changes neither the id nor the session file. *)
Lemma identity_after_capture event w l :
  same_identity (capture_session_id cfg now event w)
    (fst (fst (fst (claude_event cfg fs ext now interactive event w l))))
  \/ fst (fst (fst (claude_event cfg fs ext now interactive event w l))) = w.
Proof.
  unfold claude_event. destruct (stopRequested (session w)); [right; reflexivity|].
  left. destruct event as [sid content|sid usage|sid].
  - pose proof (identity_claude_blocks content
                  (capture_session_id cfg now (assistant_message sid content) w) l) as Hb.
    destruct (claude_blocks _ _ _ _ _ _ _) as [[[w2 l2] evs2] [error|]]; exact Hb.
  - cbn. destruct usage; [|split; reflexivity].
    split; [cbn; destruct (session (capture_session_id _ _ _ _))|]; reflexivity.
  - apply same_identity_refl.
Qed.

Lemma capture_with_id event w :
  truthy_opt (sessionId (session w)) = true -> capture_session_id cfg now event w = w.
Proof. intros H. unfold capture_session_id. rewrite H. reflexivity. Qed.

Lemma identity_claude_event event w l :
  truthy_opt (sessionId (session w)) = true ->
  same_identity w (fst (fst (fst (claude_event cfg fs ext now interactive event w l)))).
Proof.
  intros Hid. destruct (identity_after_capture event w l) as [H| ->];
    [|apply same_identity_refl].
  rewrite (capture_with_id event w Hid) in H. exact H.
Qed.

Lemma identity_claude_loop stream w l :
  truthy_opt (sessionId (session w)) = true ->
  same_identity w (fst (fst (fst (claude_loop cfg fs ext now interactive stream w l)))).
Proof.
  revert w l. induction stream as [|[stopCall pull] rest IH]; intros w l Hid; cbn;
    [apply same_identity_refl|].
  pose proof (identity_deliver_stop stopCall w) as Hstop.
  destruct pull as [event|error]; [|exact Hstop].
  assert (truthy_opt (sessionId (session (deliver_stop stopCall w))) = true) as Hid0
    by (destruct Hstop as [-> _]; exact Hid).
  pose proof (identity_claude_event event (deliver_stop stopCall w) l Hid0) as Hev.
  destruct (claude_event _ _ _ _ _ _ _ _) as [[[w1 l1] evs] flow].
  cbn [fst] in Hev.
  assert (same_identity w w1) as Hw1 by (eapply same_identity_trans; eassumption).
  destruct flow as [| |error]; try exact Hw1.
  assert (truthy_opt (sessionId (session w1)) = true) as Hid1
    by (destruct Hw1 as [-> _]; exact Hid).
  specialize (IH w1 l1 Hid1).
  destruct (claude_loop cfg fs ext now interactive rest w1 l1) as [[[w2 l2] evs2] r].
  cbn [fst] in *. eapply same_identity_trans; eassumption.
Qed.

Lemma identity_end_of_turn (w1 : World) (s2 : Session) :
  sessionId s2 = sessionId (session w1) ->
  same_identity w1 (with_session w1 (finally s2))
  /\ same_identity w1 (with_session w1 (after_try now (finally s2))).
Proof.
  intros H. split; (split; [cbn; rewrite <- H; destruct s2|]; reflexivity).
Qed.

Lemma sessionId_claude_catch l s error :
  sessionId (fst (claude_catch now l s error)) = sessionId s.
Proof. unfold claude_catch. destruct (_ && _); [reflexivity|]. destruct s; reflexivity. Qed.

(** X16.  A turn of backend A on a session that has an id keeps that id,
    whatever ids the events of the backend carry, and does not write the
    session file: the saved entry of a running conversation is the one
    written when its id was first received. *)
Theorem claude_turn_keeps_the_session_id (w : World) (stream : Stream SDKMessage) :
  truthy_opt (sessionId (session w)) = true ->
  let r := sendMessageStreamingClaude cfg fs ext now interactive w stream in
  sessionId (session (world_of r)) = sessionId (session w)
  /\ history (world_of r) = history w.
Proof.
  intros Hid. cbv zeta. unfold sendMessageStreamingClaude.
  assert (exists s, (begin_turn now true (session w) = inl s
                     \/ begin_turn now true (session w) = inr s)
                    /\ sessionId s = sessionId (session w)) as (s & Hbegin & Hs).
  { unfold begin_turn, isActive. destruct (session w) as [sid]. cbn in *.
    destruct sid as [[|c id]|]; try discriminate. cbn.
    destruct stopRequested0; eexists; split; try (left; reflexivity);
      try (right; reflexivity); reflexivity. }
  destruct Hbegin as [-> | ->]; [|split; [exact Hs|reflexivity]].
  pose proof (identity_claude_loop stream (with_session w s) claude_start) as Hloop.
  destruct (claude_loop _ _ _ _ _ _ _ _) as [[[w1 l] evs] exn].
  cbn [fst] in Hloop.
  destruct Hloop as [Hsid Hhist]; [cbn; rewrite Hs; exact Hid|].
  cbn [session with_session history] in Hsid, Hhist.
  assert (forall s2 : Session,
             sessionId s2 = sessionId (session w1) ->
             forall rethrown : option string,
               let r := match rethrown with
                        | Some error => (with_session w1 (finally s2), evs, Raised error)
                        | None =>
                            let w4 := with_session w1 (after_try now (finally s2)) in
                            if askUserTriggered l
                            then (w4, (evs ++ [st_done])%list, Returned waiting_text)
                            else (w4, (evs ++ final_segment cfg (c_stream l)
                                           ++ [st_done])%list,
                                  Returned (Js.or_else (join (responseParts (c_stream l)))
                                              "No response from Claude."))
                        end in
               sessionId (session (world_of r)) = sessionId (session w)
               /\ history (world_of r) = history w) as Hend.
  { intros s2 Hs2 rethrown. cbv zeta.
    destruct (identity_end_of_turn w1 s2 Hs2) as [[Hf1 Hf2] [Ha1 Ha2]].
    destruct rethrown; [|destruct (askUserTriggered l)];
      cbn [world_of fst]; split; congruence. }
  destruct exn as [error|].
  - pose proof (sessionId_claude_catch l (session w1) error) as Hcatch.
    destruct (claude_catch now l (session w1) error) as [s2 rethrown].
    apply (Hend s2 Hcatch rethrown).
  - apply (Hend (session w1) eq_refl None).
Qed.


End SessionIdentity.

Section ThreadIdentity.
Context (cfg : Config) (fs : PathLib) (ext : External).
Context (now : Date) (interactive : bool).

Lemma history_deliver_stop stopCall w : history (deliver_stop stopCall w) = history w.
Proof. apply identity_deliver_stop. Qed.

Lemma history_codex_go_on event w st w1 st1 evs :
  codex_event cfg fs ext now event w st = (w1, st1, evs, go_on) -> history w1 = history w.
Proof.
  unfold codex_event. destruct (stopRequested (session w)); [discriminate|].
  destruct event as [message|message|[item|] clock|thread_id|]; try discriminate;
    try (intros H; injection H as <- _ _; reflexivity).
  destruct (item_type item); try (intros H; injection H as <- _ _; reflexivity).
  - destruct (Security.checkCommandSafety cfg fs (item_command item)) as [isSafe reason].
    destruct (negb isSafe); [discriminate|].
    destruct (close_segment st) as [st2 closing].
    intros H; injection H as <- _ _; reflexivity.
  - destruct (Js.truthy (item_text item)); [|intros H; injection H as <- _ _; reflexivity].
    destruct (on_text cfg clock (item_text item) st) as [st2 evs2].
    intros H; injection H as <- _ _; reflexivity.
Qed.

Lemma codex_through_keeps pre w st w1 st1 evs1 :
  codex_runs_through cfg fs ext now pre w st w1 st1 evs1 ->
  history w1 = history w /\ settings_of (session w1) = settings_of (session w).
Proof.
  induction 1 as [w st|stopCall event pre w st wa sta evsa wb stb evsb Hev Hrun [IHh IHs]];
    [split; reflexivity|].
  split.
  - rewrite IHh, (history_codex_go_on _ _ _ _ _ _ Hev). apply history_deliver_stop.
  - rewrite IHs.
    pose proof (frame_codex_event cfg fs ext now settings_of) as Hframe.
    specialize (Hframe (fun v s => ltac:(destruct s; reflexivity))
                       (fun v s => ltac:(destruct s; reflexivity))
                       (fun v s => ltac:(destruct s; reflexivity))
                       event (deliver_stop stopCall w) st).
    rewrite Hev in Hframe. cbn [fst] in Hframe. rewrite Hframe.
    apply frame_deliver_stop. intros v s; destruct s; reflexivity.
Qed.

(** X18.  A turn of backend B saves the session when the backend reports the
    turn completed: once every event before the completion has been
    handled, the session takes the id of the thread, the entry written
    to the session file is the one of this session under that id, and
    the turn returns. *)
Theorem codex_thread_is_saved_on_completion
        (w : World) (streamA : Stream SDKMessage) (resumable : bool)
        (pre : Stream CodexEvent) (id : string) (post : Stream CodexEvent) :
  assistantMode (session w) = codex ->
  turn_runs_through cfg fs ext now interactive w streamA resumable pre ->
  id <> "" ->
  let r := sendMessageStreaming cfg fs ext now interactive w streamA resumable
             (pre ++ (false, yields (cx_turn_completed (Some id))) :: post)%list in
  sessionId (session (world_of r)) = Some id
  /\ history (world_of r) = saveSession cfg now (with_id id (session w)) (history w)
  /\ exists finalText, outcome_of r = Returned finalText.
Proof.
  intros Hmode Hthrough Hne. cbv zeta.
  unfold turn_runs_through in Hthrough. unfold sendMessageStreaming.
  rewrite Hmode in *.
  destruct Hthrough as (s & w1 & st1 & evs1 & Hbegin & Hrun).
  unfold sendMessageStreamingCodex. rewrite Hbegin.
  rewrite (codex_loop_through cfg fs ext now _
             ((false, yields (cx_turn_completed (Some id))) :: post) _ _ _ _ _ Hrun).
  assert (stopRequested (session w1) = false) as Hgo.
  { eapply codex_through_not_stopped; [exact Hrun|].
    cbn [session with_session]. rewrite open_thread_keeps_stop.
    eapply begin_turn_inl_not_stopped. exact Hbegin. }
  destruct (codex_through_keeps _ _ _ _ _ _ Hrun) as [Hhist Hset].
  cbn [session with_session history] in Hhist, Hset.
  rewrite settings_open_thread in Hset.
  pose proof (settings_begin_turn now false (session w)) as Hsb. rewrite Hbegin in Hsb.
  cbn [codex_loop]. rewrite deliver_stop_false. unfold codex_event. rewrite Hgo.
  cbn [truthy_opt]. apply truthy_true in Hne. rewrite Hne.
  cbv beta iota zeta. unfold save.
  cbn [session history with_session world_of outcome_of fst snd].
  split; [destruct (session w1); reflexivity|].
  split; [|eexists; reflexivity].
  rewrite Hhist. apply saveSession_reads_settings.
  - destruct (session w1), (session w); reflexivity.
  - transitivity (settings_of (session w1)); [destruct (session w1); reflexivity|].
    rewrite Hset, Hsb. destruct (session w); reflexivity.
Qed.

End ThreadIdentity.

(** The theorem on a resumed session: the id of the event is ignored. *)
Lemma claude_turn_keeps_the_session_id_witness :
  sessionId
    (session (world_of
       (sendMessageStreamingClaude sample_cfg sample_fs sample_ext 7 true
          (with_session sample_world (with_id "sid-0" (session sample_world)))
          (single_block_A (Some "sid-1") "hello" 5 None))))
  = Some "sid-0".
Proof.
  exact (proj1 (claude_turn_keeps_the_session_id sample_cfg sample_fs sample_ext 7 true
                  (with_session sample_world (with_id "sid-0" (session sample_world)))
                  (single_block_A (Some "sid-1") "hello" 5 None) eq_refl)).
Defined.


(** The theorem on a Codex turn of one message. *)
Lemma codex_thread_is_saved_on_completion_witness :
  sessionId
    (session (world_of
       (sendMessageStreaming sample_cfg sample_fs sample_ext 7 true sample_codex_world
          [] true
          ([ (false, yields (cx_item_completed
                               (Some {| item_type := agent_message; item_text := "hello";
                                        item_command := "" |}) 5)) ]
           ++ (false, yields (cx_turn_completed (Some "thread-1"))) :: [])%list)))
  = Some "thread-1".
Proof.
  refine (proj1 (codex_thread_is_saved_on_completion sample_cfg sample_fs sample_ext 7 true
                   sample_codex_world [] true _ "thread-1" [] eq_refl _ _)).
  - unfold turn_runs_through.
    change (assistantMode (session sample_codex_world)) with codex. cbv iota.
    do 4 eexists. split; [reflexivity|].
    eapply codex_through_cons; [reflexivity|apply codex_through_nil].
  - discriminate.
Defined.

(* ===================================================================== *)
(** ** Segments, throttling and refused file access                       *)
(* ===================================================================== *)

Section SegmentScenarios.
Context (cfg : Config) (fs : PathLib) (ext : External).
Context (now : Date) (interactive : bool).

(** The first piece of text of a turn is always shown. *)
Lemma on_text_first clock t :
  exists st1 shown,
    on_text cfg clock t streaming_start = (st1, [st_text shown 0%nat])
    /\ responseParts st1 = [t]
    /\ currentSegmentId st1 = 0%nat
    /\ currentSegmentText st1 = t
    /\ lastTextUpdate st1 = clock
    /\ textCallbackCount st1 = 1%nat.
Proof.
  unfold on_text. cbn [textCallbackCount streaming_start Nat.eqb andb orb].
  change (currentSegmentText streaming_start +:+ t) with t.
  destruct (_ <=? _); eexists; eexists; (split; [reflexivity|]); repeat split.
Qed.

(** A piece of text that arrives within the throttle interval, once a
    text event has been sent, is collected without an event. *)
Lemma on_text_throttled clock t st :
  textCallbackCount st <> 0%nat ->
  clock - lastTextUpdate st < STREAMING_THROTTLE_MS cfg ->
  on_text cfg clock t st
  = ({| responseParts := (responseParts st ++ [t])%list;
        currentSegmentId := currentSegmentId st;
        currentSegmentText := currentSegmentText st ++ t;
        lastTextUpdate := lastTextUpdate st;
        textCallbackCount := textCallbackCount st;
        lastEmittedTextLength := lastEmittedTextLength st |}, []).
Proof.
  intros Hcount Hsoon. unfold on_text.
  apply Nat.eqb_neq in Hcount. rewrite Hcount. cbn [andb orb].
  apply Z.leb_gt in Hsoon. rewrite Hsoon. reflexivity.
Qed.

(** X27.  A turn of backend A whose message holds a text, a tool call and a
    second, short text that arrives within the throttle interval: the
    second segment is announced by its [segment_end] event alone.  No
    [text] event is sent for segment 1, so a display that follows the
    [text] events sees that segment for the first time when it ends.
    The text returned is the two texts put together. *)
Theorem throttled_segment_ends_without_text_event
        (w : World) (sid : option string) (first second : string) (clock1 clock2 : Z)
        (toolName : string) (toolInput : ToolInput) (answers : list bool)
        (usage : option TokenUsage) :
  stopRequested (session w) = false ->
  first <> "" -> second <> "" ->
  Js.len second < STREAMING_SYNTHETIC_FALLBACK_MIN_CHARS cfg ->
  clock2 - clock1 < STREAMING_THROTTLE_MS cfg ->
  bash_blocked cfg fs toolName toolInput = None ->
  file_blocked cfg fs toolName toolInput = None ->
  Js.startsWith toolName "mcp__ask-user" = false ->
  let r := sendMessageStreamingClaude cfg fs ext now interactive w
             [ (false, yields (assistant_message sid
                                 [ text_block first clock1;
                                   tool_use_block toolName toolInput answers;
                                   text_block second clock2 ]));
               (false, yields (result_message sid usage)) ] in
  exists shown,
    events_of r
    = [ st_text shown 0%nat;
        st_segment_end first 0%nat;
        st_tool (formatToolStatus ext toolName toolInput);
        st_segment_end second 1%nat;
        st_done ]
    /\ outcome_of r = Returned (first ++ second).
Proof.
  intros Hstop Hfirst Hsecond Hshort Hsoon Hbash Hfile Hask. cbv zeta.
  destruct (on_text_first clock1 first)
    as (st1 & shown & Htext1 & Hparts1 & Hid1 & Hseg1 & Hlast1 & Hcount1).
  exists shown.
  assert (exists w',
             sendMessageStreamingClaude cfg fs ext now interactive w
               [ (false, yields (assistant_message sid
                                   [ text_block first clock1;
                                     tool_use_block toolName toolInput answers;
                                     text_block second clock2 ]));
                 (false, yields (result_message sid usage)) ]
             = (w',
                [ st_text shown 0%nat;
                  st_segment_end first 0%nat;
                  st_tool (formatToolStatus ext toolName toolInput);
                  st_segment_end second 1%nat;
                  st_done ],
                Returned (first ++ second))) as (w' & ->);
    [|split; reflexivity].
  unfold sendMessageStreamingClaude.
  destruct (begin_turn_not_stopped now true (session w) Hstop) as (s & -> & Hs).
  cbn [claude_loop]. rewrite !deliver_stop_false.
  unfold claude_event at 1. cbn [session with_session]. rewrite Hs.
  set (w1 := capture_session_id cfg now _ (with_session w s)).
  assert (stopRequested (session w1) = false) as Hs1
    by (unfold w1; rewrite capture_keeps_stop; exact Hs).
  cbn [claude_blocks claude_block c_stream claude_start queryCompleted askUserTriggered].
  rewrite Htext1. rewrite Hbash, Hfile.
  cbn [c_stream queryCompleted askUserTriggered].
  unfold close_segment. rewrite Hseg1.
  apply truthy_true in Hfirst. rewrite Hfirst.
  rewrite Hask. cbn [negb andb orb].
  cbn [c_stream queryCompleted askUserTriggered].
  rewrite on_text_throttled.
  2:{ cbn. rewrite Hcount1. discriminate. }
  2:{ cbn. rewrite Hlast1. exact Hsoon. }
  cbn [responseParts currentSegmentId currentSegmentText lastTextUpdate
       textCallbackCount lastEmittedTextLength c_stream queryCompleted askUserTriggered].
  cbn [app].
  set (w2 := with_session w1 _).
  assert (stopRequested (session w2) = false) as Hs2
    by (unfold w2; cbn; destruct (session w1); exact Hs1).
  rewrite !deliver_stop_false.
  unfold claude_event. rewrite Hs2.
  cbn [c_stream queryCompleted askUserTriggered claude_loop app].
  unfold final_segment, emitProgressiveTail.
  cbn [currentSegmentText currentSegmentId c_stream responseParts].
  change ("" +:+ second) with second.
  apply truthy_true in Hsecond. rewrite Hsecond.
  apply Z.ltb_lt in Hshort. rewrite Hshort.
  cbn [app]. rewrite Hid1, Hparts1. cbn [app].
  eexists. f_equal. f_equal.
  unfold join. cbn [fold_right]. rewrite append_empty_r.
  unfold Js.or_else.
  destruct (first +:+ second) eqn:Hcat; [|reflexivity].
  destruct first; discriminate.
Qed.


End SegmentScenarios.

(** The theorem on a turn that answers, searches and answers again
    within 100 ms. *)
Lemma throttled_segment_ends_without_text_event_witness :
  exists shown,
    events_of
      (sendMessageStreamingClaude sample_cfg sample_fs sample_ext 7 true sample_world
         [ (false, yields (assistant_message (Some "sid-1")
                             [ text_block "Looking it up." 1000;
                               tool_use_block "WebSearch"
                                 {| command := ""; file_path := "" |} [];
                               text_block "Found it." 1100 ]));
           (false, yields (result_message (Some "sid-1") None)) ])
    = [ st_text shown 0%nat;
        st_segment_end "Looking it up." 0%nat;
        st_tool (formatToolStatus sample_ext "WebSearch"
                   {| command := ""; file_path := "" |});
        st_segment_end "Found it." 1%nat;
        st_done ]
    /\ outcome_of
         (sendMessageStreamingClaude sample_cfg sample_fs sample_ext 7 true sample_world
            [ (false, yields (assistant_message (Some "sid-1")
                                [ text_block "Looking it up." 1000;
                                  tool_use_block "WebSearch"
                                    {| command := ""; file_path := "" |} [];
                                  text_block "Found it." 1100 ]));
              (false, yields (result_message (Some "sid-1") None)) ])
       = Returned ("Looking it up." ++ "Found it.").
Proof.
  apply (throttled_segment_ends_without_text_event sample_cfg sample_fs sample_ext 7 true
           sample_world (Some "sid-1") "Looking it up." "Found it." 1000 1100
           "WebSearch" {| command := ""; file_path := "" |} [] None).
  - reflexivity.
  - discriminate.
  - discriminate.
  - vm_compute. reflexivity.
  - vm_compute. reflexivity.
  - reflexivity.
  - reflexivity.
  - reflexivity.
Defined.


(* ===================================================================== *)
(** ** Further properties of the safety policy                            *)
(* ===================================================================== *)

Lemma prefix_iff_append (p s : string) :
  String.prefix p s = true <-> exists rest, s = String.append p rest.
Proof.
  revert s. induction p as [|c p IH]; intros s.
  - split; [intros _; exists s; reflexivity|intros _; apply prefix_nil_l].
  - destruct s as [|d s].
    + split; [discriminate|intros [rest H]; discriminate].
    + cbn [String.prefix]. destruct (Ascii.ascii_dec c d) as [->|Hne].
      * rewrite IH. split; intros [rest H]; exists rest.
        -- rewrite H. reflexivity.
        -- change (String.append (String d p) rest) with (String d (String.append p rest)) in H.
           injection H as H. exact H.
      * split; [discriminate|]. intros [rest H].
        change (String.append (String c p) rest) with (String c (String.append p rest)) in H.
        injection H as H _. congruence.
Qed.

Lemma toLowerCase_app (a b : string) :
  Js.toLowerCase (String.append a b)
  = String.append (Js.toLowerCase a) (Js.toLowerCase b).
Proof.
  unfold Js.toLowerCase. induction a as [|c a IH]; [reflexivity|].
  change (String (Js.lower c) (Js.smap Js.lower (String.append a b))
          = String (Js.lower c)
              (String.append (Js.smap Js.lower a) (Js.smap Js.lower b))).
  f_equal. exact IH.
Qed.

Lemma includes_middle (pre p post : string) :
  Js.includes (String.append pre (String.append p post)) p = true.
Proof.
  induction pre as [|c pre IH].
  - change (String.append "" (String.append p post)) with (String.append p post).
    destruct (String.append p post) eqn:Heq; cbn [Js.includes];
      rewrite <- Heq, prefix_append; reflexivity.
  - change (String.append (String c pre) (String.append p post))
      with (String c (String.append pre (String.append p post))).
    cbn [Js.includes]. rewrite IH. apply orb_true_r.
Qed.

Section PolicyCharacterised.
Context (cfg : Config) (fs : PathLib).




(** X20.  A blocked pattern is found wherever it stands in the command and in
    whatever letter case it is written: such a command is refused for a
    blocked pattern, whatever the allowed paths are. *)
Theorem blocked_pattern_is_found_anywhere (before written after pattern : string) :
  In pattern BLOCKED_PATTERNS ->
  Js.toLowerCase written = Js.toLowerCase pattern ->
  exists found,
    In found BLOCKED_PATTERNS
    /\ Security.checkCommandSafety cfg fs (before ++ written ++ after)
       = (false, "Blocked pattern: " ++ found).
Proof.
  intros Hin Hcase. unfold Security.checkCommandSafety.
  destruct (Security.blocked_pattern (before ++ written ++ after)) as [found|] eqn:Hpat.
  - exists found. split; [|reflexivity].
    unfold Security.blocked_pattern in Hpat. apply List.find_some in Hpat as [Hfound _].
    exact Hfound.
  - exfalso. unfold Security.blocked_pattern in Hpat.
    pose proof (List.find_none _ _ Hpat pattern Hin) as Hno. cbv beta in Hno.
    rewrite !toLowerCase_app, Hcase, includes_middle in Hno. discriminate.
Qed.

Lemma isPathAllowed_true_iff (path : string) :
  Security.isPathAllowed cfg fs path = true
  <-> (exists tempPath rest,
          In tempPath (TEMP_PATHS cfg)
          /\ Security.resolvedPath cfg fs path = tempPath ++ rest)
      \/ (exists allowed,
             In allowed (ALLOWED_PATHS cfg)
             /\ (Security.resolvedPath cfg fs path = resolve fs allowed
                 \/ exists rest,
                      Security.resolvedPath cfg fs path
                      = resolve fs allowed ++ "/" ++ rest)).
Proof.
  unfold Security.isPathAllowed.
  assert (Security.in_temp cfg (Security.resolvedPath cfg fs path) = true
          <-> exists tempPath rest,
                In tempPath (TEMP_PATHS cfg)
                /\ Security.resolvedPath cfg fs path = tempPath ++ rest) as Htemp.
  { unfold Security.in_temp. rewrite List.existsb_exists. split.
    - intros (t & Hin & Hp). apply prefix_iff_append in Hp as [rest Hrest].
      exists t, rest. split; assumption.
    - intros (t & rest & Hin & Hrest). exists t. split; [exact Hin|].
      apply prefix_iff_append. exists rest. exact Hrest. }
  assert (Security.in_allowed cfg fs (Security.resolvedPath cfg fs path) = true
          <-> exists allowed,
                In allowed (ALLOWED_PATHS cfg)
                /\ (Security.resolvedPath cfg fs path = resolve fs allowed
                    \/ exists rest,
                         Security.resolvedPath cfg fs path
                         = resolve fs allowed ++ "/" ++ rest)) as Hallowed.
  { unfold Security.in_allowed. rewrite List.existsb_exists. split.
    - intros (a & Hin & Hp). exists a. split; [exact Hin|].
      apply orb_true_iff in Hp as [Heq|Hp].
      + left. apply eqs_true. exact Heq.
      + right. apply prefix_iff_append in Hp as [rest Hrest]. exists rest.
        rewrite Hrest. apply sapp_assoc.
    - intros (a & Hin & [Heq|[rest Hrest]]); exists a; (split; [exact Hin|]);
        apply orb_true_iff.
      + left. apply eqs_true. exact Heq.
      + right. apply prefix_iff_append. exists rest. rewrite Hrest.
        symmetry. apply sapp_assoc. }
  destruct (Security.in_temp cfg (Security.resolvedPath cfg fs path)).
  - split; [intros _; left; apply Htemp; reflexivity|reflexivity].
  - destruct (Security.in_allowed cfg fs (Security.resolvedPath cfg fs path)).
    + split; [intros _; right; apply Hallowed; reflexivity|reflexivity].
    + split; [discriminate|].
      intros [H|H]; [apply Htemp in H|apply Hallowed in H]; discriminate.
Qed.

(** X21.  [isPathAllowed] is a containment test on the resolved path: a path
    is allowed exactly when its resolved form starts with a temp prefix,
    or is an allowed directory, or lies below one, that is, continues
    the resolved directory with a slash.  So a sibling whose name merely
    starts with the name of the allowed directory is refused: with one
    allowed directory, a path that resolves outside the temp prefixes to
    the directory followed by a non-empty suffix that does not start
    with a slash is not allowed. *)
Theorem isPathAllowed_is_containment (path : string) :
  (Security.isPathAllowed cfg fs path = true
   <-> (exists tempPath rest,
           In tempPath (TEMP_PATHS cfg)
           /\ Security.resolvedPath cfg fs path = tempPath ++ rest)
       \/ (exists allowed,
              In allowed (ALLOWED_PATHS cfg)
              /\ (Security.resolvedPath cfg fs path = resolve fs allowed
                  \/ exists rest,
                       Security.resolvedPath cfg fs path
                       = resolve fs allowed ++ "/" ++ rest)))
  /\ (forall allowed suffix,
         ALLOWED_PATHS cfg = [allowed] ->
         Security.resolvedPath cfg fs path = resolve fs allowed ++ suffix ->
         suffix <> "" -> Js.startsWith suffix "/" = false ->
         Security.in_temp cfg (Security.resolvedPath cfg fs path) = false ->
         Security.isPathAllowed cfg fs path = false).
Proof.
  split; [apply isPathAllowed_true_iff|].
  intros allowed suffix Hlist Hresolved Hsuffix Hslash Htemp.
  destruct (Security.isPathAllowed cfg fs path) eqn:Hyes; [exfalso|reflexivity].
  apply isPathAllowed_true_iff in Hyes as [(t & rest & Hin & Hrest)|(a & Hin & Ha)].
  - assert (Security.in_temp cfg (Security.resolvedPath cfg fs path) = true) as Hcontra.
    { unfold Security.in_temp. apply List.existsb_exists. exists t. split; [exact Hin|].
      apply prefix_iff_append. exists rest. exact Hrest. }
    congruence.
  - rewrite Hlist in Hin. destruct Hin as [<-|[]]. rewrite Hresolved in Ha.
    destruct Ha as [Hsame|[rest Hrest]].
    + assert (String.append (resolve fs allowed) suffix
              = String.append (resolve fs allowed) "") as Hempty
        by (rewrite append_empty_r; exact Hsame).
      apply sapp_inj_l in Hempty. contradiction.
    + apply sapp_inj_l in Hrest. subst suffix.
      change (String.prefix "" rest = false) in Hslash.
      rewrite prefix_nil_l in Hslash. discriminate.
Qed.

End PolicyCharacterised.

(** The theorem on a command that hides [sudo rm] in capitals after
    another command. *)
Lemma blocked_pattern_is_found_anywhere_witness :
  exists found,
    In found BLOCKED_PATTERNS
    /\ Security.checkCommandSafety sample_cfg sample_fs
         ("echo ok; " ++ "SUDO RM" ++ " /tmp/x")
       = (false, "Blocked pattern: " ++ found).
Proof.
  apply (blocked_pattern_is_found_anywhere sample_cfg sample_fs
           "echo ok; " "SUDO RM" " /tmp/x" "sudo rm").
  - cbn. tauto.
  - reflexivity.
Defined.

(** The theorem on a sibling of the only allowed directory. *)
Lemma isPathAllowed_is_containment_witness :
  Security.isPathAllowed (Security.with_allowed sample_cfg [ "/home/bot/project" ])
    sample_fs "/home/bot/project-evil/x" = false.
Proof.
  apply (proj2 (isPathAllowed_is_containment
                  (Security.with_allowed sample_cfg [ "/home/bot/project" ]) sample_fs
                  "/home/bot/project-evil/x")
           "/home/bot/project" "-evil/x").
  - reflexivity.
  - vm_compute. reflexivity.
  - discriminate.
  - reflexivity.
  - vm_compute. reflexivity.
Defined.

Section AskUserWait.
Context (cfg : Config) (fs : PathLib) (ext : External).
Context (now : Date).

Lemma ask_user_tool_is_not_checked toolName toolInput :
  Js.startsWith toolName "mcp__ask-user" = true ->
  bash_blocked cfg fs toolName toolInput = None
  /\ file_blocked cfg fs toolName toolInput = None.
Proof.
  intros H. apply prefix_iff_append in H as [rest ->]. split; reflexivity.
Qed.

Lemma claude_block_keeps_ask b w l :
  askUserTriggered l = true ->
  askUserTriggered (snd (fst (fst (claude_block cfg fs ext true b w l)))) = true.
Proof.
  intros Hask. destruct b as [thinkingText|toolName toolInput answers|t clock|]; cbn;
    try exact Hask.
  - destruct (bash_blocked _ _ _ _); [exact Hask|].
    destruct (file_blocked _ _ _ _); [exact Hask|].
    destruct (close_segment (c_stream l)) as [st1 closing]. cbn.
    rewrite Hask. reflexivity.
  - destruct (on_text cfg clock t (c_stream l)) as [st1 evs]. exact Hask.
Qed.

Lemma claude_block_finds_buttons toolName toolInput answers w l :
  Js.startsWith toolName "mcp__ask-user" = true ->
  poll_ask_user 3 answers = true ->
  askUserTriggered
    (snd (fst (fst (claude_block cfg fs ext true
                      (tool_use_block toolName toolInput answers) w l)))) = true.
Proof.
  intros Hname Hfound. destruct (ask_user_tool_is_not_checked toolName toolInput Hname)
    as [Hbash Hfile].
  unfold claude_block. rewrite Hbash, Hfile.
  destruct (close_segment (c_stream l)) as [st1 closing].
  rewrite Hname. cbn [andb snd fst askUserTriggered]. rewrite Hfound.
  apply orb_true_r.
Qed.

Lemma claude_blocks_wait content w l w2 l2 evs2 :
  claude_blocks cfg fs ext true content w l = (w2, l2, evs2, None) ->
  askUserTriggered l = true
  \/ (exists toolName toolInput answers,
         In (tool_use_block toolName toolInput answers) content
         /\ Js.startsWith toolName "mcp__ask-user" = true
         /\ poll_ask_user 3 answers = true) ->
  askUserTriggered l2 = true.
Proof.
  revert w l w2 l2 evs2. induction content as [|b rest IH]; intros w l w2 l2 evs2.
  - cbn. intros H. injection H as <- <- <-.
    intros [Hask|(toolName & toolInput & answers & [] & _)]. exact Hask.
  - cbn [claude_blocks].
    pose proof (claude_block_keeps_ask b w l) as Hkeep.
    destruct (claude_block cfg fs ext true b w l) as [[[wa la] evsa] [error|]] eqn:Hb;
      [discriminate|].
    destruct (claude_blocks cfg fs ext true rest wa la) as [[[wb lb] evsb] rb] eqn:Hrest.
    intros H. injection H as <- <- <- ->. cbn [fst snd] in Hkeep.
    intros [Hask|(toolName & toolInput & answers & [->|Hin] & Hname & Hfound)].
    + eapply IH; [exact Hrest|]. left. apply Hkeep. exact Hask.
    + eapply IH; [exact Hrest|]. left.
      pose proof (claude_block_finds_buttons toolName toolInput answers w l Hname Hfound)
        as Hset.
      rewrite Hb in Hset. exact Hset.
    + eapply IH; [exact Hrest|]. right. exists toolName, toolInput, answers.
      repeat split; assumption.
Qed.

(** X29.  An ask-user tool call whose buttons reach the chat makes the turn
    of backend A wait for the selection: the blocks of that message are
    all handled, the events after that message are not read, [done]
    follows the events of the message at once, with no final
    [segment_end] for a text still open, and the turn returns the
    waiting text with no error recorded. *)
Theorem ask_user_wait_ends_the_turn
      (w : World) (s : Session) (pre : Stream SDKMessage) (w1 : World) (l1 : ClaudeLocals)
      (evs1 : list StatusEvent) (sid : option string) (content : list ContentBlock)
      (toolName : string) (toolInput : ToolInput) (answers : list bool)
      (w2 : World) (l2 : ClaudeLocals) (evs2 : list StatusEvent)
      (post : Stream SDKMessage) :
  begin_turn now true (session w) = inl s ->
  claude_runs_through cfg fs ext now true pre (with_session w s) claude_start
                      w1 l1 evs1 ->
  In (tool_use_block toolName toolInput answers) content ->
  Js.startsWith toolName "mcp__ask-user" = true ->
  poll_ask_user 3 answers = true ->
  claude_blocks cfg fs ext true content
    (capture_session_id cfg now (assistant_message sid content) w1) l1
  = (w2, l2, evs2, None) ->
  let r := sendMessageStreamingClaude cfg fs ext now true w
             (pre ++ (false, yields (assistant_message sid content)) :: post)%list in
  events_of r = (evs1 ++ evs2 ++ [st_done])%list
  /\ outcome_of r = Returned waiting_text
  /\ lastError (session (world_of r)) = None.
Proof.
  intros Hbegin Hrun Hin Hname Hfound Hblocks. cbv zeta.
  pose proof (begin_turn_inl_not_stopped _ _ _ _ Hbegin) as Hs.
  assert (Hstop1 : stopRequested (session w1) = false).
  { eapply claude_through_not_stopped; [exact Hrun | exact Hs]. }
  assert (askUserTriggered l2 = true) as Hwait.
  { eapply claude_blocks_wait; [exact Hblocks|]. right.
    exists toolName, toolInput, answers. repeat split; assumption. }
  unfold sendMessageStreamingClaude. rewrite Hbegin.
  rewrite (claude_loop_through cfg fs ext now true _ _ _ _ _ _ _ Hrun).
  cbn [claude_loop]. rewrite deliver_stop_false.
  unfold claude_event. rewrite Hstop1. cbv iota.
  rewrite Hblocks, Hwait. cbv beta iota zeta. rewrite Hwait.
  cbn [events_of outcome_of world_of fst snd session with_session].
  split; [rewrite <- app_assoc; reflexivity|].
  split; [reflexivity|].
  destruct (session w2); reflexivity.
Qed.

End AskUserWait.

(** The theorem on a turn that asks a question with buttons, found at
    the second poll, and goes on with a text. *)
Lemma ask_user_wait_ends_the_turn_witness :
  let r := sendMessageStreamingClaude sample_cfg sample_fs sample_ext 7 true sample_world
             ([] ++ (false,
                     yields (assistant_message (Some "sid-1")
                               [ tool_use_block "mcp__ask-user__ask_user"
                                   {| command := ""; file_path := "" |}
                                   [ false; true ];
                                 text_block "Pick one." 5 ]))
                :: [ (false, yields (result_message (Some "sid-1") None)) ])%list in
  events_of r = ([] ++ [ st_text "Pick one." 0%nat ] ++ [st_done])%list
  /\ outcome_of r = Returned waiting_text
  /\ lastError (session (world_of r)) = None.
Proof.
  eapply (ask_user_wait_ends_the_turn sample_cfg sample_fs sample_ext 7
            sample_world _ [] _ _ [] (Some "sid-1") _
            "mcp__ask-user__ask_user" {| command := ""; file_path := "" |}
            [ false; true ]).
  - reflexivity.
  - apply claude_through_nil.
  - left. reflexivity.
  - reflexivity.
  - reflexivity.
  - lazy. reflexivity.
Defined.

(* ===================================================================== *)
(** ** Properties of the allowed directories                              *)
(* ===================================================================== *)

Lemma existsb_eqs (p : string) (l : list string) :
  existsb (Js.eqs p) l = true <-> In p l.
Proof.
  rewrite List.existsb_exists. split.
  - intros (x & Hin & Heq). apply eqs_true in Heq. subst x. exact Hin.
  - intros Hin. exists p. split; [exact Hin|]. apply eqs_true. reflexivity.
Qed.

Lemma existsb_eqs_false (p : string) (l : list string) :
  existsb (Js.eqs p) l = false <-> ~ In p l.
Proof.
  rewrite <- existsb_eqs. destruct (existsb (Js.eqs p) l); split; congruence.
Qed.

Lemma dedupe_from_In seen paths p :
  In p (dedupe_from seen paths) <-> In p paths /\ ~ In p seen.
Proof.
  revert seen. induction paths as [|q rest IH]; intros seen; cbn [dedupe_from].
  - cbn. tauto.
  - destruct (existsb (Js.eqs q) seen) eqn:Hseen.
    + apply existsb_eqs in Hseen. rewrite IH. cbn. split.
      * intros [H1 H2]. tauto.
      * intros [[->|H1] H2]; tauto.
    + apply existsb_eqs_false in Hseen. cbn. rewrite IH. cbn. split.
      * intros [->|[H1 H2]]; tauto.
      * intros [[->|H1] H2]; [tauto|].
        destruct (String.string_dec q p) as [->|Hne]; [tauto|]. right. tauto.
Qed.

Lemma dedupe_from_NoDup seen paths : List.NoDup (dedupe_from seen paths).
Proof.
  revert seen. induction paths as [|q rest IH]; intros seen; cbn [dedupe_from].
  - constructor.
  - destruct (existsb (Js.eqs q) seen); [apply IH|].
    constructor; [|apply IH]. rewrite dedupe_from_In. cbn. tauto.
Qed.

Section AllowedPathsFacts.
Context (cfg : Config) (fs : PathLib).

Lemma normalized_truthy rawPaths :
  Forall (fun path => path <> "") (normalized cfg fs rawPaths).
Proof.
  unfold normalized. induction rawPaths as [|raw rest IH]; [constructor|].
  cbn [flat_map]. apply Forall_app. split; [|exact IH].
  destruct (normalizeAllowedPath cfg fs raw) as [path|]; [|constructor].
  destruct (Js.truthy path) eqn:Ht; [|constructor].
  constructor; [|constructor]. apply truthy_true. exact Ht.
Qed.

(** X22.  The list exported as [ALLOWED_PATHS] names no directory twice and
    no empty path.  A directory is on it exactly when it is the
    normalised working directory, or comes from the base list (the
    override when it names a directory, the defaults otherwise) or from
    the extra list and is not named by the remove list: the working
    directory cannot be removed. *)
Theorem allowed_paths_are_merged (env : PathsEnv) :
  let extra := parseAllowedPaths cfg fs (env_ALLOWED_PATHS_EXTRA env) in
  let remove := parseAllowedPaths cfg fs (env_ALLOWED_PATHS_REMOVE env) in
  List.NoDup (mergedPaths cfg fs env)
  /\ Forall (fun path => path <> "") (mergedPaths cfg fs env)
  /\ forall path,
       In path (mergedPaths cfg fs env)
       <-> (normalizeAllowedPath cfg fs (WORKING_DIR cfg) = Some path /\ path <> "")
           \/ ((In path (basePaths cfg fs env) \/ In path extra) /\ ~ In path remove).
Proof.
  cbv zeta. unfold mergedPaths.
  set (extra := parseAllowedPaths cfg fs (env_ALLOWED_PATHS_EXTRA env)).
  set (remove := parseAllowedPaths cfg fs (env_ALLOWED_PATHS_REMOVE env)).
  set (merged := List.filter (fun path => negb (existsb (Js.eqs path) remove))
                   (dedupePaths (basePaths cfg fs env ++ extra)%list)).
  assert (List.NoDup merged) as Hnd
    by (apply List.NoDup_filter, dedupe_from_NoDup).
  assert (forall path, In path merged
                       <-> (In path (basePaths cfg fs env) \/ In path extra)
                           /\ ~ In path remove) as Hin.
  { intros path. unfold merged. rewrite List.filter_In. unfold dedupePaths.
    rewrite dedupe_from_In, List.in_app_iff, negb_true_iff, existsb_eqs_false.
    cbn. tauto. }
  assert (Forall (fun path => path <> "") merged) as Htruthy.
  { apply List.Forall_forall. intros path Hp. apply Hin in Hp as [[Hp|Hp] _].
    - unfold basePaths in Hp.
      destruct (0 <? length _)%nat.
      + pose proof (normalized_truthy (split_comma "" (env_ALLOWED_PATHS env))) as Hall.
        rewrite List.Forall_forall in Hall. apply Hall. exact Hp.
      + unfold defaultAllowedPaths, dedupePaths in Hp.
        apply dedupe_from_In in Hp as [Hp _].
        pose proof (normalized_truthy
                      [ WORKING_DIR cfg; HOME cfg ++ "/Programming_Projects";
                        HOME cfg ++ "/.claude"; HOME cfg ++ "/.codex" ]) as Hall.
        rewrite List.Forall_forall in Hall. apply Hall. exact Hp.
    - pose proof (normalized_truthy (split_comma "" (env_ALLOWED_PATHS_EXTRA env)))
        as Hall.
      rewrite List.Forall_forall in Hall. apply Hall. exact Hp. }
  destruct (normalizeAllowedPath cfg fs (WORKING_DIR cfg)) as [workingDir|].
  2:{ split; [exact Hnd|]. split; [exact Htruthy|].
      intros path. rewrite Hin. split; [tauto|]. intros [[H _]|H]; [discriminate|tauto]. }
  destruct (Js.truthy workingDir) eqn:Ht; cbn [andb].
  2:{ split; [exact Hnd|]. split; [exact Htruthy|].
      intros path. rewrite Hin. split; [tauto|].
      intros [[H Hne]|H]; [|tauto]. injection H as ->.
      apply truthy_true in Hne. congruence. }
  apply truthy_true in Ht.
  destruct (existsb (Js.eqs workingDir) merged) eqn:Hthere; cbn [negb].
  - apply existsb_eqs in Hthere.
    split; [exact Hnd|]. split; [exact Htruthy|].
    intros path. rewrite Hin. split; [tauto|].
    intros [[H _]|H]; [|tauto]. injection H as ->. apply Hin. exact Hthere.
  - apply existsb_eqs_false in Hthere.
    split; [constructor; assumption|]. split; [constructor; assumption|].
    intros path. cbn [In]. rewrite Hin. split.
    + intros [->|H]; [left; split; [reflexivity|exact Ht]|tauto].
    + intros [[H _]|H]; [injection H as ->; left; reflexivity|tauto].
Qed.

End AllowedPathsFacts.

(** The list on the sample deployment: the working directory comes
    back in front although the environment removes it, the extra
    directory named twice is listed once. *)
Example mergedPaths_sample :
  mergedPaths sample_cfg sample_fs sample_paths_env
  = [ "/home/bot"; "/home/bot/Programming_Projects"; "/home/bot/.claude";
      "/srv/data"; "/srv/media" ].
Proof. vm_compute. reflexivity. Qed.

(* ===================================================================== *)
(** ** Properties of the handlers                                         *)
(* ===================================================================== *)

Lemma length_sapp (a b : string) :
  String.length (String.append a b) = (String.length a + String.length b)%nat.
Proof.
  induction a as [|c a IH]; [reflexivity|].
  change (String.append (String c a) b) with (String c (String.append a b)).
  cbn [String.length]. rewrite IH. reflexivity.
Qed.

Lemma length_substring0 (n : nat) (s : string) :
  String.length (String.substring 0 n s) = Nat.min n (String.length s).
Proof.
  revert n. induction s as [|c s IH]; intros [|n]; cbn; try reflexivity.
  rewrite IH. reflexivity.
Qed.

Lemma to_uint_nonnil (n : nat) : Nat.to_uint n <> Decimal.Nil.
Proof.
  rewrite <- (Unsigned.of_to n) at 1. rewrite Unsigned.to_of. apply unorm_nonnil.
Qed.

Lemma index_text_inj (i j : nat) : index_text i = index_text j -> i = j.
Proof.
  unfold index_text. intros H. apply Unsigned.to_uint_inj.
  pose proof (NilZero.usu _ (to_uint_nonnil i)) as Hi.
  pose proof (NilZero.usu _ (to_uint_nonnil j)) as Hj.
  rewrite H in Hi. congruence.
Qed.

Lemma keyboard_from_length requestId idx options :
  length (keyboard_from requestId idx options) = length options.
Proof.
  revert idx. induction options as [|option rest IH]; intros idx; cbn; [reflexivity|].
  rewrite IH. reflexivity.
Qed.

Lemma keyboard_from_lookup requestId idx options k choice :
  options !! k = Some choice ->
  keyboard_from requestId idx options !! k
  = Some {| button_text :=
              if BUTTON_LABEL_MAX_LENGTH <? Js.len choice
              then Js.slice0 choice BUTTON_LABEL_MAX_LENGTH ++ "..."
              else choice;
            callback_data := "askuser:" ++ requestId ++ ":" ++ index_text (idx + k) |}.
Proof.
  revert idx k. induction options as [|first rest IH]; intros idx k; [discriminate|].
  destruct k as [|k]; cbn [keyboard_from].
  - intros H. injection H as ->. rewrite Nat.add_0_r. reflexivity.
  - intros H. apply (IH (S idx) k) in H. rewrite Nat.add_succ_r. exact H.
Qed.

Lemma keyboard_from_callbacks requestId idx options :
  map callback_data (keyboard_from requestId idx options)
  = map (fun k => "askuser:" ++ requestId ++ ":" ++ index_text k)
        (seq idx (length options)).
Proof.
  revert idx. induction options as [|option rest IH]; intros idx; [reflexivity|].
  cbn [keyboard_from map length seq callback_data]. rewrite IH. reflexivity.
Qed.

(** X23.  The keyboard of an ask-user request has one button per option, in
    the order of the options.  The button of option [idx] carries the
    callback data [askuser:<request id>:<idx>], so no two buttons of a
    keyboard share their callback data; its label is the option itself
    when that has at most 30 characters, and otherwise the first 30
    characters followed by three dots, 33 characters in all. *)
Theorem keyboard_has_one_button_per_option (requestId : string) (options : list string) :
  let keyboard := createAskUserKeyboard requestId options in
  length keyboard = length options
  /\ (forall idx choice,
         options !! idx = Some choice ->
         exists button,
           keyboard !! idx = Some button
           /\ callback_data button = "askuser:" ++ requestId ++ ":" ++ index_text idx
           /\ (Js.len choice <= 30 -> button_text button = choice)
           /\ (30 < Js.len choice ->
               button_text button = Js.slice0 choice 30 ++ "..."
               /\ Js.len (button_text button) = 33))
  /\ NoDup (map callback_data keyboard).
Proof.
  cbv zeta. unfold createAskUserKeyboard. split; [apply keyboard_from_length|]. split.
  - intros idx choice Hopt. eexists. split; [apply keyboard_from_lookup; exact Hopt|].
    cbn [callback_data button_text Nat.add]. split; [reflexivity|].
    unfold BUTTON_LABEL_MAX_LENGTH. split.
    + intros Hle. apply Z.ltb_ge in Hle. rewrite Hle. reflexivity.
    + intros Hlt. pose proof Hlt as Hlong. apply Z.ltb_lt in Hlt. rewrite Hlt.
      split; [reflexivity|].
      unfold Js.len in *. rewrite length_sapp. unfold Js.slice0.
      change (30 <? 0) with false. cbv iota.
      rewrite length_substring0. cbn [String.length]. lia.
  - rewrite keyboard_from_callbacks.
    apply NoDup_fmap_2; [|apply NoDup_seq].
    intros i j H. apply sapp_inj_l in H.
    rewrite <- !sapp_assoc in H.
    apply index_text_inj.
    change ("askuser:" +:+ requestId +:+ ":" +:+ index_text i)
      with ("askuser:" +:+ (requestId +:+ (":" +:+ index_text i))) in H.
    apply sapp_inj_l in H.
    exact H.
Qed.

Section AskUserFacts.
Context (chatId : string).

Lemma mark_sent_not_shown data : shown_to chatId (request (mark_sent data)) = false.
Proof. reflexivity. Qed.

(** What the handling of one file can do. *)
Lemma scan_file_cases accepts writable filename file st :
  let r := scan_file chatId accepts writable filename file st in
  (snd r = file
   \/ (shown_to chatId file = true
       /\ exists data, file = request data /\ snd r = request (mark_sent data)))
  /\ (shown_to chatId file = false -> r = (st, file))
  /\ ((buttonsSent st = true <-> delivered st <> []) ->
      (buttonsSent (fst r) = true <-> delivered (fst r) <> []))
  /\ (accepts (replyCalls st) = true -> writable filename = true ->
      shown_to chatId (snd r) = false
      /\ length (delivered (fst r))
         = (length (delivered st) + if shown_to chatId file then 1 else 0)%nat).
Proof.
  cbv zeta. unfold scan_file, shown_to.
  destruct file as [|data].
  { cbn; repeat split; auto; try tauto; try (intros; lia). }
  destruct (Js.eqs (request_status data) "pending") eqn:E1;
    [|cbn; rewrite ?E1; cbn; repeat split; auto; try tauto; try (intros; lia)].
  destruct (Js.eqs (request_chat_id data) chatId) eqn:E2;
    [|cbn; rewrite ?E1, ?E2; cbn; repeat split; auto; try tauto; try (intros; lia)].
  destruct (0 <? length (request_options data))%nat eqn:E3;
    [|cbn; rewrite ?E1, ?E2; cbn in E3 |- *; rewrite ?E3; cbn;
      repeat split; auto; try tauto; try (intros; lia)].
  destruct (Js.truthy (request_id data)) eqn:E4;
    [|cbn; rewrite ?E1, ?E2; cbn in E3 |- *; rewrite ?E3, ?E4; cbn;
      repeat split; auto; try tauto; try (intros; lia)].
  cbn [negb andb].
  destruct (accepts (replyCalls st)) eqn:Hacc.
  - destruct (writable filename) eqn:Hw; cbn [fst snd buttonsSent delivered].
    + split; [right; split; [reflexivity|]; exists data; split; reflexivity|].
      split; [discriminate|].
      split.
      * intros _. split; [intros _|reflexivity]. intros H.
        apply app_eq_nil in H as [_ H]. discriminate.
      * intros _ _. split; [reflexivity|]. rewrite length_app. reflexivity.
    + split; [left; reflexivity|].
      split; [discriminate|].
      split; [|discriminate].
      intros _. split; [intros _|reflexivity]. intros H.
      apply app_eq_nil in H as [_ H]. discriminate.
  - cbn [fst snd buttonsSent delivered].
    split; [left; reflexivity|].
    split; [discriminate|].
    split; [tauto|discriminate].
Qed.

Lemma scan_files_names accepts writable files st :
  map fst (snd (scan_files chatId accepts writable files st)) = map fst files.
Proof.
  revert st. induction files as [|[filename file] rest IH]; intros st; [reflexivity|].
  cbn [scan_files].
  destruct (scan_file chatId accepts writable filename file st) as [st1 file1].
  specialize (IH st1).
  destruct (scan_files chatId accepts writable rest st1) as [st2 rest1].
  cbn in *. rewrite IH. reflexivity.
Qed.

Lemma scan_files_cases accepts writable files st i filename file :
  files !! i = Some (filename, file) ->
  let files1 := snd (scan_files chatId accepts writable files st) in
  files1 !! i = Some (filename, file)
  \/ (shown_to chatId file = true
      /\ exists data, file = request data
                      /\ files1 !! i = Some (filename, request (mark_sent data))).
Proof.
  revert st i. induction files as [|[name0 file0] rest IH]; intros st i; [discriminate|].
  cbn [scan_files].
  pose proof (scan_file_cases accepts writable name0 file0 st) as (Hcase & _).
  destruct (scan_file chatId accepts writable name0 file0 st) as [st1 file1].
  specialize (IH st1).
  destruct (scan_files chatId accepts writable rest st1) as [st2 rest1].
  cbn [snd] in *. destruct i as [|i].
  - intros H. injection H as -> ->.
    destruct Hcase as [->|(Hshown & data & -> & ->)]; [left; reflexivity|].
    right. split; [exact Hshown|]. exists data. split; reflexivity.
  - intros H. apply (IH i H).
Qed.

Lemma scan_files_flag accepts writable files st :
  (buttonsSent st = true <-> delivered st <> []) ->
  (buttonsSent (fst (scan_files chatId accepts writable files st)) = true
   <-> delivered (fst (scan_files chatId accepts writable files st)) <> []).
Proof.
  revert st. induction files as [|[filename file] rest IH]; intros st Hinv; [exact Hinv|].
  cbn [scan_files].
  pose proof (scan_file_cases accepts writable filename file st) as (_ & _ & Hflag & _).
  destruct (scan_file chatId accepts writable filename file st) as [st1 file1].
  specialize (IH st1 (Hflag Hinv)).
  destruct (scan_files chatId accepts writable rest st1) as [st2 rest1].
  exact IH.
Qed.

Lemma scan_files_nothing_shown accepts writable files st :
  Forall (fun entry => shown_to chatId (snd entry) = false) files ->
  scan_files chatId accepts writable files st = (st, files).
Proof.
  revert st. induction files as [|[filename file] rest IH]; intros st Hall; [reflexivity|].
  apply Forall_cons in Hall as [Hhead Htail]. cbn [scan_files].
  pose proof (scan_file_cases accepts writable filename file st) as (_ & Hsame & _).
  rewrite (Hsame Hhead), (IH st Htail). reflexivity.
Qed.

Lemma scan_files_all_accepted accepts writable files st :
  (forall k, accepts k = true) -> (forall name, writable name = true) ->
  Forall (fun entry => shown_to chatId (snd entry) = false)
         (snd (scan_files chatId accepts writable files st))
  /\ length (delivered (fst (scan_files chatId accepts writable files st)))
     = (length (delivered st)
        + length (List.filter (fun entry => shown_to chatId (snd entry)) files))%nat.
Proof.
  intros Hacc Hw. revert st.
  induction files as [|[filename file] rest IH]; intros st.
  { cbn. split; [constructor|lia]. }
  cbn [scan_files].
  pose proof (scan_file_cases accepts writable filename file st) as (_ & _ & _ & Hok).
  specialize (Hok (Hacc _) (Hw _)).
  destruct (scan_file chatId accepts writable filename file st) as [st1 file1].
  destruct (IH st1) as [Hall Hlen].
  destruct (scan_files chatId accepts writable rest st1) as [st2 rest1].
  cbn [fst snd] in *. destruct Hok as [Hnot Hone]. split.
  - constructor; [exact Hnot|exact Hall].
  - rewrite Hlen, Hone. cbn [List.filter snd].
    destruct (shown_to chatId file); cbn [length]; lia.
Qed.

(** X24.  The scan of the pending ask-user requests.  It answers true exactly
    when a keyboard was delivered.  It leaves every file in place, and
    changes none but to mark as sent a pending request of this chat that
    has options and an id: the requests of other chats are neither
    shown nor touched.  When Telegram accepts the messages and the files
    can be written, one keyboard is delivered per such request, and a
    second scan shows nothing again: it delivers no message, answers
    false and leaves the files as they are. *)
Theorem ask_user_requests_are_shown_once
        (accepts : nat -> bool) (writable : string -> bool)
        (files : list (string * RequestFile)) :
  let r := checkPendingAskUserRequests chatId accepts writable files in
  let sent := fst (fst r) in
  let files1 := snd (fst r) in
  let messages := snd r in
  (sent = true <-> messages <> [])
  /\ map fst files1 = map fst files
  /\ (forall i filename file,
         files !! i = Some (filename, file) ->
         files1 !! i = Some (filename, file)
         \/ (shown_to chatId file = true
             /\ exists data,
                  file = request data
                  /\ files1 !! i = Some (filename, request (mark_sent data))))
  /\ ((forall k, accepts k = true) -> (forall name, writable name = true) ->
      length messages
      = length (List.filter (fun entry => shown_to chatId (snd entry)) files)
      /\ forall accepts' writable',
           checkPendingAskUserRequests chatId accepts' writable' files1
           = (false, files1, [])).
Proof.
  cbv zeta. unfold checkPendingAskUserRequests.
  set (start := {| buttonsSent := false; replyCalls := 0; delivered := [] |}).
  pose proof (scan_files_flag accepts writable files start) as Hflag.
  pose proof (scan_files_names accepts writable files start) as Hnames.
  pose proof (fun i filename file =>
                scan_files_cases accepts writable files start i filename file) as Hcases.
  pose proof (scan_files_all_accepted accepts writable files start) as Hall.
  destruct (scan_files chatId accepts writable files start) as [st files1].
  cbn [fst snd] in *.
  split; [apply Hflag; cbn; split; [discriminate|congruence]|].
  split; [exact Hnames|].
  split; [exact Hcases|].
  intros Hacc Hw. destruct (Hall Hacc Hw) as [Hnone Hlen].
  split; [exact Hlen|].
  intros accepts' writable'.
  rewrite (scan_files_nothing_shown accepts' writable' files1 _ Hnone). reflexivity.
Qed.

End AskUserFacts.

Lemma substring_beyond (j k : nat) (s : string) :
  (String.length s <= j)%nat -> String.substring j k s = "".
Proof.
  revert j k. induction s as [|c s IH]; intros j k Hle.
  - destruct j, k; reflexivity.
  - destruct j as [|j]; [cbn in Hle; lia|]. cbn. apply IH. cbn in Hle. lia.
Qed.

Lemma substring_split (i a b : nat) (s : string) :
  String.substring i (a + b) s
  = String.append (String.substring i a s) (String.substring (i + a) b s).
Proof.
  revert i a. induction s as [|c s IH]; intros i a.
  - destruct i, a, b; reflexivity.
  - destruct i as [|i].
    + destruct a as [|a]; [reflexivity|].
      cbn [Nat.add String.substring].
      change (String c (String.substring 0 (a + b) s)
              = String c (String.append (String.substring 0 a s) (String.substring a b s))).
      f_equal. apply (IH 0%nat a).
    + cbn [Nat.add String.substring]. apply IH.
Qed.

Lemma length_substring (i n : nat) (s : string) :
  String.length (String.substring i n s) = Nat.min n (String.length s - i).
Proof.
  revert i n. induction s as [|c s IH]; intros i n.
  - destruct i, n; reflexivity.
  - destruct i as [|i].
    + destruct n as [|n]; [reflexivity|]. cbn. rewrite IH. rewrite Nat.sub_0_r. reflexivity.
    + cbn. apply IH.
Qed.

Lemma substring_rest (i n : nat) (s : string) :
  (String.length s - i <= n)%nat ->
  String.substring i n s = String.substring i (String.length s - i) s.
Proof.
  intros Hle. remember (String.length s - i)%nat as m eqn:Hm.
  assert (exists k, n = (m + k)%nat) as [k ->] by (exists (n - m)%nat; lia).
  rewrite substring_split, (substring_beyond (i + m)) by lia.
  apply append_empty_r.
Qed.

Lemma substring_all (s : string) : String.substring 0 (String.length s) s = s.
Proof. induction s as [|c s IH]; [reflexivity|]. cbn. rewrite IH. reflexivity. Qed.

Lemma substring_step (i : nat) (s : string) :
  String.append (String.substring i TELEGRAM_SAFE_LIMIT s)
    (String.substring (i + TELEGRAM_SAFE_LIMIT)
       (String.length s - (i + TELEGRAM_SAFE_LIMIT)) s)
  = String.substring i (String.length s - i) s.
Proof.
  destruct (le_lt_dec TELEGRAM_SAFE_LIMIT (String.length s - i)) as [Hle|Hlt].
  - rewrite <- substring_split. f_equal. lia.
  - rewrite (substring_beyond (i + TELEGRAM_SAFE_LIMIT)) by lia.
    rewrite append_empty_r. apply substring_rest. lia.
Qed.

Lemma join_cons (x : string) (l : list string) :
  join (x :: l) = String.append x (join l).
Proof. reflexivity. Qed.

Lemma html_attempts_cons (c : ChunkCall) (l : list ChunkCall) :
  html_attempts (c :: l)
  = (match chunk_mode c with HTML => [chunk_text c] | plain_text => [] end
     ++ html_attempts l)%list.
Proof. reflexivity. Qed.

Lemma accepted_texts_cons (c : ChunkCall) (l : list ChunkCall) :
  accepted_texts (c :: l)
  = ((if chunk_accepted c then [chunk_text c] else []) ++ accepted_texts l)%list.
Proof. reflexivity. Qed.

Lemma chunk_loop_covers accepts content i calls :
  join (html_attempts (chunk_loop accepts content i calls))
  = String.substring i (String.length content - i) content.
Proof.
  funelim (chunk_loop accepts content i calls).
  - destruct (accepts calls);
      rewrite ?html_attempts_cons; cbn [chunk_mode chunk_text app];
      rewrite join_cons; [rewrite H|rewrite H0]; apply substring_step.
  - cbn. symmetry. apply substring_beyond. lia.
Qed.

Lemma chunk_loop_sizes accepts content i calls :
  Forall (fun c => (1 <= String.length (chunk_text c) <= TELEGRAM_SAFE_LIMIT)%nat)
         (chunk_loop accepts content i calls).
Proof.
  funelim (chunk_loop accepts content i calls).
  - assert (1 <= String.length (String.substring i TELEGRAM_SAFE_LIMIT content)
            <= TELEGRAM_SAFE_LIMIT)%nat as Hsize
      by (rewrite length_substring; unfold TELEGRAM_SAFE_LIMIT; lia).
    destruct (accepts calls); repeat (constructor; [exact Hsize|]); assumption.
  - constructor.
Qed.

Lemma chunk_loop_delivers accepts content i calls :
  sublist (accepted_texts (chunk_loop accepts content i calls))
          (html_attempts (chunk_loop accepts content i calls))
  /\ ((forall k, accepts k = true) ->
      accepted_texts (chunk_loop accepts content i calls)
      = html_attempts (chunk_loop accepts content i calls)).
Proof.
  funelim (chunk_loop accepts content i calls).
  - destruct H as [Hsub Hall], H0 as [Hsub0 Hall0].
    destruct (accepts calls) eqn:Hacc;
      rewrite ?html_attempts_cons, ?accepted_texts_cons;
      cbn [chunk_mode chunk_text chunk_accepted app].
    + split; [apply sublist_skip; exact Hsub|].
      intros Hyes. f_equal. apply Hall. exact Hyes.
    + split.
      * destruct (accepts (S calls)); cbn [app];
          [apply sublist_skip|apply sublist_cons]; exact Hsub0.
      * intros Hyes. rewrite Hyes in Hacc. discriminate.
  - split; [constructor|reflexivity].
Qed.

(** X25.  [sendChunkedMessages] cuts the content into chunks of at most 4000
    characters, none of them empty, and asks Telegram to show each of
    them as HTML, in order: put together, the chunks are the content.
    A chunk is delivered at most once, as plain text when the HTML
    attempt fails, and when Telegram accepts every message the chunks
    delivered are all the chunks. *)
Theorem chunks_cover_the_content (accepts : nat -> bool) (content : string) :
  let calls := sendChunkedMessages accepts content in
  join (html_attempts calls) = content
  /\ Forall (fun c => (1 <= String.length (chunk_text c) <= TELEGRAM_SAFE_LIMIT)%nat) calls
  /\ sublist (accepted_texts calls) (html_attempts calls)
  /\ ((forall k, accepts k = true) -> accepted_texts calls = html_attempts calls).
Proof.
  cbv zeta. unfold sendChunkedMessages.
  split; [rewrite chunk_loop_covers, Nat.sub_0_r; apply substring_all|].
  split; [apply chunk_loop_sizes|].
  apply chunk_loop_delivers.
Qed.

(* ===================================================================== *)
(** ** Properties of the thinking budget                                  *)
(* ===================================================================== *)

(** X26.  The thinking budget is 0, 10000 or 50000 tokens and never below the
    budget of the configured effort, which is what a message without
    keyword gets.  A deep keyword raises it to 50000 and a normal
    keyword to at least 10000, wherever the keyword stands in the
    message, inside a longer word too, and in whatever letter case it is
    written. *)
Theorem thinking_budget_follows_keywords
        (THINKING_KEYWORDS THINKING_DEEP_KEYWORDS : list string)
        (message : string) (defaultEffort : ClaudeReasoningEffort) :
  let budget :=
    getThinkingLevel THINKING_KEYWORDS THINKING_DEEP_KEYWORDS message defaultEffort in
  let base := getThinkingLevel [] [] message defaultEffort in
  base <= budget
  /\ (budget = 0 \/ budget = 10000 \/ budget = 50000)
  /\ (forall before written after keyword,
         message = before ++ written ++ after ->
         Js.toLowerCase written = keyword ->
         (In keyword THINKING_DEEP_KEYWORDS -> budget = 50000)
         /\ (In keyword THINKING_KEYWORDS -> 10000 <= budget)).
Proof.
  cbv zeta. unfold getThinkingLevel. cbn [existsb].
  set (found := fun k => Js.includes (Js.toLowerCase message) k).
  split; [destruct (existsb found THINKING_DEEP_KEYWORDS),
            (existsb found THINKING_KEYWORDS), defaultEffort; cbn; lia|].
  split; [destruct (existsb found THINKING_DEEP_KEYWORDS),
            (existsb found THINKING_KEYWORDS), defaultEffort; cbn; auto|].
  intros before written after keyword Hmessage Hcase.
  assert (found keyword = true) as Hfound.
  { unfold found. rewrite Hmessage, !toLowerCase_app, Hcase. apply includes_middle. }
  split; intros Hin.
  - replace (existsb found THINKING_DEEP_KEYWORDS) with true.
    + destruct defaultEffort; reflexivity.
    + symmetry. apply List.existsb_exists. exists keyword. split; assumption.
  - replace (existsb found THINKING_KEYWORDS) with true.
    + destruct (existsb found THINKING_DEEP_KEYWORDS), defaultEffort; cbn; lia.
    + symmetry. apply List.existsb_exists. exists keyword. split; assumption.
Qed.

(** The theorem on a message that asks to think hard, in capitals, with
    the default keywords of [config.ts]. *)
Lemma thinking_budget_follows_keywords_witness :
  getThinkingLevel (parseKeywords "think,pensa,ragiona")
    (parseKeywords "ultrathink,think hard,pensa bene")
    ("please " ++ "THINK HARD" ++ " about it") c_low = 50000.
Proof.
  refine (proj1 (proj2 (proj2
            (thinking_budget_follows_keywords
               (parseKeywords "think,pensa,ragiona")
               (parseKeywords "ultrathink,think hard,pensa bene")
               ("please " ++ "THINK HARD" ++ " about it") c_low))
            "please " "THINK HARD" " about it" "think hard" eq_refl eq_refl) _).
  vm_compute. tauto.
Defined.

(* ===================================================================== *)
(** ** The theorems above at concrete inputs                              *)
(* ===================================================================== *)

(** Selecting Codex twice from the default session: the second call
    answers that nothing changed. *)
Lemma setModel_twice_witness :
  snd (snd (setModel sample_cfg
              (fst (setModel sample_cfg (initial_session sample_cfg) "codex")) "codex"))
  = unchanged_message (fst (setModel sample_cfg (initial_session sample_cfg) "codex")).
Proof.
  exact (proj2 (proj2 (setModel_twice sample_cfg (initial_session sample_cfg) "codex"))
           eq_refl).
Defined.


(** A keyboard of two options, the second one 40 characters long. *)
Lemma keyboard_has_one_button_per_option_witness :
  exists button,
    createAskUserKeyboard "r1" [ "yes"; "0123456789012345678901234567890123456789" ]
      !! 1%nat = Some button
    /\ callback_data button = "askuser:" ++ "r1" ++ ":" ++ index_text 1
    /\ button_text button = "012345678901234567890123456789..."
    /\ Js.len (button_text button) = 33.
Proof.
  destruct (keyboard_has_one_button_per_option "r1"
              [ "yes"; "0123456789012345678901234567890123456789" ])
    as (_ & Hbutton & _).
  destruct (Hbutton 1%nat "0123456789012345678901234567890123456789" eq_refl)
    as (button & Hat & Hdata & _ & Hlong).
  exists button. split; [exact Hat|]. split; [exact Hdata|].
  apply Hlong. vm_compute. reflexivity.
Defined.

(** The scan for chat 42 delivers one keyboard, and nothing the second
    time. *)
Lemma ask_user_requests_are_shown_once_witness :
  length (snd (checkPendingAskUserRequests "42" (fun _ => true) (fun _ => true)
                 sample_requests)) = 1%nat
  /\ forall accepts' writable',
       checkPendingAskUserRequests "42" accepts' writable'
         (snd (fst (checkPendingAskUserRequests "42" (fun _ => true) (fun _ => true)
                      sample_requests)))
       = (false,
          snd (fst (checkPendingAskUserRequests "42" (fun _ => true) (fun _ => true)
                      sample_requests)),
          []).
Proof.
  exact (proj2 (proj2 (proj2
           (ask_user_requests_are_shown_once "42" (fun _ => true) (fun _ => true)
              sample_requests)))
           (fun _ => eq_refl) (fun _ => eq_refl)).
Defined.

(** A short content that Telegram accepts goes out in one piece. *)
Lemma chunks_cover_the_content_witness :
  accepted_texts (sendChunkedMessages (fun _ => true) "hello")
  = html_attempts (sendChunkedMessages (fun _ => true) "hello").
Proof.
  exact (proj2 (proj2 (proj2 (chunks_cover_the_content (fun _ => true) "hello")))
           (fun _ => eq_refl)).
Defined.
